(* ===== verification/_CoqProject ===== *)
-Q . S2P
Prelude.v
GoRuntime.v
Os.v
Tabwriter.v
Classify.v
Handler.v
DryRun.v
MoveFiles.v
Liveness.v
PosixFS.v
Run.v
Cases.v
Rerun.v
Messages.v
Root.v
