(* ===== verification/Prelude.v ===== *)
(** * Verification of declutter: sorting the files of a directory by extension

    The program ([src/cmd/sort.go], [src/tools/helpers/sort.go], with the
    root command of [src/cmd/root.go] and [src/cmd/version.go]) takes one
    directory, lists its direct entries, keeps the regular files, classifies
    each by the extension of its name into one of seven categories (images,
    documents, pdf, media, zips, programming, other) and then either prints
    the planned moves (dry run) or creates the category directories and
    renames every file that is not excluded into the directory of its
    category.  Errors are Go panics: the run stops where the error occurs and
    the effects made so far stay.

    ** Parts of the program and where they are modelled

    - [Prelude] (this file): what all components share.  The [result] type
      for operations that may panic, the [outcome] of a run on a world
      (finished or crashed, each with the world reached), the state-and-panic
      monad [prog] with [forM_] and [foldP] for Go's [range] loops over
      effects, the Hoare-style predicate [triple] with its rules (sequence,
      consequence, conjunction, the loop rules [triple_forM_prefix] and
      [triple_foldP], and [triple_forM_stuck] for a loop that cannot
      finish), lemmas on strings and lists, the tactics ([by_compute]
      decides a closed proposition by evaluation) and the hint database [go]
      and rewrite databases [str] and [prog].
    - [GoRuntime]: the Go semantics the sources rely on and that is not code
      of the repository (modelled from the language and library
      specification): the 64-bit [int] with wrap-around ([wrap_int]), [len],
      the slice expressions [s[i:]] and [s[:j]] with their bounds panics,
      [strings.LastIndex], [strings.Repeat], the panic values and
      [os.Exit].
    - [Os]: the [os] and [path/filepath] interface: [FileInfo], [DirEntry],
      errors, and the class [FileSystem] of the operations the program calls
      ([ReadDir], [Info], [Stat], [Mkdir], [Rename], [Abs]) with the laws the
      proofs rely on, stated over an abstract view of the file system as a
      finite map from resolved paths to nodes.  Any operation may fail, for
      any reason: the laws constrain successful calls and the meaning of a
      not-exist error only.  The class [Reliable] adds the converse for
      the theorems that say when a run ends: a call succeeds whenever the
      tree allows it.  The world of a run ([world]) is the file system and
      the text written to standard output.
    - [Tabwriter]: the [tabwriter.Writer] on standard output that [DryRun]
      writes its table to, as a record [TabWriter] of the calls [Write] and
      [Flush], each of which returns what has reached standard output and an
      error.  [buffered format] is the writer that holds the cells until
      [Flush] and lays them out with [format]; [limited n err] is a writer
      whose standard output fails after [n] writes; [feed] is the reference
      for a sequence of writes of which some are checked.
    - [Classify]: the extension classifier.  [MustGetExtension]
      ([sort.go:308]), the extension constants ([sort.go:53-84]), the
      category names ([sort.go:45-51]) and [classify], the [switch] of
      [SortFiles] ([sort.go:141-158]).
    - [Handler]: the records [DirInfo], [NewDirsMap], [FileHandler]
      ([sort.go:16-36]), [InitializeFileHandler] ([sort.go:87]),
      [mustGetNewPath] ([sort.go:312]), [FilterDirectories] ([sort.go:166]),
      [SortFiles] ([sort.go:138]), [isExcluded] ([sort.go:332]) and [fields],
      the iteration over the fields of [NewDirsMap] that the source does by
      reflection.
    - [DryRun]: [ellipsis] ([sort.go:316]), [constructArrow] ([sort.go:323])
      and [DryRun] ([sort.go:189]): the loop that collects the rows and the
      excluded names ([plan]), the prints, and the writes to the
      [tabwriter], one by one as the source makes them: the error of the
      write of a row is a panic ([sort.go:236], [sort.go:253]), the errors
      of the writes of the headers are dropped, and so is the error of
      [Flush] ([sort.go:259]).  The writer is the parameter [tw].
    - [MoveFiles]: [MoveFiles] ([sort.go:264]) as a program over any
      [FileSystem]: [ensureDir] (the [Stat]/[Mkdir] of the directory of a
      category), [moveFile] (the body of the inner loop), [moveDir] (the body
      of the outer loop).  Its abstract specification is the step relation
      [move_step] on trees; the invariant [moved] says which files have been
      moved when the loops have come to a given point.
    - [Liveness]: when [MoveFiles] ends: the invariant [ready] (the tree
      still allows the calls to come) and the proof that on a [Reliable] file
      system no call of the loops fails.
    - [PosixFS]: a deterministic instance of [FileSystem] and of [Reliable]
      (a finite map from component lists to nodes), which discharges the laws
      of [Os] and on which complete runs are computed.
    - [Run]: [run] of [src/cmd/sort.go] (in the module [cmd], since [run] is
      also the projection of [prog]): the two flag lookups, [args[0]], the
      chain [InitializeFileHandler(...).FilterDirectories().SortFiles()]
      ([cmd.build]) and the choice of the mode; the theorems about complete
      runs; the scenarios of the specification, computed on [PosixFS] as
      examples; and the witnesses of the theorems that are stated for every
      file system.
    - [Cases], [Rerun], [Messages]: no new code, but what complete runs in
      move mode do on particular directories ([Cases]), when the command is
      run a second time ([Rerun], with the invariant [shaped] of a run on a
      reliable file system) and what they print ([Messages], with the
      reference [messages] for the output).
    - [Root]: the package variables and [init] of [src/cmd/root.go]
      ([root.go:25]), [initConfig] ([root.go:43]), [Execute] ([root.go:66])
      and the command [version] ([version.go:13]), over a model of the flag
      sets of [pflag] and of the registry of [viper] that covers the calls of
      the sources.  [Execute] runs the initializers, checks the number of
      arguments of [sort] as [cobra.ExactArgs(1)] does ([sort.go:13] of
      [src/cmd]), calls [run] of the command and returns the error of the
      check; [program] is [init] followed by [Execute].

    ** How state and effects are modelled

    A method that mutates the [FileHandler] through its pointer receiver and
    returns the receiver becomes a function from handler to handler.  Code
    that reads or changes the file system or prints is a [prog]: a function
    from the world to an [outcome], which is [Done] with a value and the new
    world or [Crash] with the panic value and the world at the panic, so that
    what a crashed run has already done is visible in the theorems.  A Go
    [int] is a [Z] and arithmetic on it is written with [wrap_int], the
    theorems showing where it cannot overflow.  A Go [string] is a [string]
    (a sequence of bytes); [len] is its number of bytes.  No fuel is used:
    every loop of the program ranges over a finite list and is a structural
    recursion.

    ** What the theorems show

    - [GoRuntime]: the specification of [LastIndex] (the last occurrence, or
      -1), bounds of slices, length of [Repeat].
    - [Classify]: [MustGetExtension] never panics on a Go string; the
      extension is the text after the last dot, or the whole name when there
      is none; [classify] agrees with the table of extensions; matching is
      case-sensitive ([classify_upper]); only the last extension counts
      ([categoryOf_suffix]); a name without a dot is classified by the whole
      name taken as an extension ([categoryOf_no_dot]).
    - [Handler]: the seven target paths are direct children of the working
      directory and pairwise distinct; [SortFiles] appends to each category
      exactly the files of that category in scan order, so the categories
      partition the scanned files; [isExcluded] decides membership of the
      name in the exclusion list; [FilterDirectories] keeps the entries that
      are not directories and changes nothing in the file system.
    - [DryRun]: [ellipsis] and [constructArrow] never panic on the names
      they are given, a shown name has at most 63 bytes and name and arrow
      together 70; the loops compute the planned moves and the excluded names
      of the reference definitions, an excluded file is never a row; [DryRun]
      leaves the file system alone whatever the writer does
      ([DryRun_readonly]); on every writer its run is [feed] on the lines of
      the table, the rows checked and the headers not ([DryRun_writes]): it
      panics with the error of the first failed write of a row, and
      finishes otherwise; on the buffered writer it finishes and prints the
      table ([DryRun_total]).
    - [MoveFiles]: the behaviour of [ensureDir] and [moveFile] on every
      branch, errors included.  For every file system satisfying the laws,
      whatever calls fail and also when the run crashes: [MoveFiles] refines
      [move_step] ([MoveFiles_refines]), so it changes nothing outside the
      working directory, keeps the excluded entries, and touches only the
      directories of the categories and the files of the plan.  When the run
      ends, every file of the plan that is not excluded is in the directory
      of its category with its contents and no longer in the working
      directory ([MoveFiles_moves]); this is proved in program order, with
      the loop rule [triple_forM_prefix] and the invariant [moved].
    - [Liveness]: [MoveFiles_ends]: on a [Reliable] file system [MoveFiles]
      ends without a panic when nothing but a directory has the name of the
      directory of a category and no directory is where a file is to go, so
      that the theorems about finished runs are not about an empty set of
      runs.
    - [Run]: [build_spec] says what plan the chain of calls builds;
      [run_moves], [run_keeps_excluded], [run_confined] and
      [run_dry_run_readonly] are the guarantees of a complete run of the
      command on every file system, [run_ends] says when the command ends
      on a [Reliable] one, for a dry run on a writer whose writes succeed
      ([writable]); [run_flag_errors] covers the error paths of [run]
      itself.  The examples [scenario_move], [scenario_dry_run] and the
      others are complete runs on [PosixFS], decided by evaluation; they
      are instances of the theorems, kept to show that the model runs.
    - [Cases]: on a directory that is sorted already a run changes nothing
      and reports every directory as existing ([run_sorted]); a regular file
      named [pdf] or [other], the name of the directory of its own category,
      makes every run in move mode panic, on every file system
      ([run_named_like_category], by the loop rule [triple_forM_stuck]).
    - [Rerun]: move mode is idempotent ([run_twice]): when nothing but a
      directory has the name of the directory of a category, a run that has
      ended leaves a sorted directory in a well formed tree, and the second
      run is idle.  [rerun_not_idempotent] shows that the condition is
      needed.
    - [Messages]: the output of a run in move mode that ends is
      [messages]: the lines of the directories and of the moves, in the
      order of the categories and of the plan ([run_messages]); a file
      whose name is taken in the directory of its category replaces the
      file that is there, and the output does not mention it
      ([run_replaces_existing]).
    - [Root]: [init] stops at its first binding, because the flag [author]
      is not defined: it prints the error of [BindPFlag] and sets no default
      ([init_author_not_defined]); [program_version] is the complete
      behaviour of the command [version], and [program_sort] that of the
      command [sort] up to its [run]: with another number of arguments than
      one, [run] is not called and [Execute] returns the error, so that
      [args[0]] is never out of range in the program.

    ** Assumptions, bounds and fuel

    The theorems about runs assume that the tree of the file system is well
    formed ([tree_wf]: entries have valid names and lie in directories) and
    that the working directory of the process consists of valid names.  The
    laws of [FileSystem] are stated for path names without [.] and [..]
    components ([clean]); the program only passes such names, because
    [filepath.Abs] returns a clean name and the names it appends are names of
    entries.  [int] is 64 bits wide; the theorems on [MustGetExtension] and
    [constructArrow] assume that a name is a Go string ([go_string]: its
    length is an [int]).  The theorems that say that a run ends assume a
    [Reliable] file system and, for a dry run, a writer whose writes return
    no error ([writable]); the theorems about what a run has done assume
    neither.  No definition uses fuel.

    ** What is not modelled

    The parsing of the command line by [cobra] and its help and usage
    output ([run] and [Execute] receive what the parsing has found;
    [args[0]] on an empty slice is reachable in [run] but, by
    [program_sort], not through [Execute], and the flag errors of [run] do
    not occur with the flags [sortFlags] that [init] defines), the reading of the configuration file by [viper] (a
    function of the environment of [initConfig]), standard error and with
    it the messages of [cobra] and of [cobra.CheckErr], errors of
    [fmt.Println] and [fmt.Printf] on standard output (the code drops
    them), the column alignment of [text/tabwriter] and when it sends its
    cells to standard output (parameters of the writer), the mode [0755]
    given to [os.Mkdir], file modes and times, symbolic links (an entry is
    a regular file or a directory), and concurrent changes of the directory
    by other processes. *)

From Stdlib Require Export ZArith Lia Ascii.
From stdpp Require Export base tactics option list strings gmap sorting.

Declare Scope go_scope.
Delimit Scope go_scope with go.
Open Scope go_scope.

Create HintDb go discriminated.
Create Rewrite HintDb str.
Create Rewrite HintDb prog.

(** ** Results of operations that may panic *)

Inductive result (E A : Type) : Type :=
| Ok (a : A)
| Panic (e : E).
Arguments Ok {E A} a.
Arguments Panic {E A} e.

Definition is_Ok {E A} (r : result E A) : Prop := ∃ a, r = Ok a.

#[export] Instance result_ret {E} : MRet (result E) := λ A a, Ok a.
#[export] Instance result_bind {E} : MBind (result E) := λ A B f r,
  match r with Ok a => f a | Panic e => Panic e end.
#[export] Instance result_fmap {E} : FMap (result E) := λ A B f r,
  match r with Ok a => Ok (f a) | Panic e => Panic e end.
#[export] Instance result_eq_dec `{EqDecision E, EqDecision A} :
  EqDecision (result E A).
Proof. solve_decision. Defined.
#[export] Instance Ok_inj {E A} : Inj (=) (=) (@Ok E A).
Proof. by intros ?? [=]. Qed.
#[export] Instance is_Ok_dec {E A} (r : result E A) : Decision (is_Ok r).
Proof.
  refine (match r with Ok a => left _ | Panic e => right _ end);
    [by eexists | by intros [??]].
Defined.

(** A loop with an accumulator whose body may panic:
    [for _, x := range l { acc = body(acc, x) }]. *)
Fixpoint foldM {E A B} (body : B → A → result E B) (acc : B) (l : list A) :
    result E B :=
  match l with
  | [] => Ok acc
  | x :: l' => body acc x ≫= λ acc', foldM body acc' l'
  end.

(** ** Programs over a world *)

Inductive outcome (W E A : Type) : Type :=
| Done (a : A) (w : W)
| Crash (e : E) (w : W).
Arguments Done {W E A} a w.
Arguments Crash {W E A} e w.

#[export] Instance outcome_eq_dec `{EqDecision W, EqDecision E, EqDecision A} :
  EqDecision (outcome W E A).
Proof. solve_decision. Defined.

Record prog (W E A : Type) : Type := Prog { run : W → outcome W E A }.
Arguments Prog {W E A} _.
Arguments run {W E A} _ _.

#[export] Instance prog_ret {W E} : MRet (prog W E) := λ A a, Prog (Done a).
#[export] Instance prog_bind {W E} : MBind (prog W E) := λ A B f m,
  Prog (λ w, match run m w with
             | Done a w' => run (f a) w'
             | Crash e w' => Crash e w'
             end).

Definition final {W E A} (o : outcome W E A) : W :=
  match o with Done _ w => w | Crash _ w => w end.

Definition is_Done {W E A} (o : outcome W E A) : Prop := ∃ a w, o = Done a w.

#[export] Instance is_Done_dec {W E A} (o : outcome W E A) : Decision (is_Done o).
Proof. destruct o; [left; by eexists _, _|right; by intros (? & ? & ?)]. Defined.

Definition gets {W E A} (f : W → A) : prog W E A := Prog (λ w, Done (f w) w).
Definition modify {W E} (f : W → W) : prog W E () :=
  Prog (λ w, Done () (f w)).
Definition panic {W E A} (e : E) : prog W E A := Prog (Crash e).
Definition lift {W E A} (r : result E A) : prog W E A :=
  Prog (λ w, match r with Ok a => Done a w | Panic e => Crash e w end).

(** [for _, x := range l { body(x) }] with effects. *)
Fixpoint forM_ {W E A} (l : list A) (body : A → prog W E ()) : prog W E () :=
  match l with
  | [] => mret ()
  | x :: l' => body x ≫= λ _, forM_ l' body
  end.

(** A loop with an accumulator and effects:
    [for _, x := range l { acc = body(acc, x) }]. *)
Fixpoint foldP {W E A B} (body : B → A → prog W E B) (acc : B) (l : list A) :
    prog W E B :=
  match l with
  | [] => mret acc
  | x :: l' => body acc x ≫= λ acc', foldP body acc' l'
  end.

(** [triple P m Q R]: from a world satisfying [P], the program [m] either
    finishes with a value and a world satisfying [Q] or crashes with a panic
    value and a world satisfying [R]. *)
Definition triple {W E A} (P : W → Prop) (m : prog W E A)
    (Q : A → W → Prop) (R : E → W → Prop) : Prop :=
  ∀ w, P w → match run m w with Done a w' => Q a w' | Crash e w' => R e w' end.

(** ** Strings as sequences of bytes *)

Fixpoint string_take (n : nat) (s : string) : string :=
  match n, s with
  | S n', String c s' => String c (string_take n' s')
  | _, _ => ""
  end.

Fixpoint string_drop (n : nat) (s : string) : string :=
  match n, s with
  | S n', String _ s' => string_drop n' s'
  | _, _ => s
  end.

Fixpoint string_mem (c : ascii) (s : string) : bool :=
  match s with
  | "" => false
  | String c' s' => bool_decide (c = c') || string_mem c s'
  end.

Fixpoint string_replicate (n : nat) (s : string) : string :=
  match n with
  | O => ""
  | S n' => s +:+ string_replicate n' s
  end.

(** [d </> n] is the path of the entry [n] of the directory [d], the way the
    sources build it: [d + "/" + n]. *)
Notation "d </> n" := (d +:+ "/" +:+ n)
  (at level 59, left associativity) : go_scope.

(** ** Tactics *)

(** Case analysis on the result or outcome that a goal or hypothesis
    matches on. *)
(** A closed decidable proposition, by evaluation of its decision. *)
Ltac by_compute := apply (bool_decide_unpack _); vm_compute; exact I.

(** Concatenations of lists, associated to the right. *)
Ltac list_assoc := repeat first [rewrite <-app_assoc | progress cbn [app]].

Ltac case_result :=
  match goal with
  | |- context [match ?r with Ok _ => _ | Panic _ => _ end] =>
      destruct r eqn:?
  | H : context [match ?r with Ok _ => _ | Panic _ => _ end] |- _ =>
      destruct r eqn:?
  | |- context [match ?o with Done _ _ => _ | Crash _ _ => _ end] =>
      destruct o eqn:?
  | H : context [match ?o with Done _ _ => _ | Crash _ _ => _ end] |- _ =>
      destruct o eqn:?
  end.

(** Unfold the monad operations of [result] in the goal and hypotheses. *)
Ltac result_simpl :=
  repeat (cbn [mbind mret fmap result_bind result_ret result_fmap] in *;
          simplify_eq).

(** ** Lemmas on [result] *)

Section result_lemmas.
Context {E A B : Type}.
Implicit Types (r : result E A) (f : A → result E B).

Lemma is_Ok_Ok (a : A) : is_Ok (Ok a : result E A).
Proof. by exists a. Qed.

Lemma not_is_Ok_Panic (e : E) : ¬ is_Ok (Panic e : result E A).
Proof. by intros [??]. Qed.

Lemma result_bind_Ok r f b :
  r ≫= f = Ok b ↔ ∃ a, r = Ok a ∧ f a = Ok b.
Proof.
  destruct r as [a|e]; cbn; split; [eauto| |done|].
  - by intros (?&[= <-]&?).
  - by intros (?&?&?).
Qed.

Lemma result_bind_Panic r f e :
  r ≫= f = Panic e ↔ r = Panic e ∨ ∃ a, r = Ok a ∧ f a = Panic e.
Proof.
  destruct r as [a|e']; cbn; split.
  - eauto.
  - by intros [?|(?&[= <-]&?)].
  - intros [= ->]; auto.
  - by intros [[= ->]|(?&?&?)].
Qed.

Lemma foldM_app (body : B → A → result E B) acc (l1 l2 : list A) :
  foldM body acc (l1 ++ l2) = foldM body acc l1 ≫= λ acc', foldM body acc' l2.
Proof.
  revert acc; induction l1 as [|x l1 IH]; intros acc; [done|].
  cbn. destruct (body acc x); cbn; auto.
Qed.

(** A loop whose body never panics on the elements of the list is a left
    fold. *)
Lemma foldM_pure (body : B → A → result E B) (g : B → A → B) acc (l : list A) :
  (∀ b x, x ∈ l → body b x = Ok (g b x)) →
  foldM body acc l = Ok (foldl g acc l).
Proof.
  revert acc; induction l as [|x l IH]; intros acc Hb; [done|].
  cbn. rewrite Hb by left. cbn. apply IH. intros; apply Hb. by right.
Qed.

End result_lemmas.

Section mapM_lemmas.
Context {E A B : Type}.

(** A loop that appends one computed element per iteration collects the
    results of [mapM]. *)
Lemma foldM_snoc_mapM (f : A → result E B) (acc : list B) (l : list A) :
  foldM (λ out x, y ← f x; mret (out ++ [y])) acc l =
  ys ← mapM f l; mret (acc ++ ys).
Proof.
  revert acc; induction l as [|x l IH]; intros acc; cbn.
  - by rewrite app_nil_r.
  - destruct (f x) as [y|e]; cbn; [|done]. rewrite IH.
    destruct (mapM f l); cbn; [|done]. by rewrite <-app_assoc.
Qed.

Lemma mapM_result_Ok (f : A → result E B) (l : list A) (k : list B) :
  mapM f l = Ok k ↔ Forall2 (λ x y, f x = Ok y) l k.
Proof.
  revert k; induction l as [|x l IH]; intros k; cbn.
  - split; [intros [= <-]; constructor|by inversion 1].
  - split.
    + intros (y & Hy & (k' & Hk' & [= <-])%result_bind_Ok)%result_bind_Ok.
      constructor; [done|by apply IH].
    + inversion 1 as [|? y ? k' Hy Hk']; subst. rewrite Hy. cbn.
      apply IH in Hk'. by rewrite Hk'.
Qed.

Lemma mapM_result_is_Ok (f : A → result E B) (l : list A) :
  Forall (λ x, is_Ok (f x)) l → is_Ok (mapM f l).
Proof.
  induction 1 as [|x l [y Hy] _ [k Hk]]; [by eexists|].
  exists (y :: k). cbn. by rewrite Hy; cbn; rewrite Hk.
Qed.
End mapM_lemmas.

(** ** Lemmas on programs *)

Section prog_lemmas.
Context {W E : Type}.

Lemma run_ret {A} (a : A) (w : W) : run (mret a : prog W E A) w = Done a w.
Proof. done. Qed.

Lemma run_bind {A B} (m : prog W E A) (f : A → prog W E B) w :
  run (m ≫= f) w =
  match run m w with Done a w' => run (f a) w' | Crash e w' => Crash e w' end.
Proof. done. Qed.

Lemma run_lift_Ok {A} (r : result E A) a (w : W) :
  r = Ok a → run (lift r) w = Done a w.
Proof. by intros ->. Qed.

Lemma run_lift_Panic {A} (r : result E A) e (w : W) :
  r = Panic e → run (lift r) w = Crash e w.
Proof. by intros ->. Qed.

Lemma run_forM_nil {A} (body : A → prog W E ()) w :
  run (forM_ [] body) w = Done () w.
Proof. done. Qed.

Lemma run_forM_cons {A} x (l : list A) (body : A → prog W E ()) w :
  run (forM_ (x :: l) body) w =
  match run (body x) w with
  | Done _ w' => run (forM_ l body) w'
  | Crash e w' => Crash e w'
  end.
Proof. done. Qed.

Lemma run_forM_app {A} (l1 l2 : list A) (body : A → prog W E ()) w :
  run (forM_ (l1 ++ l2) body) w =
  match run (forM_ l1 body) w with
  | Done _ w' => run (forM_ l2 body) w'
  | Crash e w' => Crash e w'
  end.
Proof.
  revert w; induction l1 as [|x l1 IH]; intros w; [done|].
  cbn [app]. rewrite !run_forM_cons. destruct (run (body x) w); auto.
Qed.

(** A loop over the images of a list is the loop over the list. *)
Lemma forM_fmap {A B} (f : A → B) (l : list A) (body : B → prog W E ()) :
  forM_ (f <$> l) body = forM_ l (λ x, body (f x)).
Proof. induction l as [|x l IH]; [done|]. cbn [fmap list_fmap forM_]. by rewrite <-IH. Qed.

Lemma triple_ret {A} (a : A) (P : W → Prop) Q (R : E → W → Prop) :
  (∀ w, P w → Q a w) → triple P (mret a) Q R.
Proof. intros H w Hw. by apply H. Qed.

Lemma triple_bind {A B} (m : prog W E A) (f : A → prog W E B)
    P Q R (S : B → W → Prop) :
  triple P m Q R → (∀ a, triple (Q a) (f a) S R) → triple P (m ≫= f) S R.
Proof.
  intros Hm Hf w Hw. rewrite run_bind. specialize (Hm w Hw).
  destruct (run m w); [by apply Hf|done].
Qed.

Lemma triple_conseq {A} (m : prog W E A) (P P' : W → Prop)
    (Q Q' : A → W → Prop) (R R' : E → W → Prop) :
  triple P' m Q' R' →
  (∀ w, P w → P' w) → (∀ a w, Q' a w → Q a w) → (∀ e w, R' e w → R e w) →
  triple P m Q R.
Proof.
  intros Hm HP HQ HR w Hw. specialize (Hm w (HP w Hw)).
  destruct (run m w); auto.
Qed.

Lemma triple_gets {A} (f : W → A) (P : W → Prop) (R : E → W → Prop) :
  triple P (gets f) (λ a w, a = f w ∧ P w) R.
Proof. by intros w Hw. Qed.

Lemma triple_modify (f : W → W) (P Q : W → Prop) (R : E → W → Prop) :
  (∀ w, P w → Q (f w)) → triple P (modify f) (λ _, Q) R.
Proof. intros H w Hw. by apply H. Qed.

Lemma triple_panic {A} (e : E) (P : W → Prop) (Q : A → W → Prop) R :
  (∀ w, P w → R e w) → triple P (panic e) Q R.
Proof. intros H w Hw. by apply H. Qed.

Lemma triple_lift {A} (r : result E A) (P : W → Prop) R :
  (∀ e w, P w → r = Panic e → R e w) →
  triple P (lift r) (λ a w, r = Ok a ∧ P w) R.
Proof. intros H w Hw. destruct r; cbn; eauto. Qed.

(** A computation without effects keeps what holds of the world. *)
Lemma triple_lift_keep {A} (r : result E A) (P : W → Prop) :
  triple P (lift r) (λ _, P) (λ _, P).
Proof. intros w Hw. by destruct r. Qed.

Lemma run_foldP_nil {A B} (body : B → A → prog W E B) acc w :
  run (foldP body acc []) w = Done acc w.
Proof. done. Qed.

Lemma run_foldP_cons {A B} (body : B → A → prog W E B) acc x l w :
  run (foldP body acc (x :: l)) w =
  match run (body acc x) w with
  | Done acc' w' => run (foldP body acc' l) w'
  | Crash e w' => Crash e w'
  end.
Proof. done. Qed.

(** The loop rule with an accumulator: [I done acc] relates the part of the
    list already processed with the accumulator and the world. *)
Lemma triple_foldP {A B} (body : B → A → prog W E B) (l : list A) acc
    (I : list A → B → W → Prop) R :
  (∀ done x acc, done ++ [x] `prefix_of` l →
     triple (I done acc) (body acc x) (λ acc', I (done ++ [x]) acc') R) →
  triple (I [] acc) (foldP body acc l) (λ acc', I l acc') R.
Proof.
  assert (∀ done rest acc, done ++ rest = l →
    (∀ done x acc, done ++ [x] `prefix_of` l →
       triple (I done acc) (body acc x) (λ acc', I (done ++ [x]) acc') R) →
    triple (I done acc) (foldP body acc rest) (λ acc', I l acc') R) as Hgen.
  { intros done rest; revert done.
    induction rest as [|x rest IH]; intros done acc' Hl Hb.
    - rewrite app_nil_r in Hl. subst. by apply triple_ret.
    - eapply triple_bind.
      + apply Hb. exists rest. by rewrite <-app_assoc.
      + intros acc''. apply IH; [by rewrite <-app_assoc|done]. }
  intros Hb. by apply (Hgen [] l).
Qed.

(** Two specifications of a program hold together. *)
Lemma triple_conj {A} (m : prog W E A) (P P' : W → Prop)
    (Q Q' : A → W → Prop) (R R' : E → W → Prop) :
  triple P m Q R → triple P' m Q' R' →
  triple (λ w, P w ∧ P' w) m (λ a w, Q a w ∧ Q' a w) (λ e w, R e w ∧ R' e w).
Proof.
  intros Hm Hm' w [Hw Hw']. specialize (Hm w Hw). specialize (Hm' w Hw').
  by destruct (run m w).
Qed.

(** A property of the world that the program keeps, whether it finishes or
    crashes, holds of the final world. *)
Lemma triple_final {A} (m : prog W E A) (P I : W → Prop) w :
  triple P m (λ _, I) (λ _, I) → P w → I (final (run m w)).
Proof. intros Hm Hw. specialize (Hm w Hw). by destruct (run m w). Qed.

(** A program that cannot crash ends. *)
Lemma triple_is_Done {A} (m : prog W E A) (P : W → Prop) Q w :
  triple P m Q (λ _ _, False) → P w → ∃ a w', run m w = Done a w' ∧ Q a w'.
Proof. intros Hm Hw. specialize (Hm w Hw). destruct (run m w); [eauto|done]. Qed.

(** The loop rule: an invariant of the body is an invariant of the loop,
    whether it finishes or crashes. *)
Lemma triple_forM {A} (l : list A) (body : A → prog W E ()) (I : W → Prop) R :
  (∀ x, x ∈ l → triple I (body x) (λ _, I) R) →
  triple I (forM_ l body) (λ _, I) R.
Proof.
  induction l as [|x l IH]; intros Hb; [by apply triple_ret|].
  eapply triple_bind; [apply Hb; left|].
  intros []. apply IH. intros y Hy. apply Hb. by right.
Qed.

(** The loop rule with progress: [I done] holds when the elements of [done]
    have been processed. *)
Lemma triple_forM_prefix {A} (l : list A) (body : A → prog W E ())
    (I : list A → W → Prop) R :
  (∀ done x, done ++ [x] `prefix_of` l →
     triple (I done) (body x) (λ _, I (done ++ [x])) R) →
  triple (I []) (forM_ l body) (λ _, I l) R.
Proof.
  assert (∀ rest done, done ++ rest = l →
    (∀ done x, done ++ [x] `prefix_of` l →
       triple (I done) (body x) (λ _, I (done ++ [x])) R) →
    triple (I done) (forM_ rest body) (λ _, I l) R) as Hgen.
  { induction rest as [|x rest IH]; intros done Hl Hb.
    - rewrite app_nil_r in Hl. subst. by apply triple_ret.
    - eapply triple_bind.
      + apply Hb. exists rest. by rewrite <-app_assoc.
      + intros []. apply IH; [by rewrite <-app_assoc|done]. }
  intros Hb. by apply (Hgen l []).
Qed.
(** A loop whose body does nothing does nothing. *)
Lemma run_forM_skip {A} (l : list A) (body : A → prog W E ()) w :
  (∀ x, x ∈ l → run (body x) w = Done () w) → run (forM_ l body) w = Done () w.
Proof.
  induction l as [|x l IH]; intros Hbody; [done|].
  rewrite run_forM_cons, Hbody by left. apply IH. intros y Hy. apply Hbody. by right.
Qed.

(** A loop does not finish when its body cannot finish on one of the
    elements. *)
Lemma triple_forM_stuck {A} (l : list A) (body : A → prog W E ())
    (I : list A → W → Prop) R x0 :
  x0 ∈ l →
  (∀ done x, done ++ [x] `prefix_of` l →
     triple (I done) (body x) (λ _, I (done ++ [x])) R) →
  (∀ done, done ++ [x0] `prefix_of` l →
     triple (I done) (body x0) (λ _ _, False) R) →
  triple (I []) (forM_ l body) (λ _ _, False) R.
Proof.
  intros (l1 & l2 & ->)%list_elem_of_split Hstep Hstuck w Hw.
  rewrite run_forM_app.
  assert (triple (I []) (forM_ l1 body) (λ _, I l1) R) as Hl1.
  { apply triple_forM_prefix. intros done x Hpre. apply Hstep.
    etrans; [done|]. by apply prefix_app_r. }
  specialize (Hl1 w Hw). destruct (run (forM_ l1 body) w) as [[] w1|]; [|done].
  rewrite run_forM_cons.
  assert (l1 ++ [x0] `prefix_of` l1 ++ x0 :: l2) as Hpre
    by (exists l2; by rewrite <-app_assoc).
  specialize (Hstuck l1 Hpre w1 Hl1). by destruct (run (body x0) w1).
Qed.
End prog_lemmas.

#[export] Hint Rewrite @run_ret @run_bind @run_forM_nil @run_forM_cons
  @run_foldP_nil @run_foldP_cons : prog.
#[export] Hint Resolve is_Ok_Ok : go.

(** ** Lemmas on lists *)

Section lists.
Context {A C : Type} `{EqDecision C}.
Implicit Types (l : list A) (g : A → C) (cs : list C).

(** Sorting the elements of a list into classes, each class keeping the
    order of the list, rearranges the list: nothing is lost, nothing is
    duplicated. *)
Lemma classes_Permutation g cs l :
  NoDup cs → (∀ x, x ∈ l → g x ∈ cs) →
  mjoin ((λ c, filter (λ x, g x = c) l) <$> cs) ≡ₚ l.
Proof.
  intros Hcs. revert l. induction Hcs as [|c cs Hc Hcs IH]; intros l Hl.
  - destruct l as [|x l]; [done|].
    by destruct (not_elem_of_nil (g x)); apply Hl; left.
  - cbn. etrans; [|apply (filter_app_complement (λ x, g x = c) l)].
    apply Permutation_app_head.
    assert ((λ c', filter (λ x, g x = c') l) <$> cs =
            (λ c', filter (λ x, g x = c') (filter (λ x, g x ≠ c) l)) <$> cs)
      as ->.
    { apply list_fmap_ext. intros i c' Hc'%list_elem_of_lookup_2.
      rewrite list_filter_filter_l; [done|].
      intros x Hx Hxc. apply Hc. by rewrite <-Hxc, Hx. }
    apply IH. intros x [Hx1 Hx2]%list_elem_of_filter.
    apply Hl in Hx2. by apply elem_of_cons in Hx2 as [?|?].
Qed.

Lemma StronglySorted_sublist (R : relation A) l1 l2 :
  l1 `sublist_of` l2 → StronglySorted R l2 → StronglySorted R l1.
Proof.
  induction 1 as [|x l1 l2 Hsub IH|x l1 l2 Hsub IH];
    intros Hs; [done|..]; apply StronglySorted_inv in Hs as [Hs Hx].
  - constructor; [by apply IH|].
    rewrite Forall_forall in Hx. apply Forall_forall. intros y Hy.
    apply Hx. by eapply elem_of_sublist.
  - by apply IH.
Qed.

Lemma NoDup_omap {B} (f : A → option B) l :
  (∀ x y z, f x = Some z → f y = Some z → x = y) →
  NoDup l → NoDup (omap f l).
Proof.
  intros Hinj. induction 1 as [|x l Hx Hl IH]; cbn; [constructor|].
  destruct (f x) as [z|] eqn:Hz; [|done]. constructor; [|done].
  intros (y & Hy & Hfy)%list_elem_of_omap.
  by rewrite (Hinj _ _ _ Hz Hfy) in Hx.
Qed.

Lemma foldl_snoc_fmap {B} (f : A → B) (acc : list B) l :
  foldl (λ acc x, acc ++ [f x]) acc l = acc ++ (f <$> l).
Proof.
  revert acc; induction l as [|x l IH]; intros acc; cbn.
  - by rewrite app_nil_r.
  - by rewrite IH, <-app_assoc.
Qed.
End lists.

(** ** Lemmas on strings *)

Section strings.
Implicit Types (s t u : string) (c : ascii) (n : nat).

Lemma string_app_nil_l s : "" +:+ s = s.
Proof. done. Qed.

Lemma string_app_cons c s t : String c s +:+ t = String c (s +:+ t).
Proof. done. Qed.

Lemma string_app_nil_r s : s +:+ "" = s.
Proof. induction s; [done|]. rewrite !string_app_cons. congruence. Qed.

Lemma string_app_assoc s t u : (s +:+ t) +:+ u = s +:+ t +:+ u.
Proof. induction s; [done|]. rewrite !string_app_cons. congruence. Qed.

Lemma string_length_app s t :
  String.length (s +:+ t) = String.length s + String.length t.
Proof. induction s; [done|]. rewrite string_app_cons. cbn. congruence. Qed.

Lemma string_take_drop n s : string_take n s +:+ string_drop n s = s.
Proof.
  revert s; induction n; intros []; cbn; rewrite ?string_app_cons; by f_equal.
Qed.

Lemma string_length_take n s :
  String.length (string_take n s) = n `min` String.length s.
Proof. revert s; induction n; intros []; cbn; auto. Qed.

Lemma string_length_drop n s :
  String.length (string_drop n s) = String.length s - n.
Proof. revert s; induction n; intros []; cbn; auto. Qed.

Lemma string_drop_0 s : string_drop 0 s = s.
Proof. by destruct s. Qed.

Lemma string_drop_app_length s t : string_drop (String.length s) (s +:+ t) = t.
Proof. induction s; [by destruct t|]. by rewrite string_app_cons. Qed.

Lemma string_take_app_length s t : string_take (String.length s) (s +:+ t) = s.
Proof.
  induction s; [by destruct t|]. rewrite string_app_cons. cbn. congruence.
Qed.

Lemma string_take_ge n s : String.length s ≤ n → string_take n s = s.
Proof.
  revert s; induction n; intros []; cbn; intros; f_equal; auto with lia.
Qed.

Lemma string_mem_app c s t :
  string_mem c (s +:+ t) = string_mem c s || string_mem c t.
Proof.
  induction s; [done|]. rewrite string_app_cons. cbn.
  rewrite IHs. by rewrite orb_assoc.
Qed.

(** A string in which [c] occurs splits at the last occurrence of [c]. *)
Lemma string_mem_split_last c s :
  string_mem c s = true →
  ∃ pre suf, s = pre +:+ String c suf ∧ string_mem c suf = false.
Proof.
  induction s as [|c' s IH]; cbn; [done|].
  destruct (string_mem c s) eqn:Hs.
  - intros _. destruct IH as (pre & suf & -> & ?); [done|].
    by exists (String c' pre), suf.
  - rewrite orb_false_r. intros <-%bool_decide_eq_true. by exists "", s.
Qed.

Lemma string_prefix_nil s : String.prefix "" s = true.
Proof. by destruct s. Qed.

Lemma string_prefix_byte c c' s :
  String.prefix (String c "") (String c' s) = bool_decide (c = c').
Proof.
  cbn. destruct (ascii_dec c c'); [|by rewrite bool_decide_eq_false_2].
  by rewrite string_prefix_nil, bool_decide_eq_true_2.
Qed.

Lemma string_length_replicate n s :
  String.length (string_replicate n s) = n * String.length s.
Proof. induction n; cbn; [done|]. rewrite string_length_app. lia. Qed.
End strings.

#[export] Hint Rewrite string_app_nil_l string_app_cons string_app_nil_r
  string_app_assoc string_length_app string_length_take string_length_drop
  string_drop_app_length string_take_app_length string_mem_app
  string_length_replicate : str.
