(* ===== verification/GoRuntime.v ===== *)
(** * The Go semantics the sources rely on

    The 64-bit [int], [len], slice expressions on strings with their bounds
    panics, [strings.LastIndex], [strings.Repeat], and the values a panic
    carries.  None of this is code of the repository: it is modelled from the
    Go language specification and the documentation of package [strings]. *)

From S2P Require Import Prelude.

#[local] Open Scope Z_scope.

(** ** The type [int] on a 64-bit platform *)

Definition int_min : Z := - 2 ^ 63.
Definition int_max : Z := 2 ^ 63 - 1.

(** Two's complement wrap-around of an integer result. *)
Definition wrap_int (z : Z) : Z := (z + 2 ^ 63) `mod` 2 ^ 64 - 2 ^ 63.

Definition int_add (a b : Z) : Z := wrap_int (a + b).
Definition int_sub (a b : Z) : Z := wrap_int (a - b).

Definition is_int (z : Z) : Prop := int_min ≤ z ≤ int_max.

(** ** Errors and panic values *)

(** The error numbers of the system calls behind [os]. *)
Inductive errno : Set :=
| ENOENT | EEXIST | ENOTDIR | EISDIR | ENOTEMPTY | EACCES | EXDEV | EIO | EINVAL.

(** The error values the program meets: [*PathError] and [*LinkError] of
    package [os], and the errors of other packages, which only carry a
    message. *)
Inductive error : Set :=
| PathError (op path : string) (e : errno)
| LinkError (op old new : string) (e : errno)
| ErrorString (msg : string).

(** What stops a run: a panic, which carries a run-time error or the value
    given to [panic], or [os.Exit] with its status. *)
Inductive panic_value : Set :=
| Exit (code : Z)
| SliceOutOfRange
| IndexOutOfRange
| RepeatNegativeCount
| RepeatOverflow
| PanicError (err : error).

#[export] Instance errno_eq_dec : EqDecision errno.
Proof. solve_decision. Defined.
#[export] Instance error_eq_dec : EqDecision error.
Proof. solve_decision. Defined.
#[export] Instance panic_value_eq_dec : EqDecision panic_value.
Proof. solve_decision. Defined.

(** ** Strings *)

(** The characters that string literals of the sources write with escape
    sequences: tab, newline and escape. *)
Definition tab : string := String "009" "".
Definition nl : string := String "010" "".
Definition esc : string := String "027" "".

(** [len(s)]: the number of bytes of [s]. *)
Definition len (s : string) : Z := Z.of_nat (String.length s).

(** The strings of a Go program: their length is an [int]. *)
Definition go_string (s : string) : Prop := len s ≤ int_max.

#[export] Instance go_string_dec s : Decision (go_string s).
Proof. unfold go_string. apply _. Defined.

(** [xs[i]] on a slice. *)
Definition index {A} (xs : list A) (i : Z) : result panic_value A :=
  if decide (0 ≤ i) then from_option Ok (Panic IndexOutOfRange) (xs !! Z.to_nat i)
  else Panic IndexOutOfRange.

(** [s[i:]]. *)
Definition slice_from (s : string) (i : Z) : result panic_value string :=
  if decide (0 ≤ i ≤ len s) then Ok (string_drop (Z.to_nat i) s)
  else Panic SliceOutOfRange.

(** [s[:j]]. *)
Definition slice_to (s : string) (j : Z) : result panic_value string :=
  if decide (0 ≤ j ≤ len s) then Ok (string_take (Z.to_nat j) s)
  else Panic SliceOutOfRange.

(** [strings.LastIndex(s, substr)]: the index of the last instance of
    [substr] in [s], or -1.  The scan goes through the suffixes of [s] from
    the left, [i] being the index of the current suffix and [acc] the last
    match seen. *)
Fixpoint last_index_go (s substr : string) (i acc : Z) : Z :=
  let acc' := if String.prefix substr s then i else acc in
  match s with
  | "" => acc'
  | String _ s' => last_index_go s' substr (i + 1) acc'
  end.

Definition LastIndex (s substr : string) : Z := last_index_go s substr 0 (-1).

(** [strings.Repeat(s, count)]: panics if [count] is negative or if the
    length of the result overflows. *)
Definition Repeat (s : string) (count : Z) : result panic_value string :=
  if decide (count < 0) then Panic RepeatNegativeCount
  else if decide (int_max < len s * count) then Panic RepeatOverflow
  else Ok (string_replicate (Z.to_nat count) s).

(** ** Integers *)

Lemma wrap_int_id z : is_int z → wrap_int z = z.
Proof.
  unfold is_int, int_min, int_max, wrap_int. intros ?.
  rewrite Z.mod_small; lia.
Qed.

Lemma wrap_int_is_int z : is_int (wrap_int z).
Proof.
  unfold is_int, int_min, int_max, wrap_int.
  pose proof (Z.mod_pos_bound (z + 2 ^ 63) (2 ^ 64)). lia.
Qed.

Lemma int_add_id a b : is_int (a + b) → int_add a b = a + b.
Proof. apply wrap_int_id. Qed.

Lemma int_sub_id a b : is_int (a - b) → int_sub a b = a - b.
Proof. apply wrap_int_id. Qed.

Lemma index_head {A} (x : A) xs : index (x :: xs) 0 = Ok x.
Proof. done. Qed.

Lemma index_nil {A} i : index (@nil A) i = Panic IndexOutOfRange.
Proof. unfold index. by case_decide. Qed.

(** ** Length and slices *)

Section strings.
Implicit Types (s t pre suf : string) (c : ascii) (i j : Z).

Lemma len_nonneg s : 0 ≤ len s.
Proof. unfold len. lia. Qed.

Lemma len_app s t : len (s +:+ t) = len s + len t.
Proof. unfold len. rewrite string_length_app. lia. Qed.

Lemma len_cons c s : len (String c s) = 1 + len s.
Proof. unfold len. cbn [String.length]. lia. Qed.

Lemma len_empty : len "" = 0.
Proof. done. Qed.

Lemma go_string_app_l s t : go_string (s +:+ t) → go_string s.
Proof. unfold go_string. rewrite len_app. pose proof (len_nonneg t). lia. Qed.

Lemma go_string_app_r s t : go_string (s +:+ t) → go_string t.
Proof. unfold go_string. rewrite len_app. pose proof (len_nonneg s). lia. Qed.

Lemma slice_from_Ok s i :
  0 ≤ i ≤ len s → slice_from s i = Ok (string_drop (Z.to_nat i) s).
Proof. intros. unfold slice_from. by rewrite decide_True. Qed.

Lemma slice_from_Panic s i :
  ¬ (0 ≤ i ≤ len s) → slice_from s i = Panic SliceOutOfRange.
Proof. intros. unfold slice_from. by rewrite decide_False. Qed.

Lemma slice_to_Ok s j :
  0 ≤ j ≤ len s → slice_to s j = Ok (string_take (Z.to_nat j) s).
Proof. intros. unfold slice_to. by rewrite decide_True. Qed.

Lemma slice_to_Panic s j :
  ¬ (0 ≤ j ≤ len s) → slice_to s j = Panic SliceOutOfRange.
Proof. intros. unfold slice_to. by rewrite decide_False. Qed.

(** [s[len(pre):]] of [pre + suf] is [suf]. *)
Lemma slice_from_app pre suf : slice_from (pre +:+ suf) (len pre) = Ok suf.
Proof.
  rewrite slice_from_Ok.
  - unfold len. by rewrite Nat2Z.id, string_drop_app_length.
  - rewrite len_app. pose proof (len_nonneg pre). pose proof (len_nonneg suf). lia.
Qed.

Lemma slice_to_len s j t : slice_to s j = Ok t → len t = j.
Proof.
  unfold slice_to. case_decide; [|done]. intros [= <-].
  unfold len in *. rewrite string_length_take, Nat.min_l; lia.
Qed.

(** ** [LastIndex] *)

Lemma last_index_go_cons c s substr i acc :
  last_index_go (String c s) substr i acc =
  last_index_go s substr (i + 1)
    (if String.prefix substr (String c s) then i else acc).
Proof. done. Qed.

(** The result is the accumulator or an index of the scanned part. *)
Lemma last_index_go_range s substr i acc :
  last_index_go s substr i acc = acc ∨
  i ≤ last_index_go s substr i acc ≤ i + len s.
Proof.
  revert i acc; induction s as [|c s IH]; intros i acc.
  - cbn. rewrite len_empty. case_match; [right; lia|by left].
  - rewrite last_index_go_cons, len_cons. pose proof (len_nonneg s).
    destruct (IH (i + 1) (if String.prefix substr (String c s) then i else acc))
      as [->|?]; [|right; lia].
    case_match; [right; lia|by left].
Qed.

Lemma LastIndex_range s substr : -1 ≤ LastIndex s substr ≤ len s.
Proof.
  unfold LastIndex. pose proof (len_nonneg s).
  destruct (last_index_go_range s substr 0 (-1)) as [->|?]; lia.
Qed.

(** A single byte that does not occur is not found. *)
Lemma last_index_go_absent c s i acc :
  string_mem c s = false → last_index_go s (String c "") i acc = acc.
Proof.
  revert i acc; induction s as [|c' s IH]; intros i acc; [done|].
  cbn [string_mem]. intros [Hc Hs]%orb_false_elim.
  apply bool_decide_eq_false in Hc.
  by rewrite last_index_go_cons, IH, string_prefix_byte, bool_decide_eq_false_2.
Qed.

(** The last occurrence of a single byte is found. *)
Lemma last_index_go_last c pre suf i acc :
  string_mem c suf = false →
  last_index_go (pre +:+ String c suf) (String c "") i acc = i + len pre.
Proof.
  intros Hsuf. revert i acc; induction pre as [|c' pre IH]; intros i acc.
  - rewrite string_app_nil_l, last_index_go_cons, last_index_go_absent by done.
    rewrite string_prefix_byte, bool_decide_eq_true_2, len_empty by done. lia.
  - rewrite string_app_cons, last_index_go_cons, IH, len_cons. lia.
Qed.

Lemma LastIndex_byte_absent c s :
  string_mem c s = false → LastIndex s (String c "") = -1.
Proof. apply last_index_go_absent. Qed.

Lemma LastIndex_byte_last c pre suf :
  string_mem c suf = false →
  LastIndex (pre +:+ String c suf) (String c "") = len pre.
Proof. intros. unfold LastIndex. by rewrite last_index_go_last. Qed.

(** For a single byte the result is smaller than the length. *)
Lemma LastIndex_byte_lt c s : LastIndex s (String c "") < len s ∨ s = "".
Proof.
  destruct (string_mem c s) eqn:Hc.
  - apply string_mem_split_last in Hc as (pre & suf & -> & Hsuf). left.
    rewrite LastIndex_byte_last, len_app, len_cons by done.
    pose proof (len_nonneg suf). lia.
  - rewrite LastIndex_byte_absent by done. destruct s; [by right|left].
    rewrite len_cons. pose proof (len_nonneg s). lia.
Qed.

(** ** [Repeat] *)

Lemma Repeat_Ok s count :
  0 ≤ count → len s * count ≤ int_max →
  Repeat s count = Ok (string_replicate (Z.to_nat count) s).
Proof.
  intros. unfold Repeat. rewrite decide_False by lia. by rewrite decide_False by lia.
Qed.

Lemma Repeat_len s count t : Repeat s count = Ok t → len t = len s * count.
Proof.
  unfold Repeat. repeat case_decide; try done. intros [= <-].
  unfold len. rewrite string_length_replicate. lia.
Qed.

Lemma Repeat_negative s count :
  count < 0 → Repeat s count = Panic RepeatNegativeCount.
Proof. intros. unfold Repeat. by rewrite decide_True. Qed.
End strings.

#[export] Hint Resolve len_nonneg wrap_int_is_int : go.
#[export] Hint Rewrite len_app len_cons len_empty : str.
