(* ===== verification/Os.v ===== *)
(** * The interface to the operating system

    What the program uses of packages [os] and [path/filepath]: the values
    [FileInfo] and [DirEntry], path names and their resolution, and the class
    [FileSystem] of the operations with their laws.  The world of a run is
    the file system together with the text written to standard output.
    None of this is code of the repository: it is modelled from the
    documentation of the two packages and of the system calls behind them. *)

From S2P Require Import Prelude GoRuntime.

(** ** Values of package [os] *)

(** [os.FileInfo], as far as the program can observe it: what [Name()],
    [Size()] and [IsDir()] return. *)
Record FileInfo : Set := mkFileInfo {
  Name : string;
  Size : Z;
  IsDir : bool;
}.

(** [os.DirEntry]: an entry read from a directory. *)
Record DirEntry : Set := mkDirEntry {
  EntryName : string;
  EntryIsDir : bool;
}.

#[export] Instance FileInfo_eq_dec : EqDecision FileInfo.
Proof. solve_decision. Defined.
#[export] Instance DirEntry_eq_dec : EqDecision DirEntry.
Proof. solve_decision. Defined.

(** [os.IsNotExist(err)]. *)
Definition IsNotExist (err : error) : bool :=
  match err with
  | PathError _ _ e | LinkError _ _ _ e => bool_decide (e = ENOENT)
  | ErrorString _ => false
  end.

(** ** Path names *)

(** A resolved path: the names of the directories from the root down to the
    entry.  The root directory is the empty list. *)
Notation path := (list string).

(** A name that an entry of a directory can have. *)
Definition valid_name (n : string) : Prop :=
  n ≠ "" ∧ n ≠ "." ∧ n ≠ ".." ∧ string_mem "/" n = false.

#[export] Instance valid_name_dec n : Decision (valid_name n).
Proof. unfold valid_name. apply _. Defined.

(** A component of a path name: a non-empty text without a separator. *)
Definition component (n : string) : Prop :=
  n ≠ "" ∧ string_mem "/" n = false.

(** The components of a path name: the maximal runs of bytes other than the
    separator.  [cur] is the component being read. *)
Fixpoint components_go (s : string) (cur : string) : path :=
  match s with
  | "" => if decide (cur = "") then [] else [cur]
  | String c s' =>
      if bool_decide (c = "/"%char)
      then (if decide (cur = "") then [] else [cur]) ++ components_go s' ""
      else components_go s' (cur +:+ String c "")
  end.

Definition components (s : string) : path := components_go s "".

(** [filepath.IsAbs]. *)
Definition IsAbs (s : string) : bool := String.prefix "/" s.

(** The entry that a path name denotes for a process whose working directory
    is [cwd]. *)
Definition resolve (cwd : path) (s : string) : path :=
  if IsAbs s then components s else cwd ++ components s.

(** The lexical processing of [filepath.Clean] on the components of a rooted
    path: [.] is dropped, [..] removes the component before it (and is
    dropped at the root).  [acc] holds the components kept so far, last
    first. *)
Fixpoint normalise_go (cs : path) (acc : path) : path :=
  match cs with
  | [] => reverse acc
  | c :: cs' =>
      if decide (c = ".") then normalise_go cs' acc
      else if decide (c = "..") then normalise_go cs' (tail acc)
      else normalise_go cs' (c :: acc)
  end.

Definition normalise (cs : path) : path := normalise_go cs [].

(** The clean absolute path name of a resolved path. *)
Fixpoint render_go (k : path) : string :=
  match k with
  | [] => ""
  | c :: k' => "/" +:+ c +:+ render_go k'
  end.

Definition render (k : path) : string :=
  match k with
  | [] => "/"
  | _ => render_go k
  end.

(** A path name all of whose components are names of entries. *)
Definition clean (s : string) : Prop := Forall valid_name (components s).

#[export] Instance clean_dec s : Decision (clean s).
Proof. unfold clean. apply _. Defined.

(** ** The file system *)

(** What a path can denote: a regular file with its contents, or a
    directory. *)
Inductive node : Set :=
| File (data : string)
| Folder.

#[export] Instance node_eq_dec : EqDecision node.
Proof. solve_decision. Defined.

Definition is_folder (nd : node) : bool :=
  match nd with Folder => true | File _ => false end.

(** The [FileInfo] of the entry [n] that denotes [nd]. *)
Definition info_of (n : string) (nd : node) : FileInfo :=
  match nd with
  | File data => mkFileInfo n (len data) false
  | Folder => mkFileInfo n 0 true
  end.

(** The tree of a file system: the root is a directory, and every other
    entry has a valid name and lies in a directory. *)
Definition tree_wf (t : gmap path node) : Prop :=
  t !! [] = Some Folder ∧
  ∀ k n nd, t !! (k ++ [n]) = Some nd → valid_name n ∧ t !! k = Some Folder.

(** [tree_wf] as a property of the entries, which can be decided. *)
Definition entry_ok (t : gmap path node) (p : path) (nd : node) : Prop :=
  match last p with
  | None => nd = Folder
  | Some n => valid_name n ∧ t !! removelast p = Some Folder
  end.

Definition tree_ok (t : gmap path node) : Prop :=
  t !! [] = Some Folder ∧ map_Forall (entry_ok t) t.

#[export] Instance entry_ok_dec t p nd : Decision (entry_ok t p nd).
Proof. unfold entry_ok. destruct (last p); apply _. Defined.
#[export] Instance tree_ok_dec t : Decision (tree_ok t).
Proof. unfold tree_ok. apply _. Defined.

(** The operations the program calls, on a state [FS] of the file system.
    [fs_tree] and [fs_cwd] are the abstract view of a state: the entries that
    exist and the working directory of the process.  The laws say what a
    successful call has done and what a not-exist error of [Stat] means; a
    call may fail for reasons the view does not show (permissions, I/O
    errors), so no law says when a call succeeds.  A failed call changes
    nothing: it returns no new state.  [Rename] of a regular file replaces
    what the new path denoted, unless that is a directory; [Rename] of a
    directory is only known to leave alone what lies neither below the old
    nor below the new path. *)
Class FileSystem (FS : Type) := {
  fs_tree : FS → gmap path node;
  fs_cwd : FS → path;
  Abs : FS → string → result error string;
  ReadDir : FS → string → result error (list DirEntry);
  Info : FS → string → DirEntry → result error FileInfo;
  Stat : FS → string → result error FileInfo;
  Mkdir : FS → string → result error FS;
  Rename : FS → string → string → result error FS;

  Abs_Ok fs p a :
    Abs fs p = Ok a → a = render (normalise (resolve (fs_cwd fs) p));
  ReadDir_Ok fs d es :
    clean d → ReadDir fs d = Ok es →
    let k := resolve (fs_cwd fs) d in
    fs_tree fs !! k = Some Folder ∧
    StronglySorted String.le (EntryName <$> es) ∧
    NoDup (EntryName <$> es) ∧
    ∀ n b, mkDirEntry n b ∈ es ↔
           ∃ nd, fs_tree fs !! (k ++ [n]) = Some nd ∧ b = is_folder nd;
  Info_Ok fs d e i :
    clean d → Info fs d e = Ok i →
    ∃ nd, fs_tree fs !! (resolve (fs_cwd fs) d ++ [EntryName e]) = Some nd ∧
          i = info_of (EntryName e) nd;
  Stat_Ok fs p i :
    clean p → Stat fs p = Ok i →
    ∃ nd, fs_tree fs !! resolve (fs_cwd fs) p = Some nd ∧
          IsDir i = is_folder nd;
  Stat_not_exist fs p err :
    clean p → Stat fs p = Panic err → IsNotExist err = true →
    fs_tree fs !! resolve (fs_cwd fs) p = None;
  Mkdir_Ok fs p fs' :
    clean p → Mkdir fs p = Ok fs' →
    let k := resolve (fs_cwd fs) p in
    fs_tree fs !! k = None ∧
    fs_tree fs !! removelast k = Some Folder ∧
    fs_tree fs' = <[k := Folder]> (fs_tree fs) ∧
    fs_cwd fs' = fs_cwd fs;
  Rename_Ok fs old new fs' :
    clean old → clean new → Rename fs old new = Ok fs' →
    let ko := resolve (fs_cwd fs) old in
    let kn := resolve (fs_cwd fs) new in
    fs_cwd fs' = fs_cwd fs ∧
    (∀ p, ¬ ko `prefix_of` p → ¬ kn `prefix_of` p →
          fs_tree fs' !! p = fs_tree fs !! p) ∧
    ∃ nd, fs_tree fs !! ko = Some nd ∧
      (nd ≠ Folder →
       fs_tree fs !! kn ≠ Some Folder ∧
       fs_tree fs !! removelast kn = Some Folder ∧
       fs_tree fs' = <[kn := nd]> (delete ko (fs_tree fs)));
}.

(** A file system on which a call succeeds whenever the tree allows it: no
    failure comes from outside the model (permissions, I/O errors, other
    processes).  The theorems that say when a run ends are proved for such
    file systems. *)
Class Reliable (FS : Type) `{!FileSystem FS} := {
  Abs_total fs p : is_Ok (Abs fs p);
  ReadDir_folder fs d :
    clean d → fs_tree fs !! resolve (fs_cwd fs) d = Some Folder →
    is_Ok (ReadDir fs d);
  Info_exists fs d e :
    clean d →
    is_Some (fs_tree fs !! (resolve (fs_cwd fs) d ++ [EntryName e])) →
    is_Ok (Info fs d e);
  Stat_exists fs p :
    clean p → is_Some (fs_tree fs !! resolve (fs_cwd fs) p) →
    is_Ok (Stat fs p);
  Stat_absent fs p :
    clean p →
    let k := resolve (fs_cwd fs) p in
    fs_tree fs !! k = None → fs_tree fs !! removelast k = Some Folder →
    ∃ err, Stat fs p = Panic err ∧ IsNotExist err = true;
  Mkdir_absent fs p :
    clean p →
    let k := resolve (fs_cwd fs) p in
    fs_tree fs !! k = None → fs_tree fs !! removelast k = Some Folder →
    is_Ok (Mkdir fs p);
  Rename_file fs old new data :
    clean old → clean new →
    let ko := resolve (fs_cwd fs) old in
    let kn := resolve (fs_cwd fs) new in
    fs_tree fs !! ko = Some (File data) → fs_tree fs !! kn ≠ Some Folder →
    fs_tree fs !! removelast kn = Some Folder →
    is_Ok (Rename fs old new);
}.

(** ** The world of a run *)

Record world (FS : Type) : Type := World {
  w_fs : FS;            (* the file system *)
  w_out : list string;  (* the writes to standard output, in order *)
}.
Arguments World {FS} _ _.
Arguments w_fs {FS} _.
Arguments w_out {FS} _.

(** The programs of the model: they run on a world and panic with a
    [panic_value]. *)
#[export] Instance world_eq_dec {FS} `{!EqDecision FS} : EqDecision (world FS).
Proof. solve_decision. Defined.

Notation io FS := (prog (world FS) panic_value).

(** A call that reads the file system: [v, err := os.Op(...)]. *)
Definition readFS {FS A} (op : FS → A) : io FS A := gets (λ w, op (w_fs w)).

(** A call that changes the file system: [err := os.Op(...)].  It returns
    the error, if any; the file system changes only when the call
    succeeds. *)
Definition writeFS {FS} (op : FS → result error FS) : io FS (option error) :=
  Prog (λ w, match op (w_fs w) with
             | Ok fs' => Done None (World fs' (w_out w))
             | Panic err => Done (Some err) w
             end).

(** A write to standard output. *)
Definition print {FS} (s : string) : io FS () :=
  modify (λ w, World (w_fs w) (w_out w ++ [s])).

(** The file system is [fs] and the output starts with [out]: what a part
    of a run that only prints keeps. *)
Definition kept {FS} (fs : FS) (out : list string) (w : world FS) : Prop :=
  w_fs w = fs ∧ out `prefix_of` w_out w.

(** ** Path names and their components *)

Section paths.
Implicit Types (s t d n cur : string) (k cwd : path).

Lemma components_go_slash s t cur :
  components_go (s +:+ String "/" t) cur =
  components_go s cur ++ components_go t "".
Proof.
  revert cur; induction s as [|c s IH]; intros cur.
  - by rewrite string_app_nil_l.
  - rewrite string_app_cons. cbn. case_bool_decide; [|done].
    by rewrite IH, app_assoc.
Qed.

Lemma components_go_name n cur :
  string_mem "/" n = false →
  components_go n cur = if decide (cur +:+ n = "") then [] else [cur +:+ n].
Proof.
  revert cur; induction n as [|c n IH]; intros cur; cbn.
  - by rewrite string_app_nil_r.
  - intros [Hc Hn]%orb_false_elim. apply bool_decide_eq_false in Hc.
    rewrite bool_decide_eq_false_2 by done.
    by rewrite IH, string_app_assoc.
Qed.

Lemma components_name n : valid_name n → components n = [n].
Proof.
  intros (? & _ & _ & Hn). unfold components.
  rewrite components_go_name, string_app_nil_l by done. by rewrite decide_False.
Qed.

(** The path of an entry: the components of the directory and the name. *)
Lemma components_join d n :
  valid_name n → components (d </> n) = components d ++ [n].
Proof.
  intros Hn. unfold components.
  change (d </> n) with (d +:+ String "/" n).
  rewrite components_go_slash. fold (components n).
  by rewrite (components_name n Hn).
Qed.

Lemma components_go_then n s :
  valid_name n → s = "" ∨ (∃ t, s = String "/" t) →
  components_go (n +:+ s) "" = n :: components_go s "".
Proof.
  intros Hn [->|[t ->]].
  - rewrite string_app_nil_r. by apply components_name.
  - rewrite components_go_slash. fold (components n).
    rewrite (components_name n Hn). cbn. by rewrite decide_True.
Qed.

Lemma render_go_shape k : render_go k = "" ∨ ∃ t, render_go k = String "/" t.
Proof. destruct k; [by left|right]. by eexists. Qed.

Lemma components_render_go k :
  Forall valid_name k → components (render_go k) = k.
Proof.
  induction 1 as [|c k Hc Hk IH]; [done|]. cbn [render_go].
  change ("/" +:+ ?t) with (String "/" t). unfold components. cbn.
  rewrite decide_True by done. cbn.
  rewrite components_go_then by auto using render_go_shape.
  by f_equal.
Qed.

Lemma components_render k : Forall valid_name k → components (render k) = k.
Proof. destruct k; [done|]. apply components_render_go. Qed.

Lemma IsAbs_cons c s : IsAbs (String c s) = bool_decide (c = "/"%char).
Proof.
  unfold IsAbs. rewrite string_prefix_byte.
  apply bool_decide_ext. naive_solver.
Qed.

Lemma IsAbs_render k : IsAbs (render k) = true.
Proof. destruct k; [done|]. cbn [render render_go]. apply IsAbs_cons. Qed.

Lemma IsAbs_join d n : IsAbs d = true → IsAbs (d </> n) = true.
Proof. destruct d; [done|]. by rewrite string_app_cons, !IsAbs_cons. Qed.

Lemma resolve_abs cwd s : IsAbs s = true → resolve cwd s = components s.
Proof. unfold resolve. by intros ->. Qed.

Lemma resolve_join cwd d n :
  IsAbs d = true → valid_name n →
  resolve cwd (d </> n) = resolve cwd d ++ [n].
Proof.
  intros Hd Hn. by rewrite !resolve_abs, components_join by auto using IsAbs_join.
Qed.

Lemma components_go_Forall s cur :
  string_mem "/" cur = false → Forall component (components_go s cur).
Proof.
  revert cur; induction s as [|c s IH]; intros cur Hcur; cbn.
  - case_decide; [done|]. by repeat constructor.
  - case_bool_decide as Hc.
    + apply Forall_app. split; [|by apply IH].
      case_decide; [done|]. by repeat constructor.
    + apply IH. rewrite string_mem_app, Hcur. cbn.
      by rewrite bool_decide_eq_false_2 by naive_solver.
Qed.

Lemma components_Forall s : Forall component (components s).
Proof. by apply components_go_Forall. Qed.

Lemma valid_name_component n : valid_name n → component n.
Proof. by intros (?&_&_&?). Qed.

Lemma normalise_go_valid cs acc :
  Forall component cs → Forall valid_name acc →
  Forall valid_name (normalise_go cs acc).
Proof.
  intros Hcs. revert acc. induction Hcs as [|c cs [??] _ IH]; intros acc Hacc.
  - cbn. by apply Forall_reverse.
  - cbn. repeat case_decide; apply IH; [done| |].
    + destruct Hacc; [done|]. by cbn.
    + constructor; [|done]. by repeat split.
Qed.

Lemma normalise_valid cs : Forall component cs → Forall valid_name (normalise cs).
Proof. intros. by apply normalise_go_valid. Qed.

Lemma resolve_Forall cwd s :
  Forall valid_name cwd → Forall component (resolve cwd s).
Proof.
  intros Hcwd. unfold resolve. case_match; [apply components_Forall|].
  apply Forall_app. split; [|apply components_Forall].
  eapply Forall_impl; [done|]. apply valid_name_component.
Qed.

(** The working directory that [Abs] computes resolves to itself. *)
Lemma resolve_render cwd k : Forall valid_name k → resolve cwd (render k) = k.
Proof.
  intros. rewrite resolve_abs by apply IsAbs_render. by apply components_render.
Qed.

Lemma clean_join d n : clean d → valid_name n → clean (d </> n).
Proof.
  unfold clean. intros Hd Hn. rewrite components_join by done.
  apply Forall_app; auto.
Qed.

Lemma clean_render k : Forall valid_name k → clean (render k).
Proof. intros Hk. unfold clean. by rewrite components_render. Qed.
End paths.

(** ** Trees *)

Lemma tree_ok_wf (t : gmap path node) : tree_ok t ↔ tree_wf t.
Proof.
  unfold tree_ok, tree_wf, entry_ok. split; intros [Hroot Ht]; (split; [done|]).
  - intros k n nd Hnd. specialize (Ht _ _ Hnd). cbn beta in Ht.
    by rewrite last_snoc, removelast_last in Ht.
  - intros p nd Hnd. destruct p as [|n0 p0 _] using rev_ind; cbn; [congruence|].
    rewrite last_snoc, removelast_last. by eapply Ht.
Qed.

(** ** The calls of a run *)

Section world.
Context {FS : Type}.
Implicit Types (w : world FS) (s : string).

Lemma run_readFS {A} (op : FS → A) w : run (readFS op) w = Done (op (w_fs w)) w.
Proof. done. Qed.

Lemma run_writeFS (op : FS → result error FS) w :
  run (writeFS op) w =
  match op (w_fs w) with
  | Ok fs' => Done None (World fs' (w_out w))
  | Panic err => Done (Some err) w
  end.
Proof. done. Qed.

Lemma run_print s w : run (print s) w = Done () (World (w_fs w) (w_out w ++ [s])).
Proof. done. Qed.

Lemma kept_refl w : kept (w_fs w) (w_out w) w.
Proof. done. Qed.

Lemma triple_print_kept (fs : FS) out s R :
  triple (kept fs out) (print s) (λ _, kept fs out) R.
Proof. intros w [??]. split; [done|]. by apply prefix_app_r. Qed.

(** A call that changes the file system, followed by [if err != nil
    { panic(err) }]. *)
Lemma run_writeFS_panic (op : FS → result error FS) w :
  run (err ← writeFS op;
       match err with Some err => panic (PanicError err) | None => mret () end) w =
  match op (w_fs w) with
  | Ok fs' => Done () (World fs' (w_out w))
  | Panic err => Crash (PanicError err) w
  end.
Proof. rewrite run_bind, run_writeFS. by destruct (op _). Qed.
End world.

#[export] Hint Rewrite @run_readFS @run_writeFS_panic @run_print : prog.
