(* ===== verification/Tabwriter.v ===== *)
(** * The tabwriter on standard output

    [DryRun] ([src/tools/helpers/sort.go:221]) writes its table through a
    [tabwriter.Writer] on [os.Stdout].  The writer is a library that the
    sources only call, and it is modelled by what these calls can observe: a
    write hands a text to the writer, which may send something to standard
    output and may return the error of that; [Flush] sends what is left.
    What the writer sends, and when, is left to the record [TabWriter];
    [buffered] is the writer that holds the text until [Flush] and whose
    standard output takes every write, [limited] one whose standard output
    fails after a number of writes.  [feed] is the reference for a sequence
    of writes of which some are checked by the caller. *)

From S2P Require Import Prelude GoRuntime Os.

(** ** The writer *)

(** A [*tabwriter.Writer]: its state, the state after [NewWriter], and the
    calls [Write] and [Flush], each of which returns the state after the
    call, what has reached standard output, and the error. *)
Record TabWriter : Type := mkTabWriter {
  tw_state : Type;
  tw_new : tw_state;
  tw_write : tw_state → string → tw_state * list string * option error;
  tw_flush : tw_state → tw_state * list string * option error;
}.

(** The layout of the cells is [format]; nothing reaches standard output
    before [Flush], and standard output takes what it is sent. *)
Definition buffered (format : list string → string) : TabWriter := {|
  tw_state := list string;
  tw_new := [];
  tw_write cells text := (cells ++ [text], [], None);
  tw_flush cells := ([], [format cells], None);
|}.

(** A writer that sends every text on at once, on a standard output that
    takes [n] writes and then fails with [err]. *)
Definition limited (n : nat) (err : error) : TabWriter := {|
  tw_state := nat;
  tw_new := n;
  tw_write writes text :=
    match writes with
    | O => (O, [], Some err)
    | S writes => (writes, [text], None)
    end;
  tw_flush writes := (writes, [], None);
|}.

(** No write of the writer returns an error. *)
Definition writable (tw : TabWriter) : Prop :=
  ∀ writer text, (tw_write tw writer text).2 = None.

Section with_fs.
Context {FS : Type}.

(** A call of the writer in a run: what the writer sends to standard output
    is appended to the output of the world. *)
Definition call (tw : TabWriter)
    (op : tw_state tw → tw_state tw * list string * option error)
    (writer : tw_state tw) : io FS (tw_state tw * option error) :=
  Prog (λ w, let '(writer', out, err) := op writer in
             Done (writer', err) (World (w_fs w) (w_out w ++ out))).

(** [fmt.Fprintf(writer, ...)] and [fmt.Fprintln(writer, ...)], with the
    text that the format and the arguments make. *)
Definition Fprint (tw : TabWriter) (writer : tw_state tw) (text : string) :
    io FS (tw_state tw * option error) :=
  call tw (λ writer, tw_write tw writer text) writer.

(** [writer.Flush()]. *)
Definition Flush (tw : TabWriter) (writer : tw_state tw) :
    io FS (tw_state tw * option error) :=
  call tw (tw_flush tw) writer.
End with_fs.

(** ** Reference definition *)

(** The writes of a list of texts, in order.  A text comes with whether the
    caller checks the error of its write: the first checked write that fails
    ends the sequence with its error, the error of another write is
    dropped.  The result is the state of the writer, what has reached
    standard output, and the error that ended the sequence. *)
Fixpoint feed (tw : TabWriter) (writer : tw_state tw)
    (lines : list (bool * string)) : tw_state tw * list string * option error :=
  match lines with
  | [] => (writer, [], None)
  | (checked, text) :: lines =>
      let '(writer, out, err) := tw_write tw writer text in
      match (if checked : bool then err else None) with
      | Some err => (writer, out, Some err)
      | None =>
          let '(writer, outs, err) := feed tw writer lines in
          (writer, out ++ outs, err)
      end
  end.

(** ** Lemmas *)

Section lemmas.
Context {FS : Type}.
Implicit Types (tw : TabWriter) (w : world FS) (text : string).
Implicit Types (lines : list (bool * string)).

Lemma run_Fprint tw writer text w :
  run (Fprint tw writer text) w =
  Done ((tw_write tw writer text).1.1, (tw_write tw writer text).2)
       (World (w_fs w) (w_out w ++ (tw_write tw writer text).1.2)).
Proof. unfold Fprint, call. cbn. by destruct (tw_write _ _ _) as [[??]?]. Qed.

Lemma run_Flush tw writer w :
  run (Flush tw writer) w =
  Done ((tw_flush tw writer).1.1, (tw_flush tw writer).2)
       (World (w_fs w) (w_out w ++ (tw_flush tw writer).1.2)).
Proof. unfold Flush, call. cbn. by destruct (tw_flush _ _) as [[??]?]. Qed.

(** The calls of the writer change nothing but the output, to which they
    add. *)
Lemma triple_call_kept tw op writer (fs : FS) (out : list string) R :
  triple (kept fs out) (call tw op writer) (λ _, kept fs out) R.
Proof.
  intros w [Hfs Hout]. unfold call. cbn. destruct (op writer) as [[??]?].
  split; [done|]. by apply prefix_app_r.
Qed.

Lemma feed_cons tw writer checked text lines :
  feed tw writer ((checked, text) :: lines) =
  let r := tw_write tw writer text in
  match (if checked then r.2 else None) with
  | Some err => (r.1.1, r.1.2, Some err)
  | None => let r' := feed tw r.1.1 lines in (r'.1.1, r.1.2 ++ r'.1.2, r'.2)
  end.
Proof.
  cbn [feed]. destruct (tw_write _ _ _) as [[writer' out] err]. cbn.
  destruct (if checked then err else None); [done|].
  by destruct (feed _ _ _) as [[??]?].
Qed.

Lemma feed_app tw writer lines1 lines2 :
  feed tw writer (lines1 ++ lines2) =
  let r := feed tw writer lines1 in
  match r.2 with
  | Some err => r
  | None => let r' := feed tw r.1.1 lines2 in (r'.1.1, r.1.2 ++ r'.1.2, r'.2)
  end.
Proof.
  revert writer; induction lines1 as [|[checked text] lines1 IH]; intros writer.
  - cbn. by destruct (feed _ _ _) as [[??]?].
  - cbn [app]. rewrite !feed_cons. cbn zeta.
    destruct (if checked then _ else None); [done|]. rewrite IH. cbn zeta.
    destruct (feed tw _ lines1) as [[writer1 out1] [err|]]; cbn; [done|].
    by rewrite app_assoc.
Qed.

(** The buffered writer keeps the texts and sends nothing. *)
Lemma feed_buffered format cells lines :
  feed (buffered format) cells lines = (cells ++ lines.*2, [], None).
Proof.
  revert cells; induction lines as [|[checked text] lines IH]; intros cells.
  - by rewrite app_nil_r.
  - rewrite feed_cons. cbn. destruct checked; rewrite IH; cbn;
      by rewrite <-app_assoc.
Qed.

Lemma buffered_writable format : writable (buffered format).
Proof. done. Qed.

(** On a writer whose writes succeed, every text is written. *)
Lemma feed_writable tw writer lines :
  writable tw → (feed tw writer lines).2 = None.
Proof.
  intros Htw. revert writer; induction lines as [|[checked text] lines IH];
    intros writer; [done|].
  rewrite feed_cons. cbn zeta. rewrite Htw. by destruct checked; cbn.
Qed.
End lemmas.

#[export] Hint Rewrite @run_Fprint @run_Flush : prog.
