(* ===== verification/Classify.v ===== *)
(** * The extension classifier

    [MustGetExtension] ([src/tools/helpers/sort.go:308]), the constants of
    the directory names and of the extensions ([sort.go:43-85]) and
    [classify], the [switch] by which [SortFiles] ([sort.go:141-158]) chooses
    the field of [NewDirsMap] that receives a file. *)

From S2P Require Import Prelude GoRuntime.

#[local] Open Scope Z_scope.

(** ** Types and constants *)

(** [type Directory string], [type FileExtension string]. *)
Definition Directory : Type := string.
Definition FileExtension : Type := string.

Definition IMAGES : string := "images".
Definition DOCS : string := "documents".
Definition PDFS : string := "pdf".
Definition MEDIA : string := "media".
Definition ZIPS : string := "zips".
Definition PROGRAMMING : string := "programming".
Definition OTHER : string := "other".

Definition JPG : FileExtension := ".jpg".
Definition PNG : FileExtension := ".png".

Definition PDF : FileExtension := ".pdf".
Definition DOC : FileExtension := ".doc".
Definition DOCX : FileExtension := ".docx".
Definition XLS : FileExtension := ".xls".
Definition XLSX : FileExtension := ".xlsx".
Definition PPT : FileExtension := ".ppt".
Definition PPTX : FileExtension := ".pptx".
Definition TXT : FileExtension := ".txt".

Definition ZIP : FileExtension := ".zip".

Definition MP3 : FileExtension := ".mp3".
Definition MP4 : FileExtension := ".mp4".
Definition MPG : FileExtension := ".mpg".

Definition SQL : FileExtension := ".sql".
Definition DLL : FileExtension := ".dll".
Definition EXE : FileExtension := ".exe".
Definition JS : FileExtension := ".js".
Definition TS : FileExtension := ".ts".
Definition CSS : FileExtension := ".css".
Definition HTML : FileExtension := ".html".
Definition TSX : FileExtension := ".tsx".
Definition JSX : FileExtension := ".jsx".

(** The fields of [NewDirsMap], in the order of their declaration: the
    categories a file can be sorted into. *)
Inductive Category : Set :=
| images | documents | pdf | media | zips | programming | other.

#[export] Instance Category_eq_dec : EqDecision Category.
Proof. solve_decision. Defined.

(** ** Operations *)

(** [return FileExtension("." + filename[strings.LastIndex(filename, ".")+1:])] *)
Definition MustGetExtension (filename : string) :
    result panic_value FileExtension :=
  suffix ← slice_from filename (int_add (LastIndex filename ".") 1);
  mret ("." +:+ suffix).

(** An expression [switch]: the first clause that lists a value equal to the
    tag is taken, the [default] clause if there is none. *)
Fixpoint switch {A B} `{EqDecision A} (tag : A) (clauses : list (list A * B))
    (default : B) : B :=
  match clauses with
  | [] => default
  | (values, body) :: rest =>
      if bool_decide (tag ∈ values) then body else switch tag rest default
  end.

(** The clauses of the [switch] of [SortFiles], each with the field its body
    appends to. *)
Definition classify (ext : FileExtension) : Category :=
  switch ext
    [ ([JPG; PNG], images);
      ([DOC; DOCX; XLS; XLSX; PPT; PPTX; TXT; SQL], documents);
      ([ZIP], zips);
      ([MP3; MP4; MPG], media);
      ([PDF], pdf);
      ([DLL; EXE; JS; TS; CSS; HTML; TSX; JSX], programming) ]
    other.

(** The category of a file name: the tag of the [switch] and its choice. *)
Definition categoryOf (filename : string) : result panic_value Category :=
  classify <$> MustGetExtension filename.

(** ** Reference definitions *)

(** The text after the last occurrence of the byte [c], the whole string if
    [c] does not occur. *)
Fixpoint after_last (c : ascii) (s : string) : string :=
  match s with
  | "" => ""
  | String c' s' =>
      if string_mem c s' then after_last c s'
      else if bool_decide (c = c') then s' else String c' s'
  end.

(** The table of extensions of each category (section 4.1 of the
    specification); every other extension belongs to [other]. *)
Definition extensions (c : Category) : list FileExtension :=
  match c with
  | images => [".jpg"; ".png"]
  | documents => [".doc"; ".docx"; ".xls"; ".xlsx"; ".ppt"; ".pptx"; ".txt"; ".sql"]
  | pdf => [".pdf"]
  | zips => [".zip"]
  | media => [".mp3"; ".mp4"; ".mpg"]
  | programming => [".dll"; ".exe"; ".js"; ".ts"; ".css"; ".html"; ".tsx"; ".jsx"]
  | other => []
  end.

Definition categories : list Category :=
  [images; documents; pdf; media; zips; programming; other].

Definition known_extensions : list FileExtension :=
  mjoin (extensions <$> categories).

(** ** The reference [after_last] *)

Section after_last.
Implicit Types (s pre suf : string) (c : ascii).

Lemma after_last_absent c s : string_mem c s = false → after_last c s = s.
Proof.
  induction s as [|c' s IH]; [done|]. cbn.
  intros [Hc Hs]%orb_false_elim. by rewrite Hs, Hc.
Qed.

Lemma after_last_split c pre suf :
  string_mem c suf = false → after_last c (pre +:+ String c suf) = suf.
Proof.
  intros Hsuf. induction pre as [|c' pre IH].
  - rewrite string_app_nil_l. cbn. by rewrite Hsuf, bool_decide_eq_true_2.
  - rewrite string_app_cons. cbn [after_last].
    by rewrite IH, string_mem_app; cbn; rewrite bool_decide_eq_true_2, orb_true_r.
Qed.

Lemma after_last_no_mem c s : string_mem c (after_last c s) = false.
Proof.
  destruct (string_mem c s) eqn:Hs.
  - apply string_mem_split_last in Hs as (pre & suf & -> & ?).
    by rewrite after_last_split.
  - by rewrite after_last_absent.
Qed.
End after_last.

(** ** [switch] *)

Section switch.
Context {A B : Type} `{EqDecision A}.
Implicit Types (tag : A) (clauses : list (list A * B)) (default : B).

Lemma switch_default tag clauses default :
  (∀ cl, cl ∈ clauses → tag ∉ cl.1) → switch tag clauses default = default.
Proof.
  induction clauses as [|[values body] rest IH]; intros Hcl; [done|].
  cbn. rewrite bool_decide_eq_false_2 by (apply (Hcl (values, body)); left).
  apply IH. intros; apply Hcl. by right.
Qed.

Lemma switch_first tag values body rest default :
  tag ∈ values → switch tag ((values, body) :: rest) default = body.
Proof. intros. cbn. by rewrite bool_decide_eq_true_2. Qed.

Lemma switch_next tag values body rest default :
  tag ∉ values →
  switch tag ((values, body) :: rest) default = switch tag rest default.
Proof. intros. cbn. by rewrite bool_decide_eq_false_2. Qed.
End switch.

(** ** [MustGetExtension] *)

Section extension.
Implicit Types (f pre suf : string).

Lemma MustGetExtension_split pre suf :
  go_string (pre +:+ "." +:+ suf) → string_mem "." suf = false →
  MustGetExtension (pre +:+ "." +:+ suf) = Ok ("." +:+ suf).
Proof.
  intros Hgo Hsuf. unfold MustGetExtension.
  change ("." +:+ suf) with (String "." suf) in *.
  rewrite LastIndex_byte_last by done.
  unfold go_string in Hgo. rewrite len_app, len_cons in Hgo.
  pose proof (len_nonneg pre). pose proof (len_nonneg suf).
  rewrite int_add_id by (unfold is_int, int_min, int_max in *; lia).
  replace (len pre + 1) with (len (pre +:+ ".")) by by rewrite len_app.
  change (String "." suf) with ("." +:+ suf).
  by rewrite <-string_app_assoc, slice_from_app.
Qed.

Lemma MustGetExtension_dotless f :
  string_mem "." f = false → MustGetExtension f = Ok ("." +:+ f).
Proof.
  intros Hf. unfold MustGetExtension. rewrite LastIndex_byte_absent by done.
  unfold int_add. rewrite wrap_int_id by done.
  rewrite slice_from_Ok by (pose proof (len_nonneg f); lia).
  by rewrite string_drop_0.
Qed.

Lemma MustGetExtension_after_last f :
  go_string f → MustGetExtension f = Ok ("." +:+ after_last "." f).
Proof.
  intros Hgo. destruct (string_mem "." f) eqn:Hf.
  - apply string_mem_split_last in Hf as (pre & suf & -> & Hsuf).
    rewrite after_last_split by done. by apply MustGetExtension_split.
  - rewrite after_last_absent by done. by apply MustGetExtension_dotless.
Qed.

(** C12: on every string of a Go program [MustGetExtension] returns without
    a panic.  The result is a dot followed by a text without a dot, which is
    the whole name if the name has no dot and otherwise what follows the
    last dot of the name. *)
Theorem MustGetExtension_spec f :
  go_string f →
  ∃ suf, MustGetExtension f = Ok ("." +:+ suf) ∧ string_mem "." suf = false ∧
    (if string_mem "." f then ∃ pre, f = pre +:+ "." +:+ suf else f = suf).
Proof.
  intros Hgo. exists (after_last "." f).
  split_and!; [by apply MustGetExtension_after_last|apply after_last_no_mem|].
  destruct (string_mem "." f) eqn:Hf; [|by rewrite after_last_absent].
  apply string_mem_split_last in Hf as (pre & suf & -> & Hsuf).
  exists pre. by rewrite after_last_split.
Qed.

(** Without the bound on the length of the string, the index computation
    of [MustGetExtension] can wrap around; with it, the sum [LastIndex + 1]
    is the mathematical one and lies within the string, which is why the
    slice expression cannot panic. *)
Lemma MustGetExtension_index_in_bounds f :
  go_string f →
  int_add (LastIndex f ".") 1 = LastIndex f "." + 1 ∧
  0 ≤ int_add (LastIndex f ".") 1 ≤ len f.
Proof.
  intros Hgo. pose proof (LastIndex_range f "."). pose proof (len_nonneg f).
  unfold go_string in Hgo.
  destruct (LastIndex_byte_lt "." f) as [?| ->]; [|by vm_compute].
  rewrite int_add_id by (unfold is_int, int_min, int_max in *; lia). lia.
Qed.
End extension.

(** ** [classify] and the table of extensions *)

Section classify.
Implicit Types (ext : FileExtension) (c : Category) (f pre suf : string).

Lemma classify_in ext c : ext ∈ extensions c → classify ext = c.
Proof.
  destruct c; cbn [extensions]; rewrite ?elem_of_cons, elem_of_nil;
    intros H; destruct_or!; by subst.
Qed.

Lemma classify_unknown ext : ext ∉ known_extensions → classify ext = other.
Proof.
  intros Hext. apply switch_default. intros [values body] Hcl. cbn.
  intros Hin. apply Hext. clear Hext.
  apply list_elem_of_In in Hcl. cbn in Hcl.
  destruct_or!; simplify_eq; try done;
    apply list_elem_of_In in Hin; cbn in Hin; apply list_elem_of_In; cbn;
    destruct_or!; simplify_eq; tauto.
Qed.

Lemma known_extensions_in ext :
  ext ∈ known_extensions → ∃ c, c ≠ other ∧ ext ∈ extensions c.
Proof.
  unfold known_extensions.
  intros (l & Hext & (c & -> & _)%list_elem_of_fmap)%list_elem_of_join.
  exists c. split; [|done]. intros ->. by apply elem_of_nil in Hext.
Qed.

Lemma classify_Other ext : classify ext = other ↔ ext ∉ known_extensions.
Proof.
  split; [|apply classify_unknown].
  intros Hc (c & Hne & Hin%classify_in)%known_extensions_in. congruence.
Qed.

Lemma categoryOf_after_last f :
  go_string f → categoryOf f = Ok (classify ("." +:+ after_last "." f)).
Proof. intros. unfold categoryOf. by rewrite MustGetExtension_after_last. Qed.

(** C11: [classify] implements the table of extensions: an extension is
    classified into a category other than [other] exactly when the table
    lists it for that category, and into [other] exactly when the table does
    not list it at all. *)
Theorem classify_table ext c :
  classify ext = c ↔
  if decide (c = other) then ext ∉ known_extensions else ext ∈ extensions c.
Proof.
  case_decide as Hc; [subst; apply classify_Other|].
  split; [intros <-|apply classify_in].
  destruct (decide (ext ∈ known_extensions)) as [Hin|Hout%classify_Other];
    [|done].
  destruct (known_extensions_in _ Hin) as (c & _ & Hext).
  by rewrite (classify_in _ _ Hext).
Qed.

(** Only the last extension of a name counts.  The category of a file
    name with a dot is the one that [classify] gives to the text from its
    last dot on, so that two names with the same text after the last dot
    are sorted into the same category, whatever comes before that dot,
    other dots included. *)
Lemma categoryOf_suffix pre pre' suf :
  go_string (pre +:+ "." +:+ suf) → go_string (pre' +:+ "." +:+ suf) →
  string_mem "." suf = false →
  categoryOf (pre +:+ "." +:+ suf) = Ok (classify ("." +:+ suf)) ∧
  categoryOf (pre' +:+ "." +:+ suf) = categoryOf (pre +:+ "." +:+ suf).
Proof.
  intros. unfold categoryOf. by rewrite !MustGetExtension_split.
Qed.

(** C36: a name without a dot is classified by the whole name as if it were
    an extension: [MustGetExtension] finds no dot, [LastIndex] is [-1] and
    the slice starts at 0.  Such a name is sorted into [other] only if the
    name with a dot in front is not a known extension; a file named [jpg]
    is an image. *)
Theorem categoryOf_no_dot f :
  string_mem "." f = false →
  categoryOf f = Ok (classify ("." +:+ f)) ∧
  (categoryOf f = Ok other ↔ "." +:+ f ∉ known_extensions).
Proof.
  intros Hf. unfold categoryOf. rewrite MustGetExtension_dotless by done.
  split; [done|]. rewrite <-classify_Other. cbn.
  split; [by intros [= ->]|by intros ->].
Qed.

(** The table is matched as it is written, in lower case: an extension
    with a capital letter is not in it. *)
Lemma classify_upper ext :
  Exists (λ ch, Ascii.leb "A" ch && Ascii.leb ch "Z")
    (String.list_ascii_of_string ext) →
  classify ext = other.
Proof.
  intros Hup. apply classify_unknown. intros Hin.
  assert (Forall (λ ext, ¬ Exists (λ ch, Ascii.leb "A" ch && Ascii.leb ch "Z")
            (String.list_ascii_of_string ext)) known_extensions) as Hlower
    by by_compute.
  by eapply Forall_forall in Hlower.
Qed.

(** The names that the specification gives as examples, and three names
    without a dot that are not sorted into [other]. *)
Example categoryOf_examples :
  categoryOf "readme.txt" = Ok documents ∧ categoryOf "photo.png" = Ok images ∧
  categoryOf "video.mp4" = Ok media ∧ categoryOf "app.js" = Ok programming ∧
  categoryOf "data.pdf" = Ok pdf ∧ categoryOf "bundle.zip" = Ok zips ∧
  categoryOf "archive.tar.gz" = Ok other ∧ categoryOf "noext" = Ok other ∧
  categoryOf "photo.JPG" = Ok other ∧ categoryOf "trailing." = Ok other ∧
  categoryOf "jpg" = Ok images ∧ categoryOf "sql" = Ok documents ∧
  categoryOf "exe" = Ok programming.
Proof. repeat split; reflexivity. Qed.
End classify.

(** ** Witnesses *)

Lemma MustGetExtension_spec_witness :
  ∃ suf, MustGetExtension "a.b.c" = Ok ("." +:+ suf) ∧
    string_mem "." suf = false ∧
    (if string_mem "." "a.b.c" then ∃ pre, "a.b.c" = pre +:+ "." +:+ suf
     else "a.b.c" = suf).
Proof. apply MustGetExtension_spec. by vm_compute. Defined.

Lemma categoryOf_no_dot_witness :
  categoryOf "png" = Ok (classify ("." +:+ "png")) ∧
  (categoryOf "png" = Ok other ↔ "." +:+ "png" ∉ known_extensions).
Proof. apply categoryOf_no_dot. reflexivity. Defined.
