(* ===== verification/Handler.v ===== *)
(** * The file handler

    The records [DirInfo], [NewDirsMap] and [FileHandler]
    ([src/tools/helpers/sort.go:16-36]) and the methods that build and fill
    a handler: [InitializeFileHandler] ([sort.go:87]), [FilterDirectories]
    ([sort.go:166]), [SortFiles] ([sort.go:138]), with the helpers
    [mustGetNewPath] ([sort.go:312]) and [isExcluded] ([sort.go:332]).  A
    method with a pointer receiver that returns the receiver is a function
    from the handler to the handler after the call. *)

From S2P Require Import Prelude GoRuntime Os Classify.

(** ** Data *)

Record DirInfo : Set := mkDirInfo {
  Path : string;
  Files : list FileInfo;
}.

Record NewDirsMap : Set := mkNewDirsMap {
  Images : DirInfo;
  Documents : DirInfo;
  Pdf : DirInfo;
  Media : DirInfo;
  Zips : DirInfo;
  Programming : DirInfo;
  Other : DirInfo;
}.

Record FileHandler : Set := mkFileHandler {
  DirectoryMap : NewDirsMap;
  RawFiles : list FileInfo;
  Excluded : list string;
  WorkingDir : string;
}.

#[export] Instance DirInfo_eq_dec : EqDecision DirInfo.
Proof. solve_decision. Defined.
#[export] Instance NewDirsMap_eq_dec : EqDecision NewDirsMap.
Proof. solve_decision. Defined.
#[export] Instance FileHandler_eq_dec : EqDecision FileHandler.
Proof. solve_decision. Defined.

(** ** Access to the fields of [NewDirsMap] *)

(** The field of a category. *)
Definition field (c : Category) (m : NewDirsMap) : DirInfo :=
  match c with
  | images => Images m
  | documents => Documents m
  | pdf => Pdf m
  | media => Media m
  | zips => Zips m
  | programming => Programming m
  | other => Other m
  end.

(** Assignment to the field of a category. *)
Definition set_field (c : Category) (d : DirInfo) (m : NewDirsMap) :
    NewDirsMap :=
  match c with
  | images => mkNewDirsMap d (Documents m) (Pdf m) (Media m) (Zips m) (Programming m) (Other m)
  | documents => mkNewDirsMap (Images m) d (Pdf m) (Media m) (Zips m) (Programming m) (Other m)
  | pdf => mkNewDirsMap (Images m) (Documents m) d (Media m) (Zips m) (Programming m) (Other m)
  | media => mkNewDirsMap (Images m) (Documents m) (Pdf m) d (Zips m) (Programming m) (Other m)
  | zips => mkNewDirsMap (Images m) (Documents m) (Pdf m) (Media m) d (Programming m) (Other m)
  | programming => mkNewDirsMap (Images m) (Documents m) (Pdf m) (Media m) (Zips m) d (Other m)
  | other => mkNewDirsMap (Images m) (Documents m) (Pdf m) (Media m) (Zips m) (Programming m) d
  end.

(** [v.Field(i)] for [i] from 0 to [v.NumField() - 1]: the fields in the
    order of their declaration. *)
Definition fields (m : NewDirsMap) : list DirInfo :=
  [Images m; Documents m; Pdf m; Media m; Zips m; Programming m; Other m].

(** [m.F.Files = append(m.F.Files, file)] for the field [F] of [c]. *)
Definition appendFile (c : Category) (file : FileInfo) (m : NewDirsMap) :
    NewDirsMap :=
  set_field c (mkDirInfo (Path (field c m)) (Files (field c m) ++ [file])) m.

Definition set_DirectoryMap (m : NewDirsMap) (fh : FileHandler) : FileHandler :=
  mkFileHandler m (RawFiles fh) (Excluded fh) (WorkingDir fh).
Definition set_RawFiles (files : list FileInfo) (fh : FileHandler) : FileHandler :=
  mkFileHandler (DirectoryMap fh) files (Excluded fh) (WorkingDir fh).
Definition set_Excluded (ex : list string) (fh : FileHandler) : FileHandler :=
  mkFileHandler (DirectoryMap fh) (RawFiles fh) ex (WorkingDir fh).

(** The name of the directory of a category. *)
Definition dirName (c : Category) : string :=
  match c with
  | images => IMAGES
  | documents => DOCS
  | pdf => PDFS
  | media => MEDIA
  | zips => ZIPS
  | programming => PROGRAMMING
  | other => OTHER
  end.

(** ** Operations *)

(** [return pwd + "/" + newDirName] *)
Definition mustGetNewPath (pwd newDirName : string) : string :=
  pwd +:+ "/" +:+ newDirName.

Fixpoint isExcluded (file : FileInfo) (excluded : list string) : bool :=
  match excluded with
  | [] => false
  | excludedFile :: rest =>
      if bool_decide (Name file = excludedFile) then true
      else isExcluded file rest
  end.

(** The body of the loop of [SortFiles]. *)
Definition sortFile (fileHandler : FileHandler) (file : FileInfo) :
    result panic_value FileHandler :=
  ext ← MustGetExtension (Name file);
  mret (set_DirectoryMap
          (appendFile (classify ext) file (DirectoryMap fileHandler))
          fileHandler).

Definition SortFiles (fileHandler : FileHandler) :
    result panic_value FileHandler :=
  let files := RawFiles fileHandler in
  foldM sortFile fileHandler files.

Section with_fs.
Context {FS : Type} `{!FileSystem FS}.

Definition InitializeFileHandler (pwd : string) (excluded : list string) :
    io FS FileHandler :=
  r ← readFS (λ fs, Abs fs pwd);
  match r with
  | Panic err => panic (PanicError err)
  | Ok absolutePath =>
      let newDirsMap := {|
        Images := {| Path := mustGetNewPath absolutePath IMAGES; Files := [] |};
        Documents := {| Path := mustGetNewPath absolutePath DOCS; Files := [] |};
        Pdf := {| Path := mustGetNewPath absolutePath PDFS; Files := [] |};
        Media := {| Path := mustGetNewPath absolutePath MEDIA; Files := [] |};
        Zips := {| Path := mustGetNewPath absolutePath ZIPS; Files := [] |};
        Programming :=
          {| Path := mustGetNewPath absolutePath PROGRAMMING; Files := [] |};
        Other := {| Path := mustGetNewPath absolutePath OTHER; Files := [] |};
      |} in
      let fileHandler := {|
        DirectoryMap := newDirsMap;
        WorkingDir := absolutePath;
        RawFiles := [];
        Excluded := [];
      |} in
      mret (foldl (λ fh file, set_Excluded (Excluded fh ++ [file]) fh)
              fileHandler excluded)
  end.

(** The body of the loop of [FilterDirectories]. *)
Definition filterEntry (dir : string) (files : list FileInfo) (obj : DirEntry) :
    io FS (list FileInfo) :=
  if negb (EntryIsDir obj) then
    r ← readFS (λ fs, Info fs dir obj);
    match r with
    | Panic err => panic (PanicError err)
    | Ok info => mret (files ++ [info])
    end
  else mret files.

Definition FilterDirectories (fileHandler : FileHandler) : io FS FileHandler :=
  r ← readFS (λ fs, ReadDir fs (WorkingDir fileHandler));
  match r with
  | Panic err => panic (PanicError err)
  | Ok filesAndFolders =>
      files ← foldP (filterEntry (WorkingDir fileHandler)) [] filesAndFolders;
      mret (set_RawFiles files fileHandler)
  end.
End with_fs.

(** ** Reference definitions *)

(** The files of a list that [categoryOf] sorts into the category [c], in
    the order of the list. *)
Definition filesOf (c : Category) (files : list FileInfo) : list FileInfo :=
  filter (λ file, categoryOf (Name file) = Ok c) files.

(** The handler that [InitializeFileHandler] builds for the absolute path
    [wd] of the working directory. *)
Definition initialHandler (wd : string) (excluded : list string) : FileHandler :=
  let dir c := mkDirInfo (wd </> dirName c) [] in
  mkFileHandler
    (mkNewDirsMap (dir images) (dir documents) (dir pdf) (dir media) (dir zips)
       (dir programming) (dir other))
    [] excluded wd.

(** The [FileInfo]s of the entries of [es] that are not directories, after
    those of [files]: the pure content of the loop of [FilterDirectories]. *)
Fixpoint collectFiles {FS} `{!FileSystem FS} (fs : FS) (dir : string)
    (files : list FileInfo) (es : list DirEntry) : result error (list FileInfo) :=
  match es with
  | [] => Ok files
  | obj :: es' =>
      if EntryIsDir obj then collectFiles fs dir files es'
      else info ← Info fs dir obj; collectFiles fs dir (files ++ [info]) es'
  end.

(** What does not change when files are added to the categories: the other
    fields of the handler and the path of every category. *)
Definition same_plan (fh fh' : FileHandler) : Prop :=
  RawFiles fh' = RawFiles fh ∧ Excluded fh' = Excluded fh ∧
  WorkingDir fh' = WorkingDir fh ∧
  ∀ c, Path (field c (DirectoryMap fh')) = Path (field c (DirectoryMap fh)).

(** ** The fields of [NewDirsMap] *)

Section fields.
Implicit Types (c : Category) (m : NewDirsMap) (d : DirInfo) (file : FileInfo).

Lemma field_set_field c c' d m :
  field c' (set_field c d m) = if decide (c = c') then d else field c' m.
Proof. by destruct c, c'. Qed.

Lemma fields_categories m : fields m = (λ c, field c m) <$> categories.
Proof. done. Qed.

Lemma NoDup_categories : NoDup categories.
Proof. by apply (bool_decide_unpack _). Qed.

Lemma elem_of_categories c : c ∈ categories.
Proof. destruct c; by apply (bool_decide_unpack _). Qed.

Lemma Files_appendFile c c' file m :
  Files (field c' (appendFile c file m)) =
  Files (field c' m) ++ if decide (c = c') then [file] else [].
Proof.
  unfold appendFile. rewrite field_set_field.
  case_decide; subst; [done|by rewrite app_nil_r].
Qed.

Lemma Path_appendFile c c' file m :
  Path (field c' (appendFile c file m)) = Path (field c' m).
Proof. unfold appendFile. rewrite field_set_field. by case_decide; subst. Qed.

Lemma elem_of_fields d m : d ∈ fields m ↔ ∃ c, d = field c m.
Proof.
  rewrite fields_categories, list_elem_of_fmap.
  split; [intros (c & -> & ?); by exists c|].
  intros (c & ->). exists c. auto using elem_of_categories.
Qed.

(** A property of all files of all categories. *)
Lemma Forall_files (P : FileInfo → Prop) m :
  Forall P (mjoin (Files <$> fields m)) ↔
  ∀ c file, file ∈ Files (field c m) → P file.
Proof.
  rewrite Forall_forall. setoid_rewrite list_elem_of_join. split.
  - intros HP c file Hfile. apply HP. exists (Files (field c m)).
    split; [done|]. apply list_elem_of_fmap. eexists. split; [done|].
    apply elem_of_fields. eauto.
  - intros HP file (l & ? & (d & -> & (c & ->)%elem_of_fields)%list_elem_of_fmap).
    by eapply HP.
Qed.
End fields.

(** ** [isExcluded] *)

Lemma isExcluded_true file excluded :
  isExcluded file excluded = true ↔ Name file ∈ excluded.
Proof.
  induction excluded as [|x excluded IH]; cbn.
  - split; [done|]. by intros ?%elem_of_nil.
  - rewrite elem_of_cons, <-IH. case_bool_decide; [by split; auto|].
    split; [by right|by intros [?|?]].
Qed.

Lemma isExcluded_false file excluded :
  isExcluded file excluded = false ↔ Name file ∉ excluded.
Proof. rewrite <-isExcluded_true. by destruct (isExcluded _ _). Qed.

(** C28: [isExcluded] decides whether the base name of the file is, byte for
    byte, one of the strings of the exclusion list. *)
Theorem isExcluded_spec file excluded :
  isExcluded file excluded = bool_decide (Name file ∈ excluded).
Proof.
  case_bool_decide as H; [by apply isExcluded_true|by apply isExcluded_false].
Qed.

(** ** [SortFiles] *)

Section sort.
Implicit Types (c : Category) (fh : FileHandler) (file : FileInfo).
Implicit Types (files : list FileInfo).

Lemma same_plan_refl fh : same_plan fh fh.
Proof. by repeat split. Qed.

Lemma same_plan_trans fh1 fh2 fh3 :
  same_plan fh1 fh2 → same_plan fh2 fh3 → same_plan fh1 fh3.
Proof.
  intros (?&?&?&H12) (?&?&?&H23). split_and!; [congruence..|].
  intros c. by rewrite H23.
Qed.

Lemma sortFile_Ok fh file fh' :
  sortFile fh file = Ok fh' ↔
  ∃ c, categoryOf (Name file) = Ok c ∧
       fh' = set_DirectoryMap (appendFile c file (DirectoryMap fh)) fh.
Proof.
  unfold sortFile, categoryOf.
  destruct (MustGetExtension (Name file)) as [ext|e]; cbn.
  - split; [intros [= <-]; eauto|by intros (c & [= <-] & ->)].
  - split; [done|by intros (c & ? & _)].
Qed.

Lemma sortFile_same_plan fh file fh' :
  sortFile fh file = Ok fh' → same_plan fh fh'.
Proof.
  intros (c & _ & ->)%sortFile_Ok. repeat split. intros c'. cbn.
  apply Path_appendFile.
Qed.

Lemma sortFile_Files fh file fh' c :
  sortFile fh file = Ok fh' →
  Files (field c (DirectoryMap fh')) =
  Files (field c (DirectoryMap fh)) ++ filesOf c [file].
Proof.
  intros (c' & Hc' & ->)%sortFile_Ok.
  cbn [DirectoryMap set_DirectoryMap]. rewrite Files_appendFile.
  unfold filesOf. rewrite filter_cons, filter_nil, Hc'.
  repeat case_decide; congruence.
Qed.

(** The loop of [SortFiles] on any list of files and any handler. *)
Lemma foldM_sortFile_Ok files fh fh' :
  foldM sortFile fh files = Ok fh' →
  same_plan fh fh' ∧
  Forall (λ file, is_Ok (categoryOf (Name file))) files ∧
  ∀ c, Files (field c (DirectoryMap fh')) =
       Files (field c (DirectoryMap fh)) ++ filesOf c files.
Proof.
  revert fh; induction files as [|file files IH]; intros fh.
  - intros [= <-]. split_and!; [apply same_plan_refl|done|].
    intros c. by rewrite app_nil_r.
  - cbn. intros (fh1 & H1 & Hrest)%result_bind_Ok.
    destruct (IH _ Hrest) as (Hplan & Hok & Hfiles).
    split_and!.
    + eauto using same_plan_trans, sortFile_same_plan.
    + constructor; [|done]. apply sortFile_Ok in H1 as (c & -> & _).
      apply is_Ok_Ok.
    + intros c. rewrite Hfiles, (sortFile_Files _ _ _ _ H1), <-app_assoc.
      unfold filesOf. by rewrite <-filter_app.
Qed.

Lemma foldM_sortFile_total files fh :
  Forall (λ file, go_string (Name file)) files →
  is_Ok (foldM sortFile fh files).
Proof.
  intros Hgo. revert fh. induction Hgo as [|file files Hf _ IH]; intros fh.
  - apply is_Ok_Ok.
  - cbn [foldM]. destruct (sortFile fh file) as [fh1|e] eqn:Hs; [apply IH|].
    unfold sortFile in Hs. by rewrite (MustGetExtension_after_last _ Hf) in Hs.
Qed.

(** C19: [SortFiles] appends to every category exactly the scanned files
    that [categoryOf] sorts into it, in scan order, and changes nothing else
    of the handler: the paths, the scanned files, the exclusion list and the
    working directory stay. *)
Theorem SortFiles_spec fh fh' :
  SortFiles fh = Ok fh' →
  same_plan fh fh' ∧
  ∀ c, Files (field c (DirectoryMap fh')) =
       Files (field c (DirectoryMap fh)) ++ filesOf c (RawFiles fh).
Proof. by intros (? & _ & ?)%foldM_sortFile_Ok. Qed.

(** C29: [SortFiles] does not panic when the names of the scanned files are
    strings of a Go program. *)
Theorem SortFiles_total fh :
  Forall (λ file, go_string (Name file)) (RawFiles fh) → is_Ok (SortFiles fh).
Proof. apply foldM_sortFile_total. Qed.

(** The categories of a handler whose lists were empty partition the scanned
    files. *)
Lemma foldM_sortFile_partition files fh fh' :
  (∀ c, Files (field c (DirectoryMap fh)) = []) →
  foldM sortFile fh files = Ok fh' →
  mjoin (Files <$> fields (DirectoryMap fh')) ≡ₚ files.
Proof.
  intros Hempty (_ & Hok & Hfiles)%foldM_sortFile_Ok.
  assert (Files <$> fields (DirectoryMap fh') =
          (λ r, filter (λ file, categoryOf (Name file) = r) files) <$>
            (Ok <$> categories)) as ->.
  { rewrite fields_categories, <-!list_fmap_compose. apply list_fmap_ext.
    intros _ c _. cbn. by rewrite Hfiles, Hempty. }
  apply classes_Permutation.
  - apply (NoDup_fmap_2 _), NoDup_categories.
  - intros file Hfile. rewrite Forall_forall in Hok.
    destruct (Hok _ Hfile) as [c ->].
    apply list_elem_of_fmap_2, elem_of_categories.
Qed.

(** C6: after [SortFiles] on a handler whose categories were empty, the
    categories partition the scanned files: together they hold the scanned
    files, each as often as it was scanned, and a file is in the list of a
    category exactly if it was scanned and [categoryOf] sorts its name into
    that category. *)
Theorem SortFiles_partition fh fh' :
  (∀ c, Files (field c (DirectoryMap fh)) = []) →
  SortFiles fh = Ok fh' →
  mjoin (Files <$> fields (DirectoryMap fh')) ≡ₚ RawFiles fh ∧
  ∀ file c, file ∈ Files (field c (DirectoryMap fh')) ↔
            file ∈ RawFiles fh ∧ categoryOf (Name file) = Ok c.
Proof.
  intros Hempty Hsort. split; [by eapply foldM_sortFile_partition|].
  apply foldM_sortFile_Ok in Hsort as (_ & _ & Hfiles).
  intros file c. rewrite Hfiles, Hempty. unfold filesOf. cbn.
  by rewrite list_elem_of_filter, (comm and).
Qed.
End sort.

(** ** [InitializeFileHandler] *)

Section initialize.
Context {FS : Type} `{!FileSystem FS}.
Implicit Types (w : world FS) (fh : FileHandler) (wd pwd : string).
Implicit Types (excluded : list string) (c : Category) (k : path).

Lemma foldl_set_Excluded fh excluded :
  foldl (λ fh file, set_Excluded (Excluded fh ++ [file]) fh) fh excluded =
  set_Excluded (Excluded fh ++ excluded) fh.
Proof.
  revert fh; induction excluded as [|x excluded IH]; intros fh; cbn.
  - destruct fh. by rewrite app_nil_r.
  - rewrite IH. cbn. by rewrite <-app_assoc.
Qed.

Lemma run_InitializeFileHandler pwd excluded w :
  run (InitializeFileHandler pwd excluded) w =
  match Abs (w_fs w) pwd with
  | Ok wd => Done (initialHandler wd excluded) w
  | Panic err => Crash (PanicError err) w
  end.
Proof.
  unfold InitializeFileHandler. rewrite run_bind. cbn [readFS gets run].
  destruct (Abs (w_fs w) pwd) as [wd|err]; [|done].
  by rewrite run_ret, foldl_set_Excluded.
Qed.

Lemma field_initialHandler wd excluded c :
  field c (DirectoryMap (initialHandler wd excluded)) =
  mkDirInfo (wd </> dirName c) [].
Proof. by destruct c. Qed.

Lemma dirName_inj : Inj (=) (=) dirName.
Proof. intros c c' Hc. by destruct c, c'. Qed.

Lemma valid_name_dirName c : valid_name (dirName c).
Proof. destruct c; by apply (bool_decide_unpack _). Qed.

(** A file that has the name of the directory of a category belongs to the
    category [other], except [pdf], which belongs to [pdf]. *)
Lemma categoryOf_dirName c :
  categoryOf (dirName c) = Ok (if decide (c = pdf) then pdf else other).
Proof. by destruct c. Qed.

(** [other] is the last category. *)
Lemma categories_other_last (done rest : list Category) c :
  categories = done ++ c :: rest → (c ∉ done) ∧ (other ∉ done).
Proof.
  intros Heq. pose proof NoDup_categories as Hnodup. rewrite Heq in Hnodup.
  apply NoDup_app in Hnodup as (_ & Hdisj & _).
  split; [intros Hc; apply (Hdisj _ Hc); left|].
  intros Hother. apply (Hdisj _ Hother).
  apply (f_equal last) in Heq. rewrite last_app_cons in Heq.
  by apply last_Some_elem_of.
Qed.

Lemma NoDup_initial_paths wd excluded :
  NoDup (Path <$> fields (DirectoryMap (initialHandler wd excluded))).
Proof.
  rewrite fields_categories, <-list_fmap_compose.
  apply NoDup_fmap_2_strong; [|apply NoDup_categories].
  intros c c' _ _ Heq. unfold compose in Heq.
  rewrite !field_initialHandler in Heq. cbn [Path] in Heq.
  by apply (inj (String.app wd)), (inj (String.app "/")), dirName_inj in Heq.
Qed.

(** C20: [InitializeFileHandler] changes nothing in the world.  If [Abs]
    fails it panics with that error.  Otherwise the handler has the absolute
    path as working directory, the given exclusion list, no scanned file,
    and for each category an empty list of files and the path of the
    working directory followed by a separator and the name of the
    category. *)
Theorem InitializeFileHandler_spec pwd excluded w :
  match run (InitializeFileHandler pwd excluded) w with
  | Done fh w' =>
      w' = w ∧ Abs (w_fs w) pwd = Ok (WorkingDir fh) ∧
      Excluded fh = excluded ∧ RawFiles fh = [] ∧
      ∀ c, field c (DirectoryMap fh) = mkDirInfo (WorkingDir fh </> dirName c) []
  | Crash e w' =>
      w' = w ∧ ∃ err, e = PanicError err ∧ Abs (w_fs w) pwd = Panic err
  end.
Proof.
  rewrite run_InitializeFileHandler.
  destruct (Abs (w_fs w) pwd) as [wd|err]; [|by eauto].
  split_and!; try done. apply field_initialHandler.
Qed.

(** The target paths of the seven categories are pairwise distinct
    path names, and each denotes the direct child of the working directory
    that has the name of the category. *)
Lemma InitializeFileHandler_paths pwd excluded w fh w' :
  Forall valid_name (fs_cwd (w_fs w)) →
  run (InitializeFileHandler pwd excluded) w = Done fh w' →
  let cwd := fs_cwd (w_fs w) in
  let k := normalise (resolve cwd pwd) in
  NoDup (Path <$> fields (DirectoryMap fh)) ∧
  resolve cwd (WorkingDir fh) = k ∧ clean (WorkingDir fh) ∧
  ∀ c, resolve cwd (Path (field c (DirectoryMap fh))) = k ++ [dirName c] ∧
       clean (Path (field c (DirectoryMap fh))).
Proof.
  intros Hcwd. rewrite run_InitializeFileHandler.
  destruct (Abs (w_fs w) pwd) as [wd|err] eqn:Habs; intros [= <- <-].
  apply Abs_Ok in Habs as ->. intros cwd k.
  assert (Forall valid_name k) by by apply normalise_valid, resolve_Forall.
  split_and!; [apply NoDup_initial_paths|by apply resolve_render
              |by apply clean_render|].
  intros c. rewrite field_initialHandler. cbn [Path WorkingDir initialHandler].
  pose proof (valid_name_dirName c).
  rewrite resolve_join, resolve_render by auto using IsAbs_render.
  auto using clean_join, clean_render.
Qed.
End initialize.

(** ** [FilterDirectories] *)

Section filter.
Context {FS : Type} `{!FileSystem FS}.
Implicit Types (w : world FS) (fs : FS) (fh : FileHandler) (dir : string).
Implicit Types (files infos : list FileInfo) (es : list DirEntry).
Implicit Types (obj : DirEntry) (file info : FileInfo).

Lemma run_filterEntry dir files obj w :
  run (filterEntry dir files obj) w =
  if EntryIsDir obj then Done files w
  else match Info (w_fs w) dir obj with
       | Ok info => Done (files ++ [info]) w
       | Panic err => Crash (PanicError err) w
       end.
Proof.
  unfold filterEntry. destruct (EntryIsDir obj); cbn [negb]; [done|].
  rewrite run_bind. cbn [readFS gets run]. by destruct (Info _ _ _).
Qed.

Lemma run_foldP_filterEntry dir files es w :
  run (foldP (filterEntry dir) files es) w =
  match collectFiles (w_fs w) dir files es with
  | Ok files' => Done files' w
  | Panic err => Crash (PanicError err) w
  end.
Proof.
  revert files; induction es as [|obj es IH]; intros files; [done|].
  rewrite run_foldP_cons, run_filterEntry. cbn [collectFiles].
  destruct (EntryIsDir obj); [apply IH|].
  destruct (Info _ _ _); cbn; [apply IH|done].
Qed.

Lemma run_FilterDirectories fh w :
  run (FilterDirectories fh) w =
  match ReadDir (w_fs w) (WorkingDir fh) with
  | Panic err => Crash (PanicError err) w
  | Ok es =>
      match collectFiles (w_fs w) (WorkingDir fh) [] es with
      | Ok files => Done (set_RawFiles files fh) w
      | Panic err => Crash (PanicError err) w
      end
  end.
Proof.
  unfold FilterDirectories. rewrite run_bind. cbn [readFS gets run].
  destruct (ReadDir _ _) as [es|err]; [|done].
  rewrite run_bind, run_foldP_filterEntry. by destruct (collectFiles _ _ _ _).
Qed.

(** The files collected are the [FileInfo]s of the entries that are not
    directories, in the order of the entries. *)
Lemma collectFiles_Ok fs dir files es files' :
  collectFiles fs dir files es = Ok files' →
  ∃ infos, files' = files ++ infos ∧
    Forall2 (λ obj info, Info fs dir obj = Ok info)
      (filter (λ obj, EntryIsDir obj = false) es) infos.
Proof.
  revert files; induction es as [|obj es IH]; intros files; cbn [collectFiles].
  - intros [= <-]. exists []. by rewrite app_nil_r.
  - rewrite filter_cons. destruct (EntryIsDir obj) eqn:Hobj.
    + rewrite decide_False by done. apply IH.
    + rewrite decide_True by done.
      intros (info & Hinfo & (infos & -> & Hall)%IH)%result_bind_Ok.
      exists (info :: infos). rewrite <-app_assoc. split; [done|].
      by constructor.
Qed.

Lemma collectFiles_Panic fs dir files es err :
  collectFiles fs dir files es = Panic err →
  ∃ obj, obj ∈ es ∧ EntryIsDir obj = false ∧ Info fs dir obj = Panic err.
Proof.
  revert files; induction es as [|obj es IH]; intros files; cbn; [done|].
  destruct (EntryIsDir obj) eqn:Hobj.
  - intros (obj' & ? & ?)%IH. exists obj'. split; [by right|done].
  - intros [Hinfo|(info & _ & (obj' & ? & ?)%IH)]%result_bind_Panic.
    + exists obj. split; [by left|done].
    + exists obj'. split; [by right|done].
Qed.

(** The scan of a directory, on the view of the file system: the files
    found are the regular files among the entries of the directory, each
    with the [FileInfo] of its entry, in the order of their names. *)
Lemma scan_files fs dir es infos :
  clean dir → ReadDir fs dir = Ok es →
  Forall2 (λ obj info, Info fs dir obj = Ok info)
    (filter (λ obj, EntryIsDir obj = false) es) infos →
  let k := resolve (fs_cwd fs) dir in
  Name <$> infos = EntryName <$> filter (λ obj, EntryIsDir obj = false) es ∧
  ∀ file, file ∈ infos ↔
    ∃ data, fs_tree fs !! (k ++ [Name file]) = Some (File data) ∧
            file = info_of (Name file) (File data).
Proof.
  intros Hdir (_ & _ & _ & Hes)%ReadDir_Ok Hinfos k; [|done].
  assert (∀ obj info, obj ∈ es → EntryIsDir obj = false →
    Info fs dir obj = Ok info →
    ∃ data, fs_tree fs !! (k ++ [EntryName obj]) = Some (File data) ∧
            info = info_of (EntryName obj) (File data)) as Hfile.
  { intros [n b] info Hobj Hb (nd & Hnd & ->)%Info_Ok; [|done].
    apply Hes in Hobj as (nd' & Hnd' & ->). cbn in *.
    assert (nd' = nd) as -> by congruence. destruct nd; [eauto|done]. }
  split.
  - induction Hinfos as [|obj info objs infos Hinfo _ IH]; [done|].
    cbn. f_equal; [|done].
    apply Info_Ok in Hinfo as (nd & _ & ->); [|done]. by destruct nd.
  - intros file. split.
    + intros (i & Hi)%list_elem_of_lookup.
      destruct (Forall2_lookup_r _ _ _ _ _ Hinfos Hi) as (obj & Hobj & Hinfo).
      apply list_elem_of_lookup_2, list_elem_of_filter in Hobj as [Hb Hobj].
      destruct (Hfile _ _ Hobj Hb Hinfo) as (data & Hdata & ->).
      cbn. eauto.
    + intros (data & Hdata & Hfile').
      assert (mkDirEntry (Name file) false ∈ es) as Hobj
        by (apply Hes; eauto).
      assert (mkDirEntry (Name file) false ∈
              filter (λ obj, EntryIsDir obj = false) es) as Hobj'
        by by apply list_elem_of_filter.
      apply list_elem_of_lookup in Hobj' as (i & Hi).
      destruct (Forall2_lookup_l _ _ _ _ _ Hinfos Hi) as (info & Hi' & Hinfo).
      destruct (Hfile _ _ Hobj eq_refl Hinfo) as (data' & Hdata' & ->).
      cbn in *. assert (data' = data) as -> by congruence.
      rewrite Hfile'. by eapply list_elem_of_lookup_2.
Qed.

(** The names of the scanned files are distinct. *)
Lemma scan_NoDup fs dir es infos :
  clean dir → ReadDir fs dir = Ok es →
  Forall2 (λ obj info, Info fs dir obj = Ok info)
    (filter (λ obj, EntryIsDir obj = false) es) infos →
  NoDup (Name <$> infos).
Proof.
  intros Hdir Hes Hinfos.
  destruct (scan_files _ _ _ _ Hdir Hes Hinfos) as [-> _].
  destruct (ReadDir_Ok _ _ _ Hdir Hes) as (_ & _ & Hnodup & _).
  eapply sublist_NoDup; [done|]. apply fmap_sublist, sublist_filter.
Qed.

(** The loop of [FilterDirectories] ends when [Info] succeeds on the
    entries that are not directories. *)
Lemma collectFiles_is_Ok fs dir files es :
  (∀ obj, obj ∈ es → EntryIsDir obj = false → is_Ok (Info fs dir obj)) →
  is_Ok (collectFiles fs dir files es).
Proof.
  revert files; induction es as [|obj es IH]; intros files Hes; cbn [collectFiles].
  { apply is_Ok_Ok. }
  destruct (EntryIsDir obj) eqn:Hobj.
  - apply IH. intros obj' ?. apply Hes. by right.
  - destruct (Hes obj) as [info ->]; [by left|done|]. cbn.
    apply IH. intros obj' ?. apply Hes. by right.
Qed.

(** C10: a successful [FilterDirectories] changes neither the world nor
    any field of the handler but [RawFiles].  The working directory is a
    directory, and the scanned files are exactly its entries that are regular
    files, each once, with the name and size of the entry, ordered by
    name. *)
Theorem FilterDirectories_spec fh w fh' w' :
  clean (WorkingDir fh) →
  run (FilterDirectories fh) w = Done fh' w' →
  let k := resolve (fs_cwd (w_fs w)) (WorkingDir fh) in
  w' = w ∧ fh' = set_RawFiles (RawFiles fh') fh ∧
  fs_tree (w_fs w) !! k = Some Folder ∧
  StronglySorted String.le (Name <$> RawFiles fh') ∧
  NoDup (Name <$> RawFiles fh') ∧
  ∀ file, file ∈ RawFiles fh' ↔
    ∃ data, fs_tree (w_fs w) !! (k ++ [Name file]) = Some (File data) ∧
            file = info_of (Name file) (File data).
Proof.
  intros Hwd. rewrite run_FilterDirectories.
  destruct (ReadDir _ _) as [es|] eqn:Hes; [|done].
  destruct (collectFiles _ _ _ _) as [files|] eqn:Hfiles; intros [= <- <-].
  apply collectFiles_Ok in Hfiles as (infos & -> & Hinfos). intros k.
  destruct (scan_files _ _ _ _ Hwd Hes Hinfos) as [Hnames Hin].
  destruct (ReadDir_Ok _ _ _ Hwd Hes) as (Hk & Hsorted & Hnodup & _).
  cbn [RawFiles set_RawFiles app]. rewrite Hnames.
  split_and!; try done.
  - eapply StronglySorted_sublist; [|done]. apply fmap_sublist, sublist_filter.
  - eapply sublist_NoDup; [done|]. apply fmap_sublist, sublist_filter.
Qed.

(** C30: [FilterDirectories] never changes the world, and it crashes only
    with the error of [ReadDir] on the working directory or with the error
    of [Info] on one of the entries that is not a directory. *)
Theorem FilterDirectories_crash fh w :
  final (run (FilterDirectories fh) w) = w ∧
  ∀ e w', run (FilterDirectories fh) w = Crash e w' →
    ∃ err, e = PanicError err ∧
      (ReadDir (w_fs w) (WorkingDir fh) = Panic err ∨
       ∃ es obj, ReadDir (w_fs w) (WorkingDir fh) = Ok es ∧ obj ∈ es ∧
         EntryIsDir obj = false ∧ Info (w_fs w) (WorkingDir fh) obj = Panic err).
Proof.
  rewrite run_FilterDirectories.
  destruct (ReadDir _ _) as [es|err] eqn:Hes; [|split; [done|]].
  - destruct (collectFiles _ _ _ _) as [files|err] eqn:Hfiles; [done|].
    split; [done|]. intros e w' [= <- <-]. exists err. split; [done|right].
    apply collectFiles_Panic in Hfiles as (obj & ? & ? & ?). by exists es, obj.
  - intros e w' [= <- <-]. eauto.
Qed.
End filter.

(** ** Witnesses *)

Lemma SortFiles_spec_witness :
  let a := mkFileInfo "a.png" 3 false in
  let b := mkFileInfo "b.txt" 4 false in
  let fh := set_RawFiles [a; b] (initialHandler "/box" []) in
  let fh' := set_DirectoryMap
    (appendFile documents b (appendFile images a (DirectoryMap fh))) fh in
  same_plan fh fh' ∧
  ∀ c, Files (field c (DirectoryMap fh')) =
       Files (field c (DirectoryMap fh)) ++ filesOf c (RawFiles fh).
Proof. apply SortFiles_spec. reflexivity. Defined.

Lemma SortFiles_total_witness :
  is_Ok (SortFiles (set_RawFiles [mkFileInfo "a.png" 3 false]
                      (initialHandler "/box" []))).
Proof. apply SortFiles_total. repeat constructor. by_compute. Defined.

Lemma SortFiles_partition_witness :
  let a := mkFileInfo "a.png" 3 false in
  let b := mkFileInfo "b.txt" 4 false in
  let fh := set_RawFiles [a; b] (initialHandler "/box" []) in
  let fh' := set_DirectoryMap
    (appendFile documents b (appendFile images a (DirectoryMap fh))) fh in
  mjoin (Files <$> fields (DirectoryMap fh')) ≡ₚ RawFiles fh ∧
  ∀ file c, file ∈ Files (field c (DirectoryMap fh')) ↔
            file ∈ RawFiles fh ∧ categoryOf (Name file) = Ok c.
Proof. apply SortFiles_partition; [by intros []|reflexivity]. Defined.
