(* ===== verification/DryRun.v ===== *)
(** * The dry run

    [ellipsis] ([src/tools/helpers/sort.go:316]), [constructArrow]
    ([sort.go:323]) and [DryRun] ([sort.go:189]): the table of planned moves
    and the list of excluded files, printed without touching the file
    system.  The table goes through the [tabwriter] of [Tabwriter], write by
    write: a write of a row that returns an error is a panic
    ([sort.go:236], [sort.go:253]), the errors of the other writes and of
    [Flush] are dropped.  [DryRun_writes] gives the run for every writer,
    [DryRun_total] for the writer that holds the text until [Flush], whose
    layout [format] is a function about which nothing is assumed. *)

From S2P Require Import Prelude GoRuntime Os Tabwriter Classify Handler.

#[local] Open Scope Z_scope.

(** ** Data *)

Record DROutputColumns : Set := mkDROutputColumns {
  FileName : string;
  NewDir : string;
}.

#[export] Instance DROutputColumns_eq_dec : EqDecision DROutputColumns.
Proof. solve_decision. Defined.

(** ** Operations *)

Definition ellipsis (s : string) (maxLength : Z) : result panic_value string :=
  if decide (len s > maxLength) then
    head ← slice_to s maxLength; mret (head +:+ "...")
  else mret s.

Definition constructArrow (filename : string) : result panic_value string :=
  let arrow := "-->" in
  let spacesNeeded := int_sub (int_sub 70 (len filename)) (len arrow) in
  let spacesNeeded := if decide (spacesNeeded < 0) then 0 else spacesNeeded in
  dashes ← Repeat "-" spacesNeeded;
  mret (dashes +:+ arrow).

(** The first loop of [DryRun]: over the fields of the directory map and the
    files of each, it collects the rows of the table ([files]) and the names
    of the excluded files ([excludedFiles], in the source a slice of structs
    with the single field [FileName]). *)
Definition planFile (excluded : list string) (dirInfo : DirInfo)
    (acc : list DROutputColumns * list string) (file : FileInfo) :
    list DROutputColumns * list string :=
  let '(files, excludedFiles) := acc in
  if isExcluded file excluded then (files, excludedFiles ++ [Name file])
  else (files ++ [mkDROutputColumns (Name file) (Path dirInfo)], excludedFiles).

Definition plan (fileHandler : FileHandler) :
    list DROutputColumns * list string :=
  foldl (λ acc dirInfo,
           foldl (planFile (Excluded fileHandler) dirInfo) acc (Files dirInfo))
    ([], []) (fields (DirectoryMap fileHandler)).

(** The text of a row of the table:
    [Fprintf(writer, "%s %s \t%s\t\n", ellipsisFilename, arrowTail, file.NewDir)]. *)
Definition rowText (file : DROutputColumns) : result panic_value string :=
  ellipsisFilename ← ellipsis (FileName file) 60;
  arrowTail ← constructArrow ellipsisFilename;
  mret (ellipsisFilename +:+ " " +:+ arrowTail +:+ " " +:+ tab +:+
        NewDir file +:+ tab +:+ nl).

(** The text of a row of the list of excluded files:
    [Fprintf(writer, "%s\n", ellipsisFilename)]. *)
Definition excludedText (fileName : string) : result panic_value string :=
  ellipsisFilename ← ellipsis fileName 60;
  mret (ellipsisFilename +:+ nl).

Section with_fs.
Context {FS : Type} `{!FileSystem FS}.

(** [DryRun] with the tabwriter [tw].  The errors of the writes of the
    headers are dropped, the error of the write of a row is a panic, and
    the error of [Flush] ends the function, which is at its end anyway. *)
Definition DryRun (tw : TabWriter) (fileHandler : FileHandler) : io FS () :=
  print ("Dry run mode" +:+ nl);;
  print nl;;
  let bold := esc +:+ "[1m" in
  let reset := esc +:+ "[0m" in
  let '(files, excludedFiles) := plan fileHandler in
  let writer := tw_new tw in
  '(writer, _) ← Fprint tw writer
    (" File Name " +:+ tab +:+ " New Directory " +:+ tab +:+ nl);
  '(writer, _) ← Fprint tw writer
    ("-----------" +:+ tab +:+ "---------------" +:+ tab +:+ nl);
  writer ← foldP (λ writer file,
      row ← lift (rowText file);
      '(writer, err) ← Fprint tw writer row;
      match err with
      | Some err => panic (PanicError err)
      | None => mret writer
      end) writer files;
  '(writer, _) ← Fprint tw writer
    (nl +:+ bold +:+ "Excluded Files" +:+ reset +:+ tab +:+ tab +:+ nl +:+ nl);
  '(writer, _) ← Fprint tw writer (" File Name" +:+ nl);
  '(writer, _) ← Fprint tw writer ("-----------" +:+ nl);
  writer ← foldP (λ writer file,
      row ← lift (excludedText file);
      '(writer, err) ← Fprint tw writer row;
      match err with
      | Some err => panic (PanicError err)
      | None => mret writer
      end) writer excludedFiles;
  '(_, err) ← Flush tw writer;
  match err with
  | Some _ => mret ()
  | None => mret ()
  end.
End with_fs.

(** ** Reference definitions *)

(** The planned moves: for every category in the order of the fields, the
    files of the category that are not excluded, in the order of the list,
    each with the path of the category. *)
Definition plannedMoves (fileHandler : FileHandler) : list DROutputColumns :=
  dirInfo ← fields (DirectoryMap fileHandler);
  (λ file, mkDROutputColumns (Name file) (Path dirInfo)) <$>
    filter (λ file, Name file ∉ Excluded fileHandler) (Files dirInfo).

(** The names of the excluded files among those of the categories. *)
Definition excludedNames (fileHandler : FileHandler) : list string :=
  dirInfo ← fields (DirectoryMap fileHandler);
  Name <$> filter (λ file, Name file ∈ Excluded fileHandler) (Files dirInfo).

(** The text of the table for given rows: the two header lines, the rows,
    the three lines that introduce the excluded files, and their names. *)
Definition tableOf (rows excludedRows : list string) : list string :=
  [ " File Name " +:+ tab +:+ " New Directory " +:+ tab +:+ nl;
    "-----------" +:+ tab +:+ "---------------" +:+ tab +:+ nl ] ++
  rows ++
  [ nl +:+ esc +:+ "[1m" +:+ "Excluded Files" +:+ esc +:+ "[0m" +:+ tab +:+
    tab +:+ nl +:+ nl;
    " File Name" +:+ nl;
    "-----------" +:+ nl ] ++
  excludedRows.

(** The writes of [DryRun] for given rows, each with whether [DryRun]
    checks its error: it does for the rows and not for the headers. *)
Definition linesOf (rows excludedRows : list string) : list (bool * string) :=
  [ (false, " File Name " +:+ tab +:+ " New Directory " +:+ tab +:+ nl);
    (false, "-----------" +:+ tab +:+ "---------------" +:+ tab +:+ nl) ] ++
  (pair true <$> rows) ++
  [ (false, nl +:+ esc +:+ "[1m" +:+ "Excluded Files" +:+ esc +:+ "[0m" +:+
            tab +:+ tab +:+ nl +:+ nl);
    (false, " File Name" +:+ nl);
    (false, "-----------" +:+ nl) ] ++
  (pair true <$> excludedRows).

(** ** [ellipsis] *)

Section ellipsis.
Implicit Types (s t : string) (maxLength : Z).

Lemma ellipsis_short s maxLength :
  len s ≤ maxLength → ellipsis s maxLength = Ok s.
Proof. intros. unfold ellipsis. by rewrite decide_False by lia. Qed.

Lemma ellipsis_long s maxLength :
  0 ≤ maxLength < len s →
  ellipsis s maxLength = Ok (string_take (Z.to_nat maxLength) s +:+ "...").
Proof.
  intros. unfold ellipsis. rewrite decide_True by lia.
  by rewrite slice_to_Ok by lia.
Qed.

Lemma ellipsis_len s maxLength t :
  0 ≤ maxLength → ellipsis s maxLength = Ok t → len t ≤ maxLength + 3.
Proof.
  intros ?. destruct (decide (len s ≤ maxLength)).
  - rewrite ellipsis_short by done. intros [= <-]. lia.
  - rewrite ellipsis_long by lia. intros [= <-].
    unfold len in *. rewrite string_length_app, string_length_take. cbn. lia.
Qed.

Lemma ellipsis_go_string s maxLength t :
  go_string s → ellipsis s maxLength = Ok t → maxLength + 3 ≤ int_max →
  go_string t.
Proof.
  intros Hs Ht ?. unfold go_string in *.
  destruct (decide (len s ≤ maxLength)).
  - rewrite ellipsis_short in Ht by done. by simplify_eq.
  - destruct (decide (0 ≤ maxLength)).
    + apply ellipsis_len in Ht; lia.
    + unfold ellipsis in Ht. rewrite decide_True, slice_to_Panic in Ht by lia.
      done.
Qed.

Lemma ellipsis_is_Ok s maxLength :
  0 ≤ maxLength → ∃ t, ellipsis s maxLength = Ok t.
Proof.
  intros. destruct (decide (len s ≤ maxLength)).
  - exists s. by apply ellipsis_short.
  - eexists. apply ellipsis_long; lia.
Qed.

(** C38: [ellipsis] with a bound that is not negative never panics.  A
    string within the bound is returned as it is; a longer one is cut to its
    first [maxLength] bytes and three dots are added, so that the result has
    [maxLength + 3] bytes. *)
Theorem ellipsis_spec s maxLength :
  0 ≤ maxLength →
  ∃ t, ellipsis s maxLength = Ok t ∧
    if decide (len s ≤ maxLength) then t = s
    else t = string_take (Z.to_nat maxLength) s +:+ "..." ∧
         len t = maxLength + 3.
Proof.
  intros ?. case_decide.
  - exists s. by rewrite ellipsis_short.
  - eexists. rewrite ellipsis_long by lia. split_and!; try done.
    unfold len in *. rewrite string_length_app, string_length_take. cbn. lia.
Qed.

(** With a negative bound [ellipsis] panics on every string: the slice
    expression [s[:maxLength]] is out of range. *)
Lemma ellipsis_negative s maxLength :
  maxLength < 0 → ellipsis s maxLength = Panic SliceOutOfRange.
Proof.
  intros. unfold ellipsis. pose proof (len_nonneg s).
  rewrite decide_True by lia. by rewrite slice_to_Panic by lia.
Qed.
End ellipsis.

(** ** [constructArrow] *)

Section arrow.
Implicit Types (filename name : string).

Lemma constructArrow_Ok filename :
  go_string filename →
  constructArrow filename =
  Ok (string_replicate (Z.to_nat (67 - len filename)) "-" +:+ "-->").
Proof.
  intros Hgo. unfold constructArrow, go_string in *.
  pose proof (len_nonneg filename). change (len "-->") with 3.
  rewrite (int_sub_id 70) by (unfold is_int, int_min, int_max in *; lia).
  rewrite int_sub_id by (unfold is_int, int_min, int_max in *; lia).
  replace (70 - len filename - 3) with (67 - len filename) by lia.
  case_decide.
  - rewrite Repeat_Ok; [|done|by vm_compute]. by rewrite (Z2Nat.nonpos (67 - _)) by lia.
  - rewrite Repeat_Ok; [done|lia|]. change (len "-") with 1.
    unfold int_max in *. lia.
Qed.

(** C40: on a Go string [constructArrow] never panics: the subtractions do
    not overflow and the count given to [Repeat] is not negative.  The arrow
    is a run of dashes followed by [-->], of [70 - len(filename)] bytes in
    all, and of 3 bytes when the name has more than 67 bytes. *)
Theorem constructArrow_spec filename :
  go_string filename →
  ∃ n, constructArrow filename = Ok (string_replicate n "-" +:+ "-->") ∧
       Z.of_nat n + 3 = Z.max 3 (70 - len filename).
Proof.
  intros Hgo. eexists. split; [by apply constructArrow_Ok|]. lia.
Qed.

Lemma rowText_Ok file :
  go_string (FileName file) →
  ∃ name arrow,
    ellipsis (FileName file) 60 = Ok name ∧ constructArrow name = Ok arrow ∧
    len name + len arrow = 70 ∧
    rowText file = Ok (name +:+ " " +:+ arrow +:+ " " +:+ tab +:+
                       NewDir file +:+ tab +:+ nl).
Proof.
  intros Hgo. destruct (ellipsis_is_Ok (FileName file) 60) as (name & Hname);
    [done|].
  assert (go_string name) by by eapply ellipsis_go_string.
  pose proof (ellipsis_len _ 60 _ ltac:(done) Hname).
  eexists name, _. unfold rowText. rewrite Hname. cbn.
  rewrite constructArrow_Ok by done. split_and!; try done.
  unfold len in *. rewrite string_length_app, string_length_replicate. cbn. lia.
Qed.

(** C39: the rows of the table are aligned before the [tabwriter] sees
    them: for every file name that is a Go string, the displayed name and the
    arrow have 70 bytes together, and the row never panics. *)
Theorem rowText_width file :
  go_string (FileName file) →
  ∃ name arrow,
    rowText file = Ok (name +:+ " " +:+ arrow +:+ " " +:+ tab +:+
                       NewDir file +:+ tab +:+ nl) ∧
    ellipsis (FileName file) 60 = Ok name ∧ len name ≤ 63 ∧
    len name + len arrow = 70.
Proof.
  intros (name & arrow & Hname & _ & ? & ?)%rowText_Ok.
  exists name, arrow. split_and!; try done.
  by apply (ellipsis_len _ 60 _ ltac:(done) Hname).
Qed.
End arrow.

(** ** The plan *)

Section plan.
Implicit Types (fh : FileHandler) (dirInfo : DirInfo) (file : FileInfo).
Implicit Types (excluded : list string) (rows : list DROutputColumns).

Lemma foldl_planFile excluded dirInfo files rows names :
  foldl (planFile excluded dirInfo) (rows, names) files =
  (rows ++ ((λ file, mkDROutputColumns (Name file) (Path dirInfo)) <$>
              filter (λ file, Name file ∉ excluded) files),
   names ++ (Name <$> filter (λ file, Name file ∈ excluded) files)).
Proof.
  revert rows names; induction files as [|file files IH]; intros rows names.
  - cbn. by rewrite !app_nil_r.
  - cbn [foldl planFile]. rewrite !filter_cons.
    destruct (isExcluded file excluded) eqn:Hex.
    + apply isExcluded_true in Hex. rewrite IH.
      rewrite (decide_False (P := _ ∉ _)) by (by intros ?).
      rewrite (decide_True (P := _ ∈ _)) by done. by rewrite <-app_assoc.
    + apply isExcluded_false in Hex. rewrite IH.
      rewrite (decide_True (P := _ ∉ _)) by done.
      rewrite (decide_False (P := _ ∈ _)) by done. by rewrite <-app_assoc.
Qed.

Lemma plan_eq fh : plan fh = (plannedMoves fh, excludedNames fh).
Proof.
  unfold plan, plannedMoves, excludedNames.
  generalize (fields (DirectoryMap fh)). intros dirs.
  change (foldl _ ([], []) dirs) with
    (foldl (λ acc dirInfo, foldl (planFile (Excluded fh) dirInfo) acc
              (Files dirInfo)) ([], []) dirs).
  enough (∀ rows names,
    foldl (λ acc dirInfo, foldl (planFile (Excluded fh) dirInfo) acc
             (Files dirInfo)) (rows, names) dirs =
    (rows ++ (dirs ≫= λ dirInfo,
        (λ file, mkDROutputColumns (Name file) (Path dirInfo)) <$>
          filter (λ file, Name file ∉ Excluded fh) (Files dirInfo)),
     names ++ (dirs ≫= λ dirInfo,
        Name <$> filter (λ file, Name file ∈ Excluded fh) (Files dirInfo))))
    as Hgen by apply Hgen.
  induction dirs as [|dirInfo dirs IH]; intros rows names; cbn.
  - by rewrite !app_nil_r.
  - by rewrite foldl_planFile, IH, <-!app_assoc.
Qed.

(** C37: the first loop of [DryRun] computes the plan: the rows are the
    files that are not excluded, category by category in the order of the
    fields and in each category in the order of its list, each with the path
    of its category; the excluded names are those of the other files, in the
    same order. *)
Theorem plan_spec fh :
  plan fh = (plannedMoves fh, excludedNames fh) ∧
  (length (plan fh).1 + length (plan fh).2)%nat =
  length (mjoin (Files <$> fields (DirectoryMap fh))).
Proof.
  split; [apply plan_eq|]. rewrite plan_eq. cbn [fst snd].
  unfold plannedMoves, excludedNames.
  induction (fields (DirectoryMap fh)) as [|dirInfo dirs IH]; [done|].
  rewrite !bind_cons, fmap_cons. change (mjoin (?l :: ?ls)) with (l ++ mjoin ls).
  rewrite !length_app, !length_fmap, <-IH.
  pose proof (filter_app_complement (λ file, Name file ∈ Excluded fh)
    (Files dirInfo)) as Hperm%Permutation_length.
  rewrite length_app in Hperm. lia.
Qed.

Lemma elem_of_plannedMoves fh row :
  row ∈ plannedMoves fh ↔
  ∃ c file, file ∈ Files (field c (DirectoryMap fh)) ∧
    (Name file ∉ Excluded fh) ∧
    row = mkDROutputColumns (Name file) (Path (field c (DirectoryMap fh))).
Proof.
  unfold plannedMoves. rewrite list_elem_of_bind. split.
  - intros (d & (file & -> & [??]%list_elem_of_filter)%list_elem_of_fmap
              & (c & ->)%elem_of_fields). by exists c, file.
  - intros (c & file & ? & ? & ->). exists (field c (DirectoryMap fh)).
    split; [|apply elem_of_fields; eauto].
    apply list_elem_of_fmap. exists file. by rewrite list_elem_of_filter.
Qed.

Lemma elem_of_excludedNames fh name :
  name ∈ excludedNames fh ↔
  name ∈ Excluded fh ∧
  ∃ c file, file ∈ Files (field c (DirectoryMap fh)) ∧ Name file = name.
Proof.
  unfold excludedNames. rewrite list_elem_of_bind. split.
  - intros (d & (file & -> & [??]%list_elem_of_filter)%list_elem_of_fmap
              & (c & ->)%elem_of_fields). split; [done|]. by exists c, file.
  - intros (? & c & file & ? & <-). exists (field c (DirectoryMap fh)).
    split; [|apply elem_of_fields; eauto].
    apply list_elem_of_fmap. exists file. by rewrite list_elem_of_filter.
Qed.

(** C13: an excluded file is never a row of the table, and only excluded
    files are listed as excluded: a row of the plan is a file of a category
    whose name is not in the exclusion list, with the path of that
    category, and an excluded name is the name of a file of a category that
    is in the exclusion list. *)
Theorem plan_excluded fh :
  (∀ row, row ∈ (plan fh).1 ↔
     ∃ c file, file ∈ Files (field c (DirectoryMap fh)) ∧
       (Name file ∉ Excluded fh) ∧
       row = mkDROutputColumns (Name file) (Path (field c (DirectoryMap fh)))) ∧
  (∀ name, name ∈ (plan fh).2 ↔
     name ∈ Excluded fh ∧
     ∃ c file, file ∈ Files (field c (DirectoryMap fh)) ∧ Name file = name).
Proof.
  rewrite plan_eq. split; [apply elem_of_plannedMoves|apply elem_of_excludedNames].
Qed.
End plan.

(** ** [DryRun] *)

Section dryrun.
Context {FS : Type} `{!FileSystem FS}.
Implicit Types (w : world FS) (fh : FileHandler) (format : list string → string).
Implicit Types (tw : TabWriter) (rows excludedRows : list string).

Lemma excludedText_Ok name :
  ∃ shown, ellipsis name 60 = Ok shown ∧ excludedText name = Ok (shown +:+ nl).
Proof.
  destruct (ellipsis_is_Ok name 60) as (shown & Hshown); [done|].
  exists shown. unfold excludedText. by rewrite Hshown.
Qed.

Lemma linesOf_texts rows excludedRows :
  (linesOf rows excludedRows).*2 = tableOf rows excludedRows.
Proof.
  unfold linesOf, tableOf. rewrite !fmap_app, <-!list_fmap_compose.
  by rewrite !list_fmap_id.
Qed.

(** The rows of the table exist when the names are Go strings. *)
Lemma rows_exist fh :
  (∀ c file, file ∈ Files (field c (DirectoryMap fh)) → go_string (Name file)) →
  ∃ rows excludedRows,
    Forall2 (λ move row, rowText move = Ok row) (plannedMoves fh) rows ∧
    Forall2 (λ name row, excludedText name = Ok row) (excludedNames fh)
      excludedRows.
Proof.
  intros Hgo.
  destruct (mapM_result_is_Ok rowText (plannedMoves fh)) as [rows Hrows].
  { apply Forall_forall. intros move Hmove.
    apply elem_of_plannedMoves in Hmove as (c & file & Hfile & _ & ->).
    destruct (rowText_Ok (mkDROutputColumns (Name file)
      (Path (field c (DirectoryMap fh))))) as (? & ? & _ & _ & _ & ->);
      [by eapply Hgo|apply is_Ok_Ok]. }
  destruct (mapM_result_is_Ok excludedText (excludedNames fh))
    as [excludedRows HexcludedRows].
  { apply Forall_forall. intros name _.
    destruct (excludedText_Ok name) as (? & _ & ->). apply is_Ok_Ok. }
  exists rows, excludedRows. split; by apply mapM_result_Ok.
Qed.

(** A loop that writes a row for each element of a list and panics when a
    write fails is [feed] on the rows, all checked. *)
Lemma run_rows {A} tw (text : A → result panic_value string) xs rows writer w :
  Forall2 (λ x row, text x = Ok row) xs rows →
  run (foldP (λ writer x,
         row ← lift (text x);
         '(writer, err) ← Fprint tw writer row;
         match err with
         | Some err => panic (PanicError err)
         | None => mret writer
         end) writer xs) w =
  let r := feed tw writer (pair true <$> rows) in
  let w' := World (w_fs w) (w_out w ++ r.1.2) in
  match r.2 with
  | Some err => Crash (PanicError err) w'
  | None => Done r.1.1 w'
  end.
Proof.
  intros Hrows. revert writer w.
  induction Hrows as [|x row xs rows Hrow _ IH]; intros writer w.
  - cbn. rewrite app_nil_r. by destruct w.
  - rewrite run_foldP_cons, run_bind, (run_lift_Ok _ _ _ Hrow), run_bind,
      run_Fprint. cbn [fmap list_fmap]. rewrite feed_cons. cbn zeta.
    destruct (tw_write tw writer row) as [[writer' out] [err|]]; [done|].
    cbn. rewrite IH. cbn.
    destruct (feed _ _ _) as [[??] [?|]]; cbn; by rewrite app_assoc.
Qed.

Lemma run_DryRun tw fh w rows excludedRows :
  Forall2 (λ move row, rowText move = Ok row) (plannedMoves fh) rows →
  Forall2 (λ name row, excludedText name = Ok row) (excludedNames fh)
    excludedRows →
  run (DryRun tw fh) w =
  let r := feed tw (tw_new tw) (linesOf rows excludedRows) in
  let out := w_out w ++ ["Dry run mode" +:+ nl; nl] ++ r.1.2 in
  match r.2 with
  | Some err => Crash (PanicError err) (World (w_fs w) out)
  | None => Done () (World (w_fs w) (out ++ (tw_flush tw r.1.1).1.2))
  end.
Proof.
  intros Hrows HexcludedRows. unfold DryRun, linesOf. rewrite plan_eq.
  cbn [app]. do 2 (rewrite feed_cons; cbn beta iota zeta).
  rewrite feed_app; cbn beta iota zeta.
  do 2 (rewrite run_bind, run_print; cbn [w_fs w_out]).
  do 2 (rewrite run_bind, run_Fprint; cbn [w_fs w_out]).
  rewrite run_bind, (run_rows _ _ _ _ _ _ Hrows). cbn zeta. cbn [w_fs w_out].
  destruct (feed tw _ (pair true <$> rows)) as [[writer1 out1] [err|]];
    cbn [fst snd]; [by list_assoc|].
  do 3 (rewrite feed_cons; cbn beta iota zeta).
  do 3 (rewrite run_bind, run_Fprint; cbn [w_fs w_out]).
  rewrite run_bind, (run_rows _ _ _ _ _ _ HexcludedRows).
  cbn zeta. cbn [w_fs w_out].
  destruct (feed tw _ (pair true <$> excludedRows)) as [[writer2 out2] [err|]];
    cbn [fst snd]; [by list_assoc|].
  rewrite run_bind, run_Flush. cbn [w_fs w_out].
  destruct (tw_flush tw writer2) as [[? out3] [?|]];
    cbn [fst snd run mret prog_ret]; by list_assoc.
Qed.

(** [DryRun] keeps the file system and what was printed, whatever the
    writer does and whether it finishes or panics. *)
Lemma DryRun_kept tw fh (fs : FS) out :
  triple (kept fs out) (DryRun tw fh) (λ _, kept fs out) (λ _, kept fs out).
Proof.
  assert (∀ A (text : A → result panic_value string) xs writer,
    triple (kept fs out)
      (foldP (λ writer x,
         row ← lift (text x);
         '(writer, err) ← Fprint tw writer row;
         match err with
         | Some err => panic (PanicError err)
         | None => mret writer
         end) writer xs) (λ _, kept fs out) (λ _, kept fs out)) as Hloop.
  { intros A text xs writer.
    apply (triple_foldP _ _ _ (λ _ _, kept fs out)). intros _ x writer' _.
    eapply triple_bind; [apply triple_lift_keep|]. intros row.
    eapply triple_bind; [apply triple_call_kept|]. intros [writer'' [err|]];
      [by apply triple_panic|by apply triple_ret]. }
  unfold DryRun. destruct (plan fh) as [files excludedFiles].
  do 10 (eapply triple_bind;
    [first [apply triple_print_kept|apply triple_call_kept|apply Hloop]
    |let r := fresh in intros r; try destruct r]).
  case_match; by apply triple_ret.
Qed.

Lemma DryRun_final tw fh w :
  kept (w_fs w) (w_out w) (final (run (DryRun tw fh) w)).
Proof.
  apply (triple_final _ _ _ _ (DryRun_kept tw fh (w_fs w) (w_out w))),
    kept_refl.
Qed.

(** C22: [DryRun] does not touch the file system, whether it finishes or
    panics and whatever the writer of the table does, and what was written
    to standard output before stays. *)
Theorem DryRun_readonly tw fh w :
  w_fs (final (run (DryRun tw fh) w)) = w_fs w ∧
  w_out w `prefix_of` w_out (final (run (DryRun tw fh) w)).
Proof. apply DryRun_final. Qed.

Lemma DryRun_ends format fh w :
  (∀ c file, file ∈ Files (field c (DirectoryMap fh)) → go_string (Name file)) →
  ∃ rows excludedRows,
    Forall2 (λ move row, rowText move = Ok row) (plannedMoves fh) rows ∧
    Forall2 (λ name row, excludedText name = Ok row) (excludedNames fh)
      excludedRows ∧
    run (DryRun (buffered format) fh) w =
    Done () (World (w_fs w)
               (w_out w ++ ["Dry run mode" +:+ nl; nl;
                            format (tableOf rows excludedRows)])).
Proof.
  intros (rows & excludedRows & Hrows & HexcludedRows)%rows_exist.
  exists rows, excludedRows. split_and!; [done..|].
  rewrite (run_DryRun _ _ _ _ _ Hrows HexcludedRows). cbn zeta.
  rewrite feed_buffered. cbn [fst snd tw_flush buffered].
  rewrite linesOf_texts. by list_assoc.
Qed.

(** On a writer whose writes succeed [DryRun] finishes. *)
Lemma DryRun_is_Done tw fh w :
  writable tw →
  (∀ c file, file ∈ Files (field c (DirectoryMap fh)) → go_string (Name file)) →
  is_Done (run (DryRun tw fh) w).
Proof.
  intros Htw (rows & excludedRows & Hrows & HexcludedRows)%rows_exist.
  rewrite (run_DryRun _ _ _ _ _ Hrows HexcludedRows). cbn zeta.
  rewrite feed_writable by done. by eexists _, _.
Qed.

(** C21: when the names of the files of the categories are Go strings,
    [DryRun] finishes on a standard output that takes the writes.  It prints
    the two lines of the banner and then the table: the header, one row for
    each planned move in the order of the plan, the header of the excluded
    files and one line for each excluded name. *)
Theorem DryRun_total format fh w :
  (∀ c file, file ∈ Files (field c (DirectoryMap fh)) → go_string (Name file)) →
  ∃ rows excludedRows,
    Forall2 (λ move row, rowText move = Ok row) (plannedMoves fh) rows ∧
    Forall2 (λ name row, excludedText name = Ok row) (excludedNames fh)
      excludedRows ∧
    run (DryRun (buffered format) fh) w =
    Done () (World (w_fs w)
               (w_out w ++ ["Dry run mode" +:+ nl; nl;
                            format (tableOf rows excludedRows)])).
Proof. apply DryRun_ends. Qed.

(** C25: [DryRun] on every writer.  When the names are Go strings no row
    panics, and the run is the sequence of the writes of the table, of which
    only those of the rows are checked: the first write of a row that
    returns an error is a panic with that error, after the output of the
    writes before it; if there is none, [DryRun] finishes after [Flush],
    whatever the writes of the headers and [Flush] return. *)
Theorem DryRun_writes tw fh w :
  (∀ c file, file ∈ Files (field c (DirectoryMap fh)) → go_string (Name file)) →
  ∃ rows excludedRows,
    Forall2 (λ move row, rowText move = Ok row) (plannedMoves fh) rows ∧
    Forall2 (λ name row, excludedText name = Ok row) (excludedNames fh)
      excludedRows ∧
    let '(writer, out, err) := feed tw (tw_new tw) (linesOf rows excludedRows) in
    let banner := ["Dry run mode" +:+ nl; nl] in
    run (DryRun tw fh) w =
    match err with
    | Some err => Crash (PanicError err) (World (w_fs w) (w_out w ++ banner ++ out))
    | None =>
        Done () (World (w_fs w)
                   (w_out w ++ banner ++ out ++ (tw_flush tw writer).1.2))
    end.
Proof.
  intros (rows & excludedRows & Hrows & HexcludedRows)%rows_exist.
  exists rows, excludedRows. split_and!; [done..|].
  rewrite (run_DryRun _ _ _ _ _ Hrows HexcludedRows). cbn zeta.
  destruct (feed _ _ _) as [[writer out] [err|]]; cbn [fst snd]; [done|].
  by rewrite <-!app_assoc.
Qed.
End dryrun.

(** ** Witnesses *)

Lemma ellipsis_spec_witness :
  ∃ t, ellipsis "abcdef" 3 = Ok t ∧
    if decide (len "abcdef" ≤ 3) then t = "abcdef"
    else t = string_take (Z.to_nat 3) "abcdef" +:+ "..." ∧ len t = 3 + 3.
Proof. apply ellipsis_spec. lia. Defined.


Lemma constructArrow_spec_witness :
  ∃ n, constructArrow "a.png" = Ok (string_replicate n "-" +:+ "-->") ∧
       Z.of_nat n + 3 = Z.max 3 (70 - len "a.png").
Proof. apply constructArrow_spec. by_compute. Defined.

Lemma rowText_width_witness :
  let file := mkDROutputColumns "a.png" "/box/images" in
  ∃ name arrow,
    rowText file = Ok (name +:+ " " +:+ arrow +:+ " " +:+ tab +:+
                       NewDir file +:+ tab +:+ nl) ∧
    ellipsis (FileName file) 60 = Ok name ∧ len name ≤ 63 ∧
    len name + len arrow = 70.
Proof. apply rowText_width. by_compute. Defined.
