(* ===== verification/MoveFiles.v ===== *)
(** * Moving the files

    [MoveFiles] ([src/tools/helpers/sort.go:264]): for every field of the
    directory map, in the order of the fields, the directory of the category
    is created unless [Stat] finds it, and every file of the category that is
    not excluded is renamed from the working directory into it.  The first
    error is a panic: the run stops and what was done stays.

    The theorems of this file hold for every file system that satisfies the
    laws of [FileSystem], whatever calls fail.  The abstract specification is
    the step relation [move_step] on trees; [MoveFiles] refines it. *)

From S2P Require Import Prelude GoRuntime Os Classify Handler.

(** ** Operations *)

Section with_fs.
Context {FS : Type} `{!FileSystem FS}.

(** "Ensure the directory exists": the first statement of the loop body. *)
Definition ensureDir (dirInfo : DirInfo) : io FS () :=
  r ← readFS (λ fs, Stat fs (Path dirInfo));
  if match r with Panic err => IsNotExist err | Ok _ => false end then
    print ("Creating directory: " +:+ Path dirInfo +:+ nl);;
    err ← writeFS (λ fs, Mkdir fs (Path dirInfo));
    match err with
    | Some err => panic (PanicError err)
    | None => mret ()
    end
  else print ("Directory already exists: " +:+ Path dirInfo +:+ nl).

(** The body of the inner loop: one file of the category. *)
Definition moveFile (fileHandler : FileHandler) (dirInfo : DirInfo)
    (file : FileInfo) : io FS () :=
  if isExcluded file (Excluded fileHandler) then mret ()
  else
    let newPath := Path dirInfo +:+ "/" +:+ Name file in
    let oldPath := WorkingDir fileHandler +:+ "/" +:+ Name file in
    print ("Moving file: " +:+ oldPath +:+ " --> " +:+ newPath +:+ nl);;
    err ← writeFS (λ fs, Rename fs oldPath newPath);
    match err with
    | Some err => panic (PanicError err)
    | None => mret ()
    end.

(** The body of the outer loop: one field of the directory map. *)
Definition moveDir (fileHandler : FileHandler) (dirInfo : DirInfo) : io FS () :=
  ensureDir dirInfo;;
  forM_ (Files dirInfo) (moveFile fileHandler dirInfo).

Definition MoveFiles (fileHandler : FileHandler) : io FS () :=
  forM_ (fields (DirectoryMap fileHandler)) (moveDir fileHandler).
End with_fs.

(** ** The abstract specification *)

(** A handler as the methods of [Handler] build it, for the working
    directory with the resolved path [k]: the working directory is the clean
    path name of [k], the path of each category is the working directory
    followed by the name of the category, and the files have names of
    entries. *)
Record plan_ok (fh : FileHandler) (k : path) : Prop := {
  plan_wd : WorkingDir fh = render k;
  plan_k : Forall valid_name k;
  plan_paths c : Path (field c (DirectoryMap fh)) = WorkingDir fh </> dirName c;
  plan_names c file :
    file ∈ Files (field c (DirectoryMap fh)) → valid_name (Name file);
}.

(** The resolved paths of a run: the directory of a category, a file in the
    working directory, and the file in the directory of its category. *)
Definition dirKey (k : path) (c : Category) : path := k ++ [dirName c].
Definition srcKey (k : path) (file : FileInfo) : path := k ++ [Name file].
Definition dstKey (k : path) (c : Category) (file : FileInfo) : path :=
  k ++ [dirName c; Name file].

(** What a successful [Rename] from [ko] to [kn] does to the tree, by the
    laws of [FileSystem]. *)
Definition rename_effect (ko kn : path) (t t' : gmap path node) : Prop :=
  (∀ p, ¬ ko `prefix_of` p → ¬ kn `prefix_of` p → t' !! p = t !! p) ∧
  ∃ nd, t !! ko = Some nd ∧
    (nd ≠ Folder →
     t !! kn ≠ Some Folder ∧ t !! removelast kn = Some Folder ∧
     t' = <[kn := nd]> (delete ko t)).

(** The steps of a move: the directory of a category is created where
    nothing was, or a file of the plan that is not excluded is renamed from
    the working directory into the directory of its category. *)
Inductive move_step (fh : FileHandler) (k : path) :
    relation (gmap path node) :=
| step_mkdir c t :
    t !! dirKey k c = None → t !! k = Some Folder →
    move_step fh k t (<[dirKey k c := Folder]> t)
| step_rename c file t t' :
    file ∈ Files (field c (DirectoryMap fh)) → Name file ∉ Excluded fh →
    rename_effect (srcKey k file) (dstKey k c file) t t' →
    move_step fh k t t'.

(** The worlds whose tree is reachable from [t0] by steps of the
    specification. *)
Definition reach {FS} `{!FileSystem FS} (fh : FileHandler) (k : path)
    (t0 : gmap path node) (w : world FS) : Prop :=
  rtc (move_step fh k) t0 (fs_tree (w_fs w)).

(** The files of the categories [cs], each with its category, in the order
    in which [MoveFiles] goes through them. *)
Definition pairsOf (fh : FileHandler) (cs : list Category) :
    list (Category * FileInfo) :=
  c ← cs; (λ file, (c, file)) <$> Files (field c (DirectoryMap fh)).

(** The tree [t] when the files of [pairs] have been gone through, from the
    tree [t0]: a file of [pairs] that is not excluded is in the directory of
    its category and no longer in the working directory, and the files whose
    names are not in [pairs] are where they were. *)
Record moved (fh : FileHandler) (k : path) (t0 : gmap path node)
    (pairs : list (Category * FileInfo)) (t : gmap path node) : Prop := {
  moved_done c file :
    (c, file) ∈ pairs → Name file ∉ Excluded fh →
    t !! dstKey k c file = t0 !! srcKey k file ∧ t !! srcKey k file = None;
  moved_todo c file :
    file ∈ Files (field c (DirectoryMap fh)) → Name file ∉ Excluded fh →
    Name file ∉ (λ p, Name p.2) <$> pairs →
    t !! srcKey k file = t0 !! srcKey k file;
}.

(** ** The paths of a plan *)

Section paths.
Context (fh : FileHandler) (k : path) (Hplan : plan_ok fh k).
Implicit Types (c : Category) (file : FileInfo) (cwd p : path).

Lemma plan_wd_abs : IsAbs (WorkingDir fh) = true.
Proof. rewrite (plan_wd _ _ Hplan). apply IsAbs_render. Qed.

Lemma plan_wd_clean : clean (WorkingDir fh).
Proof. rewrite (plan_wd _ _ Hplan). apply clean_render, Hplan. Qed.

Lemma resolve_wd cwd : resolve cwd (WorkingDir fh) = k.
Proof. rewrite (plan_wd _ _ Hplan). apply resolve_render, Hplan. Qed.

Lemma resolve_dir cwd c :
  resolve cwd (Path (field c (DirectoryMap fh))) = dirKey k c.
Proof.
  rewrite (plan_paths _ _ Hplan), resolve_join, resolve_wd;
    auto using plan_wd_abs, valid_name_dirName.
Qed.

Lemma clean_dir c : clean (Path (field c (DirectoryMap fh))).
Proof.
  rewrite (plan_paths _ _ Hplan).
  apply clean_join; auto using plan_wd_clean, valid_name_dirName.
Qed.

Lemma resolve_src cwd file :
  valid_name (Name file) →
  resolve cwd (WorkingDir fh </> Name file) = srcKey k file.
Proof. intros. by rewrite resolve_join, resolve_wd by auto using plan_wd_abs. Qed.

Lemma clean_src file :
  valid_name (Name file) → clean (WorkingDir fh </> Name file).
Proof. intros. apply clean_join; auto using plan_wd_clean. Qed.

Lemma resolve_dst cwd c file :
  valid_name (Name file) →
  resolve cwd (Path (field c (DirectoryMap fh)) </> Name file) = dstKey k c file.
Proof.
  intros. rewrite resolve_join, resolve_dir; [|..|done].
  - unfold dirKey, dstKey. by rewrite <-app_assoc.
  - rewrite (plan_paths _ _ Hplan). apply IsAbs_join, plan_wd_abs.
Qed.

Lemma clean_dst c file :
  valid_name (Name file) →
  clean (Path (field c (DirectoryMap fh)) </> Name file).
Proof. intros. apply clean_join; auto using clean_dir. Qed.

Lemma dirKey_below c : k `prefix_of` dirKey k c.
Proof. by eexists. Qed.

Lemma srcKey_below file : k `prefix_of` srcKey k file.
Proof. by eexists. Qed.

Lemma dstKey_below c file : k `prefix_of` dstKey k c file.
Proof. by eexists. Qed.
End paths.

Section keys.
Implicit Types (c : Category) (file : FileInfo) (k p : path).

Lemma srcKey_inj k file file' :
  srcKey k file = srcKey k file' → Name file = Name file'.
Proof. unfold srcKey. by intros [= ?]%app_inv_head. Qed.

Lemma dstKey_inj k c c' file file' :
  dstKey k c file = dstKey k c' file' → Name file = Name file'.
Proof. unfold dstKey. by intros [= ? ?]%app_inv_head. Qed.

Lemma srcKey_ne_dstKey k c file file' : srcKey k file ≠ dstKey k c file'.
Proof. unfold srcKey, dstKey. by intros [=]%app_inv_head. Qed.

Lemma dirKey_ne_dstKey k c c' file : dirKey k c ≠ dstKey k c' file.
Proof. unfold dirKey, dstKey. by intros [=]%app_inv_head. Qed.

Lemma srcKey_dirKey k c file : srcKey k file = dirKey k c → Name file = dirName c.
Proof. unfold srcKey, dirKey. by intros [= ?]%app_inv_head. Qed.

(** What a rename of a regular file leaves alone. *)
Lemma lookup_renamed (t : gmap path node) ko kn nd p :
  p ≠ ko → p ≠ kn → <[kn := nd]> (delete ko t) !! p = t !! p.
Proof. intros. by rewrite lookup_insert_ne, lookup_delete_ne. Qed.

Lemma lookup_renamed_new (t : gmap path node) ko kn nd :
  <[kn := nd]> (delete ko t) !! kn = Some nd.
Proof. by rewrite lookup_insert_eq. Qed.

Lemma lookup_renamed_old (t : gmap path node) ko kn nd :
  ko ≠ kn → <[kn := nd]> (delete ko t) !! ko = None.
Proof. intros. by rewrite lookup_insert_ne, lookup_delete_eq. Qed.
End keys.

(** ** The steps of the program *)

Section steps.
Context {FS : Type} `{!FileSystem FS}.
Implicit Types (w : world FS) (fh : FileHandler) (dirInfo : DirInfo).
Implicit Types (file : FileInfo) (c : Category) (k : path).

Lemma run_ensureDir dirInfo w :
  run (ensureDir dirInfo) w =
  let exists_ := "Directory already exists: " +:+ Path dirInfo +:+ nl in
  let creating := "Creating directory: " +:+ Path dirInfo +:+ nl in
  match Stat (w_fs w) (Path dirInfo) with
  | Ok _ => Done () (World (w_fs w) (w_out w ++ [exists_]))
  | Panic err =>
      if IsNotExist err then
        match Mkdir (w_fs w) (Path dirInfo) with
        | Ok fs' => Done () (World fs' (w_out w ++ [creating]))
        | Panic err' =>
            Crash (PanicError err') (World (w_fs w) (w_out w ++ [creating]))
        end
      else Done () (World (w_fs w) (w_out w ++ [exists_]))
  end.
Proof.
  unfold ensureDir. rewrite run_bind, run_readFS.
  destruct (Stat _ _) as [i|err]; [done|].
  destruct (IsNotExist err); [|done].
  by rewrite run_bind, run_print, run_writeFS_panic.
Qed.

Lemma run_moveFile fh dirInfo file w :
  run (moveFile fh dirInfo file) w =
  let newPath := Path dirInfo </> Name file in
  let oldPath := WorkingDir fh </> Name file in
  let out := w_out w ++
    ["Moving file: " +:+ oldPath +:+ " --> " +:+ newPath +:+ nl] in
  if isExcluded file (Excluded fh) then Done () w
  else match Rename (w_fs w) oldPath newPath with
       | Ok fs' => Done () (World fs' out)
       | Panic err => Crash (PanicError err) (World (w_fs w) out)
       end.
Proof.
  unfold moveFile. destruct (isExcluded _ _); [done|].
  by rewrite run_bind, run_print, run_writeFS_panic.
Qed.

(** C17: [ensureDir] on every branch.  It ends with the message that the
    directory exists, and without a change, when [Stat] succeeds and also
    when [Stat] fails with an error other than not-exist; it ends with the
    message that it creates the directory when [Stat] reports not-exist and
    [Mkdir] succeeds: nothing was at the path, and now a directory is there;
    it crashes, with the error of [Mkdir] and after the message, when [Stat]
    reports not-exist and [Mkdir] fails, and the file system is as it was. *)
Theorem ensureDir_spec dirInfo w :
  clean (Path dirInfo) →
  let k := resolve (fs_cwd (w_fs w)) (Path dirInfo) in
  let exists_ := "Directory already exists: " +:+ Path dirInfo +:+ nl in
  let creating := "Creating directory: " +:+ Path dirInfo +:+ nl in
  match run (ensureDir dirInfo) w with
  | Done _ w' =>
      (w' = World (w_fs w) (w_out w ++ [exists_]) ∧
       ∀ err, Stat (w_fs w) (Path dirInfo) = Panic err → IsNotExist err = false) ∨
      (w_out w' = w_out w ++ [creating] ∧ fs_tree (w_fs w) !! k = None ∧
       fs_tree (w_fs w') = <[k := Folder]> (fs_tree (w_fs w)) ∧
       fs_cwd (w_fs w') = fs_cwd (w_fs w))
  | Crash e w' =>
      w' = World (w_fs w) (w_out w ++ [creating]) ∧
      fs_tree (w_fs w) !! k = None ∧
      ∃ err, e = PanicError err ∧ Mkdir (w_fs w) (Path dirInfo) = Panic err
  end.
Proof.
  intros Hclean. rewrite run_ensureDir. cbn zeta.
  destruct (Stat _ _) as [i|err] eqn:Hstat; [by left|].
  destruct (IsNotExist err) eqn:Herr; [|left; split; [done|congruence]].
  pose proof (Stat_not_exist _ _ _ Hclean Hstat Herr) as Hnone.
  destruct (Mkdir _ _) as [fs'|err'] eqn:Hmk; [|eauto].
  apply Mkdir_Ok in Hmk as (_ & _ & ? & ?); [|done]. by right.
Qed.

(** C18: [moveFile] on every branch.  An excluded file is skipped: nothing
    changes and nothing is printed.  Otherwise the message is printed and
    the file is renamed from the working directory into the directory of the
    category; if the rename fails the run crashes with its error, after the
    message, and the file system is as it was. *)
Theorem moveFile_spec fh dirInfo file w :
  clean (WorkingDir fh </> Name file) → clean (Path dirInfo </> Name file) →
  let ko := resolve (fs_cwd (w_fs w)) (WorkingDir fh </> Name file) in
  let kn := resolve (fs_cwd (w_fs w)) (Path dirInfo </> Name file) in
  let out := w_out w ++ ["Moving file: " +:+ (WorkingDir fh </> Name file) +:+
                         " --> " +:+ (Path dirInfo </> Name file) +:+ nl] in
  match run (moveFile fh dirInfo file) w with
  | Done _ w' =>
      if decide (Name file ∈ Excluded fh) then w' = w
      else w_out w' = out ∧ fs_cwd (w_fs w') = fs_cwd (w_fs w) ∧
           rename_effect ko kn (fs_tree (w_fs w)) (fs_tree (w_fs w'))
  | Crash e w' =>
      (Name file ∉ Excluded fh) ∧ w' = World (w_fs w) out ∧
      ∃ err, e = PanicError err ∧
        Rename (w_fs w) (WorkingDir fh </> Name file)
          (Path dirInfo </> Name file) = Panic err
  end.
Proof.
  intros Hold Hnew. rewrite run_moveFile. cbn zeta.
  destruct (isExcluded _ _) eqn:Hex.
  - apply isExcluded_true in Hex. by rewrite decide_True.
  - apply isExcluded_false in Hex.
    destruct (Rename _ _ _) as [fs'|err] eqn:Hmv; [|eauto].
    rewrite decide_False by done.
    by apply Rename_Ok in Hmv as (? & ? & ?).
Qed.

Lemma ensureDir_reach fh k t0 c :
  plan_ok fh k →
  triple (reach fh k t0) (ensureDir (field c (DirectoryMap fh)))
    (λ _, reach fh k t0) (λ _, reach fh k t0).
Proof.
  intros Hplan w Hw. rewrite run_ensureDir. cbn zeta.
  destruct (Stat _ _) as [i|err]; [done|].
  destruct (IsNotExist err); [|done].
  destruct (Mkdir _ _) as [fs'|err'] eqn:Hmk; [|done].
  apply Mkdir_Ok in Hmk as (Hnone & Hparent & Htree & _);
    [|by apply clean_dir with k].
  rewrite (resolve_dir _ _ Hplan) in Hnone, Hparent, Htree.
  unfold dirKey in Hparent. rewrite removelast_last in Hparent.
  unfold reach. cbn [w_fs]. rewrite Htree.
  eapply rtc_r; [done|]. by constructor.
Qed.

Lemma moveFile_reach fh k t0 c file :
  plan_ok fh k → file ∈ Files (field c (DirectoryMap fh)) →
  triple (reach fh k t0) (moveFile fh (field c (DirectoryMap fh)) file)
    (λ _, reach fh k t0) (λ _, reach fh k t0).
Proof.
  intros Hplan Hfile w Hw. rewrite run_moveFile. cbn zeta.
  destruct (isExcluded _ _) eqn:Hex; [done|].
  apply isExcluded_false in Hex.
  destruct (Rename _ _ _) as [fs'|err] eqn:Hmv; [|done].
  pose proof (plan_names _ _ Hplan _ _ Hfile) as Hname.
  apply Rename_Ok in Hmv as (_ & Hframe & Hnd);
    [|by apply clean_src with k|by apply clean_dst with k].
  rewrite (resolve_src _ _ Hplan), (resolve_dst _ _ Hplan) in Hframe, Hnd
    by done.
  eapply rtc_r; [done|]. by eapply step_rename.
Qed.

Lemma moveDir_reach fh k t0 c :
  plan_ok fh k →
  triple (reach fh k t0) (moveDir fh (field c (DirectoryMap fh)))
    (λ _, reach fh k t0) (λ _, reach fh k t0).
Proof.
  intros Hplan. eapply triple_bind; [by apply ensureDir_reach|].
  intros []. apply triple_forM. intros file Hfile. by apply moveFile_reach.
Qed.

Lemma MoveFiles_reach fh k t0 :
  plan_ok fh k →
  triple (reach fh k t0) (MoveFiles fh) (λ _, reach fh k t0)
    (λ _, reach fh k t0).
Proof.
  intros Hplan. apply triple_forM. intros d (c & ->)%elem_of_fields.
  by apply moveDir_reach.
Qed.

(** *** What the steps of the specification leave alone *)

Lemma prefix_snoc_ne {A} (k : list A) (x y : A) :
  x ≠ y → ¬ (k ++ [x]) `prefix_of` (k ++ [y]).
Proof. intros Hxy [l Hl]. rewrite <-app_assoc in Hl. by simplify_list_eq. Qed.

Lemma prefix_longer {A} (k l1 l2 : list A) :
  (length l2 < length l1)%nat → ¬ (k ++ l1) `prefix_of` (k ++ l2).
Proof. intros ? Hp%prefix_length. rewrite !length_app in Hp. lia. Qed.

(** A step changes nothing outside the working directory. *)
Lemma move_step_outside fh k t t' p :
  move_step fh k t t' → ¬ k `prefix_of` p → t' !! p = t !! p.
Proof.
  intros [c t1 _ _|c file t1 t2 _ _ [Hframe _]] Hp.
  - apply lookup_insert_ne. intros <-. by apply Hp, dirKey_below.
  - apply Hframe; intros Hpre; apply Hp;
      (etrans; [|exact Hpre]); [apply srcKey_below|apply dstKey_below].
Qed.

(** A step keeps the entry of an excluded name. *)
Lemma move_step_excluded fh k t t' n nd :
  move_step fh k t t' → n ∈ Excluded fh →
  t !! (k ++ [n]) = Some nd → t' !! (k ++ [n]) = Some nd.
Proof.
  intros [c t1 Hnone _|c file t1 t2 _ Hex [Hframe _]] Hn Ht.
  - rewrite lookup_insert_ne; [done|]. intros Heq. congruence.
  - rewrite Hframe; [done|apply prefix_snoc_ne; set_solver|].
    apply prefix_longer. cbn. lia.
Qed.

(** A step changes nothing but the directories of the categories, what is
    below them, and the files of the plan that are not excluded. *)
Lemma move_step_rest fh k t t' p :
  move_step fh k t t' →
  (∀ c, ¬ dirKey k c `prefix_of` p) →
  (∀ c file, file ∈ Files (field c (DirectoryMap fh)) →
             Name file ∉ Excluded fh → ¬ srcKey k file `prefix_of` p) →
  t' !! p = t !! p.
Proof.
  intros [c t1 _ _|c file t1 t2 Hfile Hex [Hframe _]] Hdirs Hfiles.
  - apply lookup_insert_ne. intros <-. by apply (Hdirs c).
  - apply Hframe; [by eapply Hfiles|]. intros Hpre. apply (Hdirs c).
    etrans; [|exact Hpre]. exists [Name file]. unfold dstKey, dirKey.
    by rewrite <-app_assoc.
Qed.

Lemma move_steps_rest fh k t t' p :
  rtc (move_step fh k) t t' →
  (∀ c, ¬ dirKey k c `prefix_of` p) →
  (∀ c file, file ∈ Files (field c (DirectoryMap fh)) →
             Name file ∉ Excluded fh → ¬ srcKey k file `prefix_of` p) →
  t' !! p = t !! p.
Proof.
  induction 1 as [|t1 t2 t3 Hstep _ IH]; [done|]. intros Hdirs Hfiles.
  rewrite IH by done. by eapply move_step_rest.
Qed.

Lemma move_steps_outside fh k t t' p :
  rtc (move_step fh k) t t' → ¬ k `prefix_of` p → t' !! p = t !! p.
Proof.
  induction 1 as [|t1 t2 t3 Hstep _ IH]; [done|]. intros Hp.
  rewrite IH by done. by eapply move_step_outside.
Qed.

Lemma move_steps_excluded fh k t t' n nd :
  rtc (move_step fh k) t t' → n ∈ Excluded fh →
  t !! (k ++ [n]) = Some nd → t' !! (k ++ [n]) = Some nd.
Proof.
  induction 1 as [|t1 t2 t3 Hstep _ IH]; [done|]. intros Hn Ht.
  apply IH; [done|]. by eapply move_step_excluded.
Qed.

Lemma MoveFiles_steps fh k w :
  plan_ok fh k →
  rtc (move_step fh k) (fs_tree (w_fs w))
    (fs_tree (w_fs (final (run (MoveFiles fh) w)))).
Proof.
  intros Hplan.
  apply (triple_final _ _ _ _ (MoveFiles_reach fh k _ Hplan)), rtc_refl.
Qed.

(** C4: [MoveFiles] refines the specification: whatever calls fail, and
    also when the run crashes, the tree of the final file system is reached
    from the initial tree by steps of [move_step], that is by creating
    directories of categories where nothing was and by renaming files of the
    plan that are not excluded from the working directory into the directory
    of their category. *)
Theorem MoveFiles_refines fh k w :
  plan_ok fh k →
  rtc (move_step fh k) (fs_tree (w_fs w))
    (fs_tree (w_fs (final (run (MoveFiles fh) w)))).
Proof. apply MoveFiles_steps. Qed.

(** [MoveFiles] changes nothing outside the working directory: a path
    that the working directory is not a prefix of has in the final file
    system the entry it had, whether the run ends or crashes. *)
Lemma MoveFiles_confined fh k w p :
  plan_ok fh k → ¬ k `prefix_of` p →
  fs_tree (w_fs (final (run (MoveFiles fh) w))) !! p = fs_tree (w_fs w) !! p.
Proof. intros. eapply move_steps_outside; [by apply MoveFiles_steps|done]. Qed.

(** C9: [MoveFiles] keeps the excluded entries: an entry of the working
    directory whose name is in the exclusion list is in the final file
    system what it was, whether the run ends or crashes. *)
Theorem MoveFiles_keeps_excluded fh k w n nd :
  plan_ok fh k → n ∈ Excluded fh →
  fs_tree (w_fs w) !! (k ++ [n]) = Some nd →
  fs_tree (w_fs (final (run (MoveFiles fh) w))) !! (k ++ [n]) = Some nd.
Proof. intros. eapply move_steps_excluded; [by apply MoveFiles_steps|done..]. Qed.

(** C15: [MoveFiles] touches only the directories of the categories and the
    files it moves: a path that is neither the directory of a category or
    below one, nor a file of the plan that is not excluded, denotes at the
    end what it denoted at the start.  In particular the subdirectories of
    the working directory and what is in them stay as they are. *)
Theorem MoveFiles_leaves_rest fh k w p :
  plan_ok fh k →
  (∀ c, ¬ dirKey k c `prefix_of` p) →
  (∀ c file, file ∈ Files (field c (DirectoryMap fh)) →
             Name file ∉ Excluded fh → ¬ srcKey k file `prefix_of` p) →
  fs_tree (w_fs (final (run (MoveFiles fh) w))) !! p = fs_tree (w_fs w) !! p.
Proof. intros. eapply move_steps_rest; [by apply MoveFiles_steps|done..]. Qed.
End steps.

(** ** What a finished run has moved *)

Section moved.
Context (fh : FileHandler) (k : path) (t0 : gmap path node).
Context (Hsrc : ∀ c file,
  file ∈ Files (field c (DirectoryMap fh)) → Name file ∉ Excluded fh →
  ∃ data, t0 !! srcKey k file = Some (File data)).
Implicit Types (c : Category) (file : FileInfo) (t : gmap path node).
Implicit Types (pairs : list (Category * FileInfo)).

Lemma moved_start : moved fh k t0 [] t0.
Proof. split; [by intros c file ?%elem_of_nil|done]. Qed.

(** A name that is still to do is not the name of a file that is done. *)
Lemma moved_fresh pairs t file nd :
  moved fh k t0 pairs t → Name file ∉ Excluded fh →
  t !! srcKey k file = Some nd → Name file ∉ (λ p, Name p.2) <$> pairs.
Proof.
  intros [Hdone _] Hex Hnd ([c1 f1] & Hname & Hin)%list_elem_of_fmap.
  cbn in Hname. destruct (Hdone c1 f1 Hin) as [_ Hnone]; [congruence|].
  unfold srcKey in *. congruence.
Qed.

Lemma moved_mkdir pairs c' t :
  moved fh k t0 pairs t → t !! dirKey k c' = None →
  (∀ c file, (c, file) ∈ pairs → Name file ≠ dirName c') →
  moved fh k t0 pairs (<[dirKey k c' := Folder]> t).
Proof.
  intros [Hdone Htodo] Hnone Hnames. split.
  - intros c file Hin Hex. destruct (Hdone c file Hin Hex) as [Hd Hs].
    rewrite !lookup_insert_ne; [done|..].
    + intros Heq. symmetry in Heq. apply srcKey_dirKey in Heq. by eapply Hnames.
    + apply dirKey_ne_dstKey.
  - intros c file Hin Hex Hn. destruct (Hsrc c file Hin Hex) as [data Hdata].
    rewrite <-(Htodo c file Hin Hex Hn) in Hdata.
    rewrite lookup_insert_ne; [by eapply Htodo|]. congruence.
Qed.

Lemma moved_skip pairs c file t :
  moved fh k t0 pairs t → Name file ∈ Excluded fh →
  moved fh k t0 (pairs ++ [(c, file)]) t.
Proof.
  intros [Hdone Htodo] Hex. split.
  - intros c1 f1 [Hin|Heq%list_elem_of_singleton]%elem_of_app Hex1;
      [by apply Hdone|by simplify_eq].
  - intros c1 f1 Hin Hex1 Hn. apply (Htodo c1 f1 Hin Hex1).
    rewrite fmap_app in Hn. set_solver.
Qed.

Lemma moved_rename pairs c file t t' :
  file ∈ Files (field c (DirectoryMap fh)) → Name file ∉ Excluded fh →
  moved fh k t0 pairs t →
  rename_effect (srcKey k file) (dstKey k c file) t t' →
  moved fh k t0 (pairs ++ [(c, file)]) t'.
Proof.
  intros Hin Hex Hmoved [_ (nd & Hnd & Hren)].
  pose proof (moved_fresh _ _ _ _ Hmoved Hex Hnd) as Hfresh.
  destruct Hmoved as [Hdone Htodo]. destruct (Hsrc c file Hin Hex) as [data Hdata].
  rewrite (Htodo c file Hin Hex Hfresh), Hdata in Hnd. injection Hnd as <-.
  destruct Hren as (_ & _ & ->); [done|]. split.
  - intros c1 f1 [Hin1|Heq%list_elem_of_singleton]%elem_of_app Hex1.
    + destruct (Hdone c1 f1 Hin1 Hex1) as [Hd Hs].
      assert (Name f1 ≠ Name file) as Hne.
      { intros Heq. apply Hfresh, list_elem_of_fmap. by exists (c1, f1). }
      rewrite !lookup_renamed; [done|..].
      * by intros ?%srcKey_inj.
      * apply srcKey_ne_dstKey.
      * intros Heq. by apply (srcKey_ne_dstKey k c1 file f1).
      * by intros ?%dstKey_inj.
    + simplify_eq. rewrite lookup_renamed_new, lookup_renamed_old; [done|].
      apply srcKey_ne_dstKey.
  - intros c1 f1 Hin1 Hex1 Hn. rewrite fmap_app, not_elem_of_app in Hn.
    destruct Hn as [Hn Hne%not_elem_of_cons]. cbn in Hne.
    rewrite lookup_renamed; [by eapply Htodo|..].
    + intros ?%srcKey_inj. naive_solver.
    + apply srcKey_ne_dstKey.
Qed.
End moved.

Section moves.
Context {FS : Type} `{!FileSystem FS}.
Context (fh : FileHandler) (k : path) (t0 : gmap path node).
Context (Hplan : plan_ok fh k).
Context (Hsrc : ∀ c file,
  file ∈ Files (field c (DirectoryMap fh)) → Name file ∉ Excluded fh →
  ∃ data, t0 !! srcKey k file = Some (File data)).
Context (Hcls : ∀ c file,
  file ∈ Files (field c (DirectoryMap fh)) → categoryOf (Name file) = Ok c).
Implicit Types (w : world FS) (c : Category) (file : FileInfo).
Implicit Types (pairs : list (Category * FileInfo)) (done : list Category).

Local Notation movedW pairs := (λ w, moved fh k t0 pairs (fs_tree (w_fs w))).
Local Notation any := (λ (_ : panic_value) (_ : world FS), True).

Lemma elem_of_pairsOf cs c file :
  (c, file) ∈ pairsOf fh cs ↔ c ∈ cs ∧ file ∈ Files (field c (DirectoryMap fh)).
Proof.
  unfold pairsOf. rewrite list_elem_of_bind. setoid_rewrite list_elem_of_fmap.
  naive_solver.
Qed.

Lemma pairsOf_snoc done c :
  pairsOf fh (done ++ [c]) =
  pairsOf fh done ++ ((λ file, (c, file)) <$> Files (field c (DirectoryMap fh))).
Proof. unfold pairsOf. by rewrite bind_app, bind_singleton. Qed.

(** The files of the categories before [c'] do not have the name of the
    directory of [c']. *)
Lemma done_names done c' rest c file :
  categories = done ++ c' :: rest → (c, file) ∈ pairsOf fh done →
  Name file ≠ dirName c'.
Proof.
  intros [Hc' Hother]%categories_other_last [Hc Hfile%Hcls]%elem_of_pairsOf Heq.
  rewrite Heq, categoryOf_dirName in Hfile.
  case_decide; simplify_eq; done.
Qed.

Lemma ensureDir_moved pairs c' :
  (∀ c file, (c, file) ∈ pairs → Name file ≠ dirName c') →
  triple (movedW pairs) (ensureDir (field c' (DirectoryMap fh)))
    (λ _, movedW pairs) any.
Proof.
  intros Hnames w Hw. rewrite run_ensureDir. cbn zeta.
  destruct (Stat _ _) as [i|err]; [done|].
  destruct (IsNotExist err); [|done].
  destruct (Mkdir _ _) as [fs'|err'] eqn:Hmk; [|done].
  apply Mkdir_Ok in Hmk as (Hnone & _ & Htree & _); [|by apply clean_dir with k].
  rewrite (resolve_dir _ _ Hplan) in Hnone, Htree.
  cbn [w_fs]. rewrite Htree. by apply moved_mkdir.
Qed.

Lemma moveFile_moved pairs c file :
  file ∈ Files (field c (DirectoryMap fh)) →
  triple (movedW pairs) (moveFile fh (field c (DirectoryMap fh)) file)
    (λ _, movedW (pairs ++ [(c, file)])) any.
Proof.
  intros Hfile w Hw. rewrite run_moveFile. cbn zeta.
  destruct (isExcluded _ _) eqn:Hex.
  { apply isExcluded_true in Hex. by apply moved_skip. }
  apply isExcluded_false in Hex.
  destruct (Rename _ _ _) as [fs'|err] eqn:Hmv; [|done].
  pose proof (plan_names _ _ Hplan _ _ Hfile) as Hname.
  apply Rename_Ok in Hmv as (_ & Hframe & Hnd);
    [|by apply clean_src with k|by apply clean_dst with k].
  rewrite (resolve_src _ _ Hplan), (resolve_dst _ _ Hplan) in Hframe, Hnd
    by done.
  by apply moved_rename with (fs_tree (w_fs w)).
Qed.

Lemma moveDir_moved done c' rest :
  categories = done ++ c' :: rest →
  triple (movedW (pairsOf fh done)) (moveDir fh (field c' (DirectoryMap fh)))
    (λ _, movedW (pairsOf fh (done ++ [c']))) any.
Proof.
  intros Hcats. eapply triple_bind.
  { apply ensureDir_moved. intros c file. by apply done_names with rest. }
  intros []. rewrite pairsOf_snoc.
  eapply triple_conseq;
    [apply (triple_forM_prefix _ _ (λ files,
       movedW (pairsOf fh done ++ ((λ file, (c', file)) <$> files))))|..].
  - intros files file Hpre. rewrite fmap_app, app_assoc. apply moveFile_moved.
    eapply elem_of_prefix; [|done]. set_solver.
  - intros w. by rewrite app_nil_r.
  - done.
  - done.
Qed.

Lemma MoveFiles_moved :
  triple (movedW []) (MoveFiles fh) (λ _, movedW (pairsOf fh categories)) any.
Proof.
  unfold MoveFiles. rewrite fields_categories, forM_fmap.
  apply (triple_forM_prefix _ _ (λ done, movedW (pairsOf fh done))).
  intros done c' [rest Hcats]. rewrite <-app_assoc in Hcats.
  by apply moveDir_moved with rest.
Qed.
End moves.

Lemma MoveFiles_done {FS} `{!FileSystem FS} fh k (w w' : world FS) :
  plan_ok fh k →
  (∀ c file, file ∈ Files (field c (DirectoryMap fh)) →
     categoryOf (Name file) = Ok c ∧
     (Name file ∉ Excluded fh →
      ∃ data, fs_tree (w_fs w) !! srcKey k file = Some (File data))) →
  run (MoveFiles fh) w = Done () w' →
  ∀ c file, file ∈ Files (field c (DirectoryMap fh)) → Name file ∉ Excluded fh →
    fs_tree (w_fs w') !! dstKey k c file = fs_tree (w_fs w) !! srcKey k file ∧
    fs_tree (w_fs w') !! srcKey k file = None.
Proof.
  intros Hplan Hfiles Hrun c file Hfile Hex.
  pose proof (MoveFiles_moved fh k (fs_tree (w_fs w)) Hplan) as Hmoved.
  specialize (Hmoved (λ c file Hin, proj2 (Hfiles c file Hin))
                     (λ c file Hin, proj1 (Hfiles c file Hin)) w).
  rewrite Hrun in Hmoved. eapply moved_done; [by apply Hmoved, moved_start| |done].
  apply elem_of_pairsOf. auto using elem_of_categories.
Qed.

(** C2: what a finished [MoveFiles] has done.  For a plan whose files are
    regular files of the working directory, each in the category of its
    name, when the run ends then every file of the plan that is not excluded
    is in the directory of its category, with the contents it had, and is no
    longer in the working directory. *)
Theorem MoveFiles_moves {FS} `{!FileSystem FS} fh k (w w' : world FS) :
  plan_ok fh k →
  (∀ c file, file ∈ Files (field c (DirectoryMap fh)) →
     categoryOf (Name file) = Ok c ∧
     (Name file ∉ Excluded fh →
      ∃ data, fs_tree (w_fs w) !! srcKey k file = Some (File data))) →
  run (MoveFiles fh) w = Done () w' →
  ∀ c file, file ∈ Files (field c (DirectoryMap fh)) → Name file ∉ Excluded fh →
    fs_tree (w_fs w') !! dstKey k c file = fs_tree (w_fs w) !! srcKey k file ∧
    fs_tree (w_fs w') !! srcKey k file = None.
Proof. apply MoveFiles_done. Qed.
