(* ===== verification/Liveness.v ===== *)
(** * When moving the files ends

    [MoveFiles] stops at the first error.  On a file system on which a call
    succeeds whenever the tree allows it ([Reliable]) the run ends when the
    working directory is a directory, no regular file has the name of the
    directory of a category, no directory is where a file is to go, the
    files of the plan are regular files of the working directory, each in
    the category of its name, and their names are distinct.  The proof
    follows the program: the invariant [ready] says that the tree still
    allows the calls to come, and [moved] of [MoveFiles] which files are
    done. *)

From S2P Require Import Prelude GoRuntime Os Classify Handler MoveFiles.

(** ** The invariant *)

(** The tree allows the calls of [MoveFiles]: the working directory is a
    directory, what has the name of the directory of a category is a
    directory, and no directory is where a file of the plan is to go. *)
Record ready (fh : FileHandler) (k : path) (t : gmap path node) : Prop := {
  ready_wd : t !! k = Some Folder;
  ready_dirs c : t !! dirKey k c = None ∨ t !! dirKey k c = Some Folder;
  ready_dst c file :
    file ∈ Files (field c (DirectoryMap fh)) → Name file ∉ Excluded fh →
    t !! dstKey k c file ≠ Some Folder;
}.

(** ** The invariant and the changes of the tree *)

Section ready.
Context (fh : FileHandler) (k : path).
Implicit Types (c : Category) (file : FileInfo) (t : gmap path node).

Lemma path_ne_snoc (p : path) l : l ≠ [] → p ≠ p ++ l.
Proof. intros Hl Heq. apply Hl. by apply (inj (app p)); rewrite app_nil_r. Qed.

Lemma ready_mkdir t c' :
  ready fh k t → ready fh k (<[dirKey k c' := Folder]> t).
Proof.
  intros [Hwd Hdirs Hdst]. split.
  - rewrite lookup_insert_ne; [done|]. intros Heq. by apply (path_ne_snoc k [dirName c']).
  - intros c. destruct (decide (dirKey k c' = dirKey k c)) as [->|].
    + right. apply lookup_insert_eq.
    + by rewrite lookup_insert_ne.
  - intros c file Hfile Hex. rewrite lookup_insert_ne; [by apply Hdst|].
    apply dirKey_ne_dstKey.
Qed.

Lemma ready_rename t c file data :
  ready fh k t → t !! srcKey k file = Some (File data) →
  ready fh k (<[dstKey k c file := File data]> (delete (srcKey k file) t)).
Proof.
  intros [Hwd Hdirs Hdst] Hsrc. split.
  - rewrite lookup_renamed; [done|..]; intros Heq.
    + by apply (path_ne_snoc k [Name file]).
    + by apply (path_ne_snoc k [dirName c; Name file]).
  - intros c1. rewrite lookup_renamed; [done| |apply dirKey_ne_dstKey].
    intros Heq. destruct (Hdirs c1) as [H1|H1]; congruence.
  - intros c1 f1 Hf1 Hex1.
    destruct (decide (dstKey k c1 f1 = dstKey k c file)) as [->|].
    { by rewrite lookup_renamed_new. }
    destruct (decide (dstKey k c1 f1 = srcKey k file)) as [->|].
    { rewrite lookup_renamed_old; [done|]. apply srcKey_ne_dstKey. }
    rewrite lookup_renamed by done. by apply Hdst.
Qed.

Lemma names_pairsOf :
  (λ p : Category * FileInfo, Name p.2) <$> pairsOf fh categories =
  Name <$> mjoin (Files <$> fields (DirectoryMap fh)).
Proof.
  unfold pairsOf. rewrite fields_categories.
  induction categories as [|c cs IH]; [done|].
  rewrite bind_cons, !fmap_cons, fmap_app, IH, <-list_fmap_compose.
  change (mjoin (?l :: ?ls)) with (l ++ mjoin ls). by rewrite fmap_app.
Qed.

Lemma removelast_dirKey c : removelast (dirKey k c) = k.
Proof. apply removelast_last. Qed.

Lemma removelast_dstKey c file : removelast (dstKey k c file) = dirKey k c.
Proof.
  unfold dstKey, dirKey.
  change [dirName c; Name file] with ([dirName c] ++ [Name file]).
  by rewrite app_assoc, removelast_last.
Qed.
End ready.

(** ** The steps of the program *)

Section ends.
Context {FS : Type} `{!FileSystem FS, !Reliable FS}.
Context (fh : FileHandler) (k : path) (t0 : gmap path node).
Context (Hplan : plan_ok fh k).
Context (Hsrc : ∀ c file,
  file ∈ Files (field c (DirectoryMap fh)) → Name file ∉ Excluded fh →
  ∃ data, t0 !! srcKey k file = Some (File data)).
Context (Hcls : ∀ c file,
  file ∈ Files (field c (DirectoryMap fh)) → categoryOf (Name file) = Ok c).
Context (Hnodup : NoDup ((λ p, Name p.2) <$> pairsOf fh categories)).
Implicit Types (w : world FS) (c : Category) (file : FileInfo).
Implicit Types (pairs : list (Category * FileInfo)) (done : list Category).

Local Notation inv pairs := (λ w,
  ready fh k (fs_tree (w_fs w)) ∧ moved fh k t0 pairs (fs_tree (w_fs w))).
Local Notation in_dir c := (λ w, fs_tree (w_fs w) !! dirKey k c = Some Folder).
Local Notation never := (λ (_ : panic_value) (_ : world FS), False).

Lemma ensureDir_ends pairs c' :
  (∀ c file, (c, file) ∈ pairs → Name file ≠ dirName c') →
  triple (inv pairs) (ensureDir (field c' (DirectoryMap fh)))
    (λ _ w, inv pairs w ∧ in_dir c' w) never.
Proof.
  intros Hnames w [Hready Hmoved]. rewrite run_ensureDir. cbn zeta.
  pose proof (clean_dir _ _ Hplan c') as Hclean.
  pose proof (resolve_dir _ _ Hplan (fs_cwd (w_fs w)) c') as Hk.
  destruct (ready_dirs _ _ _ Hready c') as [Hnone|Hdir].
  - assert (fs_tree (w_fs w) !! removelast (dirKey k c') = Some Folder) as Hwd.
    { rewrite removelast_dirKey. apply Hready. }
    rewrite <-Hk in Hnone, Hwd.
    destruct (Stat_absent (w_fs w) _ Hclean Hnone Hwd) as (err & -> & ->).
    destruct (Mkdir_absent (w_fs w) _ Hclean Hnone Hwd) as [fs' Hmk].
    rewrite Hmk. apply Mkdir_Ok in Hmk as (_ & _ & Htree & _); [|done].
    rewrite Hk in Hnone, Htree. cbn [w_fs]. rewrite Htree.
    split_and!; [by apply ready_mkdir|by apply moved_mkdir|apply lookup_insert_eq].
  - destruct (Stat_exists (w_fs w) _ Hclean) as [i ->]; [|done].
    rewrite Hk, Hdir. eauto.
Qed.

Lemma moveFile_ends pairs c file :
  file ∈ Files (field c (DirectoryMap fh)) →
  Name file ∉ (λ p, Name p.2) <$> pairs →
  triple (λ w, inv pairs w ∧ in_dir c w)
    (moveFile fh (field c (DirectoryMap fh)) file)
    (λ _ w, inv (pairs ++ [(c, file)]) w ∧ in_dir c w) never.
Proof.
  intros Hfile Hfresh w [[Hready Hmoved] Hdir]. rewrite run_moveFile. cbn zeta.
  destruct (isExcluded _ _) eqn:Hex.
  { apply isExcluded_true in Hex. split_and!; [done|by apply moved_skip|done]. }
  apply isExcluded_false in Hex.
  pose proof (plan_names _ _ Hplan _ _ Hfile) as Hname.
  pose proof (clean_src _ _ Hplan file Hname) as Hold.
  pose proof (clean_dst _ _ Hplan c file Hname) as Hnew.
  pose proof (resolve_src _ _ Hplan (fs_cwd (w_fs w)) file Hname) as Hko.
  pose proof (resolve_dst _ _ Hplan (fs_cwd (w_fs w)) c file Hname) as Hkn.
  destruct (Hsrc c file Hfile Hex) as [data Hdata].
  rewrite <-(moved_todo _ _ _ _ _ Hmoved c file Hfile Hex Hfresh) in Hdata.
  destruct (Rename_file (w_fs w) _ _ data Hold Hnew) as [fs' Hmv].
  { by rewrite Hko. }
  { rewrite Hkn. by apply Hready. }
  { by rewrite Hkn, removelast_dstKey. }
  rewrite Hmv. apply Rename_Ok in Hmv as (_ & Heff); [|done..].
  rewrite Hko, Hkn in Heff. cbn [w_fs].
  split_and!; [|by apply (moved_rename fh k t0 Hsrc) with (fs_tree (w_fs w))|].
  - destruct Heff as (_ & nd & Hnd & Hren). rewrite Hdata in Hnd.
    injection Hnd as <-. destruct Hren as (_ & _ & ->); [done|].
    by apply ready_rename.
  - destruct Heff as [Hframe _]. rewrite Hframe; [done|..]; intros Hpre.
    + apply prefix_snoc_ne in Hpre; [done|]. intros Heq.
      unfold srcKey, dirKey in *. rewrite Heq in Hdata. congruence.
    + apply prefix_length in Hpre. unfold dstKey, dirKey in Hpre.
      rewrite !length_app in Hpre. cbn in Hpre. lia.
Qed.
(** The name of the file that comes next is not the name of a file that is
    done. *)
Lemma fresh_name done c' rest files file :
  categories = done ++ c' :: rest →
  files ++ [file] `prefix_of` Files (field c' (DirectoryMap fh)) →
  Name file ∉ (λ p, Name p.2) <$>
    (pairsOf fh done ++ ((λ file, (c', file)) <$> files)).
Proof.
  intros Hcats [others Hfiles].
  assert (pairsOf fh categories =
    (pairsOf fh done ++ ((λ file, (c', file)) <$> files)) ++
    (c', file) :: (((λ file, (c', file)) <$> others) ++ pairsOf fh rest)) as Heq.
  { rewrite Hcats. unfold pairsOf. rewrite bind_app, bind_cons, Hfiles, !fmap_app.
    cbn. by rewrite <-!app_assoc. }
  pose proof Hnodup as Hnd. rewrite Heq, fmap_app, fmap_cons in Hnd.
  apply NoDup_app in Hnd as (_ & Hdisj & _).
  intros Hin. apply (Hdisj _ Hin). by left.
Qed.

Lemma moveDir_ends done c' rest :
  categories = done ++ c' :: rest →
  triple (inv (pairsOf fh done)) (moveDir fh (field c' (DirectoryMap fh)))
    (λ _, inv (pairsOf fh (done ++ [c']))) never.
Proof.
  intros Hcats. eapply triple_bind.
  { apply ensureDir_ends. intros c file. by apply (done_names fh Hcls done c' rest). }
  intros []. rewrite pairsOf_snoc.
  eapply triple_conseq;
    [apply (triple_forM_prefix _ _ (λ files w,
       inv (pairsOf fh done ++ ((λ file, (c', file)) <$> files)) w ∧
       in_dir c' w))|..].
  - intros files file Hpre. rewrite fmap_app, app_assoc. apply moveFile_ends.
    + eapply elem_of_prefix; [|done]. set_solver.
    + by apply fresh_name with rest.
  - intros w. by rewrite app_nil_r.
  - by intros _ w [? _].
  - done.
Qed.

Lemma MoveFiles_never_crashes :
  triple (inv []) (MoveFiles fh) (λ _, inv (pairsOf fh categories)) never.
Proof.
  unfold MoveFiles. rewrite fields_categories, forM_fmap.
  apply (triple_forM_prefix _ _ (λ done, inv (pairsOf fh done))).
  intros done c' [rest Hcats]. rewrite <-app_assoc in Hcats.
  by apply moveDir_ends with rest.
Qed.
End ends.

Lemma MoveFiles_is_Done {FS} `{!FileSystem FS, !Reliable FS} fh k (w : world FS) :
  plan_ok fh k → ready fh k (fs_tree (w_fs w)) →
  (∀ c file, file ∈ Files (field c (DirectoryMap fh)) →
     categoryOf (Name file) = Ok c ∧
     (Name file ∉ Excluded fh →
      ∃ data, fs_tree (w_fs w) !! srcKey k file = Some (File data))) →
  NoDup (Name <$> mjoin (Files <$> fields (DirectoryMap fh))) →
  is_Done (run (MoveFiles fh) w).
Proof.
  intros Hplan Hready Hfiles Hnodup.
  destruct (triple_is_Done (MoveFiles fh) _ _ w
    (MoveFiles_never_crashes fh k (fs_tree (w_fs w)) Hplan
       (λ c file Hin, proj2 (Hfiles c file Hin))
       (λ c file Hin, proj1 (Hfiles c file Hin))
       ltac:(by rewrite names_pairsOf))) as (a & w' & Hrun & _).
  - split; [done|apply moved_start].
  - by exists a, w'.
Qed.

(** C14: when [MoveFiles] ends.  On a file system on which a call succeeds
    whenever the tree allows it, for a plan whose files are regular files of
    the working directory, each in the category of its name and with names
    that are distinct, [MoveFiles] ends without a panic if the working
    directory is a directory, nothing but a directory has the name of the
    directory of a category, and no directory is where a file is to go. *)
Theorem MoveFiles_ends {FS} `{!FileSystem FS, !Reliable FS} fh k (w : world FS) :
  plan_ok fh k → ready fh k (fs_tree (w_fs w)) →
  (∀ c file, file ∈ Files (field c (DirectoryMap fh)) →
     categoryOf (Name file) = Ok c ∧
     (Name file ∉ Excluded fh →
      ∃ data, fs_tree (w_fs w) !! srcKey k file = Some (File data))) →
  NoDup (Name <$> mjoin (Files <$> fields (DirectoryMap fh))) →
  is_Done (run (MoveFiles fh) w).
Proof. apply MoveFiles_is_Done. Qed.
