(* ===== verification/PosixFS.v ===== *)
(** * A deterministic file system

    An instance of the class [FileSystem] of [Os]: the state is the tree of
    entries, a finite map from resolved paths to nodes, and the working
    directory of the process.  Every operation succeeds whenever the tree
    allows it and fails with the error number of the system call otherwise.
    The instance shows that the laws of [FileSystem] can be satisfied, and
    complete runs of the program are computed on it.  Path names with [.] or
    [..] components, permissions and symbolic links are not modelled: an
    operation on a path name that is not [clean] fails with [EINVAL]. *)

From S2P Require Import Prelude GoRuntime Os.

(** ** State *)

Record posix : Type := Posix {
  p_tree : gmap path node;
  p_cwd : path;
}.

#[export] Instance posix_eq_dec : EqDecision posix.
Proof. solve_decision. Defined.

(** ** Operations *)

(** The name of the entry [p] if it is an entry of the directory [k]. *)
Definition child_name (k p : path) : option string :=
  n ← last p; if decide (p = k ++ [n]) then Some n else None.

(** The names of the entries of the directory [k], sorted. *)
Definition child_names (t : gmap path node) (k : path) : list string :=
  merge_sort String.le (omap (child_name k) (elements (dom t))).

Definition entry_of (t : gmap path node) (k : path) (n : string) : DirEntry :=
  mkDirEntry n (from_option is_folder false (t !! (k ++ [n]))).

(** The error number for a path that does not exist: [ENOTDIR] if what
    should be its directory is a regular file. *)
Definition missing (t : gmap path node) (k : path) : errno :=
  match t !! removelast k with
  | Some (File _) => ENOTDIR
  | _ => ENOENT
  end.

Definition posix_Abs (fs : posix) (p : string) : result error string :=
  Ok (render (normalise (resolve (p_cwd fs) p))).

Definition posix_ReadDir (fs : posix) (d : string) :
    result error (list DirEntry) :=
  let k := resolve (p_cwd fs) d in
  if decide (clean d) then
    match p_tree fs !! k with
    | Some Folder => Ok (entry_of (p_tree fs) k <$> child_names (p_tree fs) k)
    | Some (File _) => Panic (PathError "open" d ENOTDIR)
    | None => Panic (PathError "open" d (missing (p_tree fs) k))
    end
  else Panic (PathError "open" d EINVAL).

Definition posix_Info (fs : posix) (d : string) (e : DirEntry) :
    result error FileInfo :=
  let k := resolve (p_cwd fs) d ++ [EntryName e] in
  if decide (clean d) then
    match p_tree fs !! k with
    | Some nd => Ok (info_of (EntryName e) nd)
    | None => Panic (PathError "lstat" (d </> EntryName e) ENOENT)
    end
  else Panic (PathError "lstat" (d </> EntryName e) EINVAL).

Definition posix_Stat (fs : posix) (p : string) : result error FileInfo :=
  let k := resolve (p_cwd fs) p in
  if decide (clean p) then
    match p_tree fs !! k with
    | Some nd => Ok (info_of (default "/" (last k)) nd)
    | None => Panic (PathError "stat" p (missing (p_tree fs) k))
    end
  else Panic (PathError "stat" p EINVAL).

Definition posix_Mkdir (fs : posix) (p : string) : result error posix :=
  let k := resolve (p_cwd fs) p in
  if decide (clean p) then
    match p_tree fs !! k with
    | Some _ => Panic (PathError "mkdir" p EEXIST)
    | None =>
        match p_tree fs !! removelast k with
        | Some Folder => Ok (Posix (<[k := Folder]> (p_tree fs)) (p_cwd fs))
        | Some (File _) => Panic (PathError "mkdir" p ENOTDIR)
        | None => Panic (PathError "mkdir" p ENOENT)
        end
    end
  else Panic (PathError "mkdir" p EINVAL).

(** The tree after the directory [ko] and everything below it has moved to
    [kn]. *)
Definition move_subtree (ko kn : path) (t : gmap path node) : gmap path node :=
  list_to_map
    ((λ '(p, nd), (kn ++ drop (length ko) p, nd)) <$>
     map_to_list (filter (λ '(p, _), ko `prefix_of` p) t)) ∪
  filter (λ '(p, _), ¬ ko `prefix_of` p ∧ ¬ kn `prefix_of` p) t.

Definition posix_Rename (fs : posix) (old new : string) : result error posix :=
  let t := p_tree fs in
  let ko := resolve (p_cwd fs) old in
  let kn := resolve (p_cwd fs) new in
  let fail e := Panic (LinkError "rename" old new e) in
  if decide (clean old ∧ clean new) then
    match t !! ko with
    | None => fail (missing t ko)
    | Some nd =>
        if decide (t !! kn = Some Folder) then fail EEXIST
        else match t !! removelast kn with
             | None => fail ENOENT
             | Some (File _) => fail ENOTDIR
             | Some Folder =>
                 match nd with
                 | File _ => Ok (Posix (<[kn := nd]> (delete ko t)) (p_cwd fs))
                 | Folder =>
                     if decide (is_Some (t !! kn)) then fail ENOTDIR
                     else if decide (ko `prefix_of` kn) then fail EINVAL
                     else Ok (Posix (move_subtree ko kn t) (p_cwd fs))
                 end
             end
    end
  else fail EINVAL.

(** ** The laws *)

Section laws.
Implicit Types (fs : posix) (t : gmap path node) (k p : path) (n : string).

Lemma child_name_Some k p n : child_name k p = Some n ↔ p = k ++ [n].
Proof.
  unfold child_name. split.
  - destruct (last p) as [n'|]; cbn; [|done]. by case_decide; intros [= <-].
  - intros ->. rewrite last_snoc. cbn. by rewrite decide_True.
Qed.

Lemma elem_of_child_names t k n :
  n ∈ child_names t k ↔ is_Some (t !! (k ++ [n])).
Proof.
  unfold child_names. rewrite merge_sort_Permutation, list_elem_of_omap.
  setoid_rewrite child_name_Some. setoid_rewrite elem_of_elements.
  setoid_rewrite elem_of_dom. split; [by intros (? & ? & ->)|eauto].
Qed.

Lemma NoDup_child_names t k : NoDup (child_names t k).
Proof.
  unfold child_names. rewrite merge_sort_Permutation.
  apply NoDup_omap; [|apply NoDup_elements].
  intros p1 p2 n ->%child_name_Some ->%child_name_Some. done.
Qed.

Lemma Sorted_child_names t k : StronglySorted String.le (child_names t k).
Proof. apply (StronglySorted_merge_sort _). Qed.

Lemma move_subtree_frame ko kn t p :
  ¬ ko `prefix_of` p → ¬ kn `prefix_of` p →
  move_subtree ko kn t !! p = t !! p.
Proof.
  intros Hko Hkn. unfold move_subtree. rewrite lookup_union_r.
  - rewrite map_lookup_filter. destruct (t !! p) as [nd|]; cbn; [|done].
    by rewrite option_guard_True.
  - apply not_elem_of_list_to_map_1. rewrite <-list_fmap_compose.
    intros ([p' nd] & -> & _)%list_elem_of_fmap. apply Hkn. by eexists.
Qed.

Lemma insert_delete_frame ko kn nd t p :
  ¬ ko `prefix_of` p → ¬ kn `prefix_of` p →
  <[kn := nd]> (delete ko t) !! p = t !! p.
Proof.
  intros Hko Hkn. rewrite lookup_insert_ne, lookup_delete_ne; [done|..];
    by intros ->.
Qed.

Lemma EntryName_entry_of t k (names : list string) :
  EntryName <$> (entry_of t k <$> names) = names.
Proof. rewrite <-list_fmap_compose. apply list_fmap_id. Qed.
End laws.

#[export, refine] Instance posix_fs : FileSystem posix := {
  fs_tree := p_tree;
  fs_cwd := p_cwd;
  Abs := posix_Abs;
  ReadDir := posix_ReadDir;
  Info := posix_Info;
  Stat := posix_Stat;
  Mkdir := posix_Mkdir;
  Rename := posix_Rename;
}.
Proof.
  - by intros fs p a [= <-].
  - intros fs d es Hd. unfold posix_ReadDir. rewrite decide_True by done.
    destruct (p_tree fs !! _) as [[]|] eqn:Hk; intros [= <-]. cbn zeta.
    rewrite EntryName_entry_of.
    split_and!; [done|apply Sorted_child_names|apply NoDup_child_names|].
    intros n b. rewrite list_elem_of_fmap. split.
    + intros (n' & [= -> ->] & [nd Hnd]%elem_of_child_names).
      exists nd. by rewrite Hnd.
    + intros (nd & Hnd & ->). exists n. split.
      * unfold entry_of. by rewrite Hnd.
      * apply elem_of_child_names. by rewrite Hnd.
  - intros fs d e i Hd. unfold posix_Info. rewrite decide_True by done.
    destruct (p_tree fs !! _) as [nd|] eqn:Hk; intros [= <-]. eauto.
  - intros fs p i Hp. unfold posix_Stat. rewrite decide_True by done.
    destruct (p_tree fs !! _) as [nd|] eqn:Hk; intros [= <-].
    exists nd. split; [done|]. by destruct nd.
  - intros fs p err Hp. unfold posix_Stat. rewrite decide_True by done.
    by destruct (p_tree fs !! _) as [nd|] eqn:Hk.
  - intros fs p fs' Hp. unfold posix_Mkdir. rewrite decide_True by done.
    destruct (p_tree fs !! resolve _ _) as [nd|] eqn:Hk; [done|].
    destruct (p_tree fs !! removelast _) as [[]|] eqn:Hparent; intros [= <-].
    done.
  - intros fs old new fs' Hold Hnew. unfold posix_Rename.
    rewrite decide_True by done.
    destruct (p_tree fs !! resolve _ old) as [nd|] eqn:Hko; [|done].
    case_decide as Hkn; [done|].
    destruct (p_tree fs !! removelast _) as [[]|] eqn:Hparent; [done| |done].
    destruct nd as [data|].
    + intros [= <-]. split_and!; [done|apply insert_delete_frame|].
      exists (File data). by split.
    + repeat case_decide; try done. intros [= <-].
      split_and!; [done|apply move_subtree_frame|]. exists Folder. by split.
Defined.

(** On this file system a call succeeds whenever the tree allows it. *)
#[export] Instance posix_reliable : Reliable posix.
Proof.
  split.
  - intros fs p. apply is_Ok_Ok.
  - intros fs d Hd Hk. cbn in *. unfold posix_ReadDir.
    rewrite decide_True, Hk by done. apply is_Ok_Ok.
  - intros fs d e Hd [nd Hnd]. cbn in *. unfold posix_Info.
    rewrite decide_True, Hnd by done. apply is_Ok_Ok.
  - intros fs p Hp [nd Hnd]. cbn in *. unfold posix_Stat.
    rewrite decide_True, Hnd by done. apply is_Ok_Ok.
  - intros fs p Hp k Hk Hparent. cbn in *. unfold posix_Stat, missing.
    rewrite decide_True by done. fold k. rewrite Hk, Hparent. eauto.
  - intros fs p Hp k Hk Hparent. cbn in *. unfold posix_Mkdir.
    rewrite decide_True by done. fold k. rewrite Hk, Hparent. apply is_Ok_Ok.
  - intros fs old new data Hold Hnew ko kn Hko Hkn Hparent. cbn in *.
    unfold posix_Rename. rewrite decide_True by done. fold ko kn.
    rewrite Hko, decide_False, Hparent by done. apply is_Ok_Ok.
Qed.

