(* ===== verification/Run.v ===== *)
(** * The command [sort]

    [run] ([src/cmd/sort.go:23]) reads the flags, builds the handler with
    [InitializeFileHandler], [FilterDirectories] and [SortFiles], and hands it
    to [DryRun] or to [MoveFiles].  This file composes the components the way
    [run] does, proves what a complete run guarantees on every file system,
    and computes the runs of the specification's scenarios on the file
    system of [PosixFS].  The writer of the table of a dry run is the
    parameter [tw] of [run]. *)

From S2P Require Import Prelude GoRuntime Os Tabwriter Classify Handler DryRun.
From S2P Require Import MoveFiles Liveness.
From S2P Require Import PosixFS.

(** ** The command *)

(** The flags of the command as [cmd.Flags()] gives them: a lookup fails
    when the flag is not defined or has another type. *)
Record Flags : Type := mkFlags {
  GetBool : string → result error bool;
  GetStringArray : string → result error (list string);
}.

(** The flags that [init] defines, with the values of a command line. *)
Definition sortFlags (dryRun : bool) (exclude : list string) : Flags := {|
  GetBool name :=
    if decide (name = "dry-run") then Ok dryRun
    else Panic (ErrorString "flag accessed but not defined");
  GetStringArray name :=
    if decide (name = "exclude") then Ok exclude
    else Panic (ErrorString "flag accessed but not defined");
|}.

Module cmd.
Section with_fs.
Context {FS : Type} `{!FileSystem FS}.

(** The chain of calls that builds the plan. *)
Definition build (pwd : string) (excluded : list string) : io FS FileHandler :=
  fileHandler ← InitializeFileHandler pwd excluded;
  fileHandler ← FilterDirectories fileHandler;
  lift (SortFiles fileHandler).

Definition run (tw : TabWriter) (flags : Flags) (args : list string) :
    io FS () :=
  match GetBool flags "dry-run" with
  | Panic err => panic (PanicError err)
  | Ok isDryRun =>
      match GetStringArray flags "exclude" with
      | Panic _ => mret ()
      | Ok array =>
          pwd ← lift (index args 0);
          fileSorter ← build pwd array;
          if isDryRun : bool then DryRun tw fileSorter
          else MoveFiles fileSorter
      end
  end.
End with_fs.
End cmd.

(** The working directory of a run: what the argument resolves to. *)
Definition workDir {FS} `{!FileSystem FS} (w : world FS) (pwd : string) : path :=
  normalise (resolve (fs_cwd (w_fs w)) pwd).

(** ** A file system for the scenarios *)

(** The tree with the directories of [dirs] and the files of [files]. *)
Definition mkTree (dirs : list string) (files : list (string * string)) :
    gmap path node :=
  list_to_map (((λ d, (components d, Folder)) <$> dirs) ++
               ((λ f, (components f.1, File f.2)) <$> files)).

Definition demo : world posix :=
  World (Posix (mkTree ["/"; "/home"; "/home/u"; "/home/u/box"; "/home/u/box/sub"]
                  [("/home/u/box/a.png", "PNG"); ("/home/u/box/b.txt", "text");
                   ("/home/u/box/c.unknown", "?"); ("/home/u/box/sub/d.png", "PNG");
                   ("/home/u/e.pdf", "%PDF")])
           (components "/home/u")) [].

(** [demo] after the files of [box] have been moved, [b.txt] excluded. *)
Definition demo_sorted : posix :=
  Posix (mkTree ["/"; "/home"; "/home/u"; "/home/u/box"; "/home/u/box/sub";
                 "/home/u/box/images"; "/home/u/box/documents";
                 "/home/u/box/pdf"; "/home/u/box/media"; "/home/u/box/zips";
                 "/home/u/box/programming"; "/home/u/box/other"]
           [("/home/u/box/images/a.png", "PNG"); ("/home/u/box/b.txt", "text");
            ("/home/u/box/other/c.unknown", "?");
            ("/home/u/box/sub/d.png", "PNG"); ("/home/u/e.pdf", "%PDF")])
        (components "/home/u").

(** The plan for [box] with [b.txt] excluded. *)
Definition demo_plan : FileHandler :=
  let dir c files := mkDirInfo ("/home/u/box" </> dirName c) files in
  let a := mkFileInfo "a.png" 3 false in
  let b := mkFileInfo "b.txt" 4 false in
  let c := mkFileInfo "c.unknown" 1 false in
  mkFileHandler
    (mkNewDirsMap (dir images [a]) (dir documents [b]) (dir pdf []) (dir media [])
       (dir zips []) (dir programming []) (dir other [c]))
    [a; b; c] ["b.txt"] "/home/u/box".

(** The handler for [box] as [InitializeFileHandler] returns it, and after
    [FilterDirectories]. *)
Definition demo_init : FileHandler := initialHandler "/home/u/box" ["b.txt"].
Definition demo_scanned : FileHandler := set_RawFiles (RawFiles demo_plan) demo_init.

(** The row of the table of [DryRun] for a short name. *)
Definition demo_row (name dir : string) : string :=
  name +:+ " " +:+ string_replicate (67 - String.length name) "-" +:+ "--> " +:+
  tab +:+ dir +:+ tab +:+ nl.

(** A layout that leaves the text as it was written. *)
Definition plain (text : list string) : string := foldr String.append "" text.

(** The directory of [demo] with a file that has the name of a category, and
    with a file of the name of [a.png] already in [images]. *)
Definition named_pdf : world posix :=
  World (Posix (mkTree ["/"; "/box"] [("/box/pdf", "x")]) []) [].

Definition collision : world posix :=
  World (Posix (mkTree ["/"; "/box"; "/box/images"]
                  [("/box/a.png", "new"); ("/box/images/a.png", "old")]) []) [].

(** ** The plan that [build] makes *)

Section build.
Context {FS : Type} `{!FileSystem FS}.
Implicit Types (w : world FS) (fh : FileHandler) (c : Category).
Implicit Types (file : FileInfo) (k : path).

Lemma run_build pwd excluded w :
  run (cmd.build pwd excluded) w =
  match Abs (w_fs w) pwd with
  | Panic err => Crash (PanicError err) w
  | Ok wd =>
      match ReadDir (w_fs w) wd with
      | Panic err => Crash (PanicError err) w
      | Ok es =>
          match collectFiles (w_fs w) wd [] es with
          | Panic err => Crash (PanicError err) w
          | Ok files =>
              match SortFiles (set_RawFiles files (initialHandler wd excluded)) with
              | Ok fh => Done fh w
              | Panic e => Crash e w
              end
          end
      end
  end.
Proof.
  unfold cmd.build. rewrite run_bind, run_InitializeFileHandler.
  destruct (Abs _ _) as [wd|err]; [|done].
  rewrite run_bind, run_FilterDirectories. cbn [WorkingDir initialHandler].
  destruct (ReadDir _ _) as [es|err]; [|done].
  by destruct (collectFiles _ _ _ _) as [files|err].
Qed.

(** [build] leaves the world as it is. *)
Lemma final_build pwd excluded w : final (run (cmd.build pwd excluded) w) = w.
Proof. rewrite run_build. by repeat case_match. Qed.

Lemma workDir_valid w pwd :
  Forall valid_name (fs_cwd (w_fs w)) → Forall valid_name (workDir w pwd).
Proof. intros. by apply normalise_valid, resolve_Forall. Qed.

(** The handler that [build] returns is a plan for the working directory,
    and its categories hold the regular files of the working directory. *)
Lemma build_plan pwd excluded w fh w' :
  tree_wf (fs_tree (w_fs w)) → Forall valid_name (fs_cwd (w_fs w)) →
  run (cmd.build pwd excluded) w = Done fh w' →
  let k := workDir w pwd in
  w' = w ∧ plan_ok fh k ∧ Excluded fh = excluded ∧
  NoDup (Name <$> mjoin (Files <$> fields (DirectoryMap fh))) ∧
  ∀ c file, file ∈ Files (field c (DirectoryMap fh)) ↔
    categoryOf (Name file) = Ok c ∧
    ∃ data, fs_tree (w_fs w) !! (k ++ [Name file]) = Some (File data) ∧
            file = info_of (Name file) (File data).
Proof.
  intros [_ Hwf] Hcwd Hrun k. pose proof (workDir_valid w pwd Hcwd) as Hk.
  rewrite run_build in Hrun.
  destruct (Abs _ _) as [wd|] eqn:Hwd; [|done]. apply Abs_Ok in Hwd as ->.
  destruct (ReadDir _ _) as [es|] eqn:Hes; [|done].
  destruct (collectFiles _ _ _ _) as [files|] eqn:Hfiles; [|done].
  destruct (SortFiles _) as [fh'|] eqn:Hsort; [|done].
  injection Hrun as -> ->.
  assert (mjoin (Files <$> fields (DirectoryMap fh)) ≡ₚ files) as Hperm.
  { eapply foldM_sortFile_partition; [|exact Hsort]. intros c.
    cbn [DirectoryMap set_RawFiles]. by rewrite field_initialHandler. }
  apply foldM_sortFile_Ok in Hsort as ((_ & Hex & Hwd & Hpaths) & _ & Hsorted).
  cbn [DirectoryMap WorkingDir Excluded RawFiles set_RawFiles app] in *.
  apply collectFiles_Ok in Hfiles as (infos & -> & Hinfos).
  pose proof (scan_NoDup _ _ _ _ (clean_render _ Hk) Hes Hinfos) as Hnodup.
  eapply scan_files in Hinfos as [_ Hscan]; [|by apply clean_render|done].
  rewrite resolve_render in Hscan by done.
  assert (∀ c file, file ∈ Files (field c (DirectoryMap fh)) ↔
    categoryOf (Name file) = Ok c ∧ file ∈ infos) as Hin.
  { intros c file. rewrite Hsorted, field_initialHandler. cbn.
    unfold filesOf. by rewrite list_elem_of_filter. }
  split_and!; [done| |done|by rewrite Hperm|].
  - split; [done..| |].
    + intros c. by rewrite Hpaths, Hwd, field_initialHandler.
    + intros c file [_ (data & Hdata & _)%Hscan]%Hin. by apply Hwf in Hdata as [? _].
  - intros c file. rewrite Hin. by rewrite Hscan.
Qed.
End build.

(** ** Complete runs *)

Section run.
Context {FS : Type} `{!FileSystem FS}.
Implicit Types (w : world FS) (fh : FileHandler) (k p : path).

Lemma run_sort tw dryRun excluded pwd w :
  run (cmd.run tw (sortFlags dryRun excluded) [pwd]) w =
  match run (cmd.build pwd excluded) w with
  | Done fh w' =>
      if dryRun then run (DryRun tw fh) w' else run (MoveFiles fh) w'
  | Crash e w' => Crash e w'
  end.
Proof.
  unfold cmd.run. cbn [GetBool GetStringArray sortFlags].
  rewrite !decide_True by done. rewrite index_head, run_bind.
  cbn [lift run]. rewrite run_bind. destruct (run (cmd.build _ _) w) as [fh w'|e w']; [|done].
  by destruct dryRun.
Qed.

(** What a run does to the file system is what [MoveFiles] does with the
    plan of [build], if it gets that far. *)
Lemma run_sort_steps tw dryRun excluded pwd w :
  tree_wf (fs_tree (w_fs w)) → Forall valid_name (fs_cwd (w_fs w)) →
  let w' := final (run (cmd.run tw (sortFlags dryRun excluded) [pwd]) w) in
  fs_tree (w_fs w') = fs_tree (w_fs w) ∨
  ∃ fh, Excluded fh = excluded ∧
    rtc (move_step fh (workDir w pwd)) (fs_tree (w_fs w)) (fs_tree (w_fs w')).
Proof.
  intros Hwf Hcwd. cbn zeta. rewrite run_sort.
  destruct (run (cmd.build _ _) w) as [fh w1|e w1] eqn:Hbuild.
  - apply build_plan in Hbuild as (-> & Hplan & Hex & _ & _); [|done..].
    destruct dryRun; [left; by destruct (DryRun_final tw fh w) as [-> _]|].
    right. exists fh. split; [done|]. by apply MoveFiles_steps.
  - left. pose proof (final_build pwd excluded w) as Hw.
    rewrite Hbuild in Hw. cbn in *. by subst.
Qed.

(** C5: the plan that [build] makes.  On a well-formed tree, when the chain
    [InitializeFileHandler(pwd, excluded).FilterDirectories().SortFiles()]
    returns, the world is as it was, the handler is a plan for the directory
    that [pwd] resolves to, its exclusion list is [excluded], and the files
    of a category are exactly the regular files of that directory whose name
    [categoryOf] sorts into the category. *)
Theorem build_spec pwd excluded w fh w' :
  tree_wf (fs_tree (w_fs w)) → Forall valid_name (fs_cwd (w_fs w)) →
  run (cmd.build pwd excluded) w = Done fh w' →
  let k := workDir w pwd in
  w' = w ∧ plan_ok fh k ∧ Excluded fh = excluded ∧
  NoDup (Name <$> mjoin (Files <$> fields (DirectoryMap fh))) ∧
  ∀ c file, file ∈ Files (field c (DirectoryMap fh)) ↔
    categoryOf (Name file) = Ok c ∧
    ∃ data, fs_tree (w_fs w) !! (k ++ [Name file]) = Some (File data) ∧
            file = info_of (Name file) (File data).
Proof. apply build_plan. Qed.

(** C16: a run of the command, in either mode and whether it ends or
    crashes, changes nothing outside the directory it is given: a path that
    the working directory is not a prefix of denotes at the end what it
    denoted at the start. *)
Theorem run_confined tw dryRun excluded pwd w p :
  tree_wf (fs_tree (w_fs w)) → Forall valid_name (fs_cwd (w_fs w)) →
  ¬ workDir w pwd `prefix_of` p →
  fs_tree (w_fs (final (run (cmd.run tw (sortFlags dryRun excluded) [pwd]) w)))
    !! p = fs_tree (w_fs w) !! p.
Proof.
  intros Hwf Hcwd Hp.
  destruct (run_sort_steps tw dryRun excluded pwd w Hwf Hcwd)
    as [->|(fh & _ & Hsteps)]; [done|].
  by eapply move_steps_outside.
Qed.

(** C7: a run of the command keeps the entries named by [--exclude]: an
    entry of the working directory whose name is in the exclusion list is
    at the end what it was at the start, in either mode and whether the run
    ends or crashes. *)
Theorem run_keeps_excluded tw dryRun excluded pwd w n nd :
  tree_wf (fs_tree (w_fs w)) → Forall valid_name (fs_cwd (w_fs w)) →
  n ∈ excluded →
  fs_tree (w_fs w) !! (workDir w pwd ++ [n]) = Some nd →
  fs_tree (w_fs (final (run (cmd.run tw (sortFlags dryRun excluded) [pwd]) w)))
    !! (workDir w pwd ++ [n]) = Some nd.
Proof.
  intros Hwf Hcwd Hn Hnd.
  destruct (run_sort_steps tw dryRun excluded pwd w Hwf Hcwd)
    as [->|(fh & <- & Hsteps)]; [done|].
  by eapply move_steps_excluded.
Qed.

(** C8: with [--dry-run] the command never changes the file system, on any
    file system and whatever fails; what was printed before stays. *)
Theorem run_dry_run_readonly tw excluded pwd w :
  let w' := final (run (cmd.run tw (sortFlags true excluded) [pwd]) w) in
  w_fs w' = w_fs w ∧ w_out w `prefix_of` w_out w'.
Proof.
  cbn zeta. rewrite run_sort. pose proof (final_build pwd excluded w) as Hw.
  destruct (run (cmd.build _ _) w) as [fh w1|e w1]; cbn in Hw; subst w1; [|done].
  apply DryRun_final.
Qed.

(** C1: what a finished run in move mode has done, on every file system.
    When the command ends without a panic, every regular file of the
    directory it was given whose name is not excluded is in the directory of
    the category of its name, with the contents it had, and no longer in
    the directory itself. *)
Theorem run_moves tw excluded pwd w w' n c data :
  tree_wf (fs_tree (w_fs w)) → Forall valid_name (fs_cwd (w_fs w)) →
  run (cmd.run tw (sortFlags false excluded) [pwd]) w = Done () w' →
  let k := workDir w pwd in
  fs_tree (w_fs w) !! (k ++ [n]) = Some (File data) →
  n ∉ excluded → categoryOf n = Ok c →
  fs_tree (w_fs w') !! (k ++ [dirName c; n]) = Some (File data) ∧
  fs_tree (w_fs w') !! (k ++ [n]) = None.
Proof.
  intros Hwf Hcwd Hrun k Hn Hex Hc. rewrite run_sort in Hrun.
  destruct (run (cmd.build _ _) w) as [fh w1|] eqn:Hbuild; [|done].
  apply build_plan in Hbuild as (-> & Hplan & <- & _ & Hin); [|done..].
  assert (info_of n (File data) ∈ Files (field c (DirectoryMap fh))) as Hfile.
  { apply Hin. split; [done|]. by exists data. }
  rewrite <-Hn.
  apply (MoveFiles_done fh k w w' Hplan) with (file := info_of n (File data));
    [|done..].
  intros c1 f1 [? (data1 & ? & _)]%Hin. eauto.
Qed.

(** C31: the errors of the flags and of the arguments.  An error of
    [GetBool] is a panic; an error of [GetStringArray] ends the run without
    a message and without a panic; without an argument [args[0]] panics.  In
    all three cases nothing was read, written or printed. *)
Theorem run_flag_errors tw flags args w :
  match GetBool flags "dry-run", GetStringArray flags "exclude" with
  | Panic err, _ => run (cmd.run tw flags args) w = Crash (PanicError err) w
  | Ok _, Panic _ => run (cmd.run tw flags args) w = Done () w
  | Ok _, Ok _ =>
      args = [] → run (cmd.run tw flags args) w = Crash IndexOutOfRange w
  end.
Proof.
  unfold cmd.run. destruct (GetBool _ _); [|done].
  destruct (GetStringArray _ _); [|done]. intros ->.
  by rewrite run_bind, index_nil.
Qed.
End run.

(** ** When a run ends *)

Section ends.
Context {FS : Type} `{!FileSystem FS, !Reliable FS}.
Implicit Types (w : world FS) (fh : FileHandler) (k : path).

Lemma build_ends pwd excluded w :
  Forall valid_name (fs_cwd (w_fs w)) →
  let k := workDir w pwd in
  fs_tree (w_fs w) !! k = Some Folder →
  (∀ n nd, fs_tree (w_fs w) !! (k ++ [n]) = Some nd → go_string n) →
  is_Done (run (cmd.build pwd excluded) w).
Proof.
  intros Hcwd k Hk Hgo. pose proof (workDir_valid w pwd Hcwd) as Hvalid.
  rewrite run_build.
  destruct (Abs_total (w_fs w) pwd) as [wd Hwd]. rewrite Hwd.
  apply Abs_Ok in Hwd as ->. fold (workDir w pwd). fold k in Hvalid |- *.
  pose proof (clean_render _ Hvalid) as Hclean.
  pose proof (resolve_render (fs_cwd (w_fs w)) _ Hvalid) as Hres.
  destruct (ReadDir_folder (w_fs w) (render k) Hclean) as [es Hes];
    [by rewrite Hres|].
  rewrite Hes.
  destruct (collectFiles_is_Ok (w_fs w) (render k) [] es) as [files Hfiles].
  { intros [n b] Hobj _. apply Info_exists; [done|].
    apply (ReadDir_Ok _ _ _ Hclean Hes) in Hobj as (nd & Hnd & _). eauto. }
  rewrite Hfiles.
  destruct (foldM_sortFile_total files
    (set_RawFiles files (initialHandler (render k) excluded))) as [fh Hfh].
  { apply collectFiles_Ok in Hfiles as (infos & -> & Hinfos).
    destruct (scan_files _ _ _ _ Hclean Hes Hinfos) as [_ Hscan].
    apply Forall_forall. intros file (data & Hdata & _)%Hscan.
    rewrite Hres in Hdata. by eapply Hgo. }
  unfold SortFiles. cbn [RawFiles set_RawFiles]. rewrite Hfh. by eexists _, _.
Qed.

(** C3: when the command ends.  On a file system on which a call succeeds
    whenever the tree allows it, the command ends without a panic, in
    either mode, when the directory it is given is a directory whose entries
    have names that are Go strings, nothing but a directory has the name of
    the directory of a category, no directory is where a file is to go, and,
    for a dry run, the writes of the table succeed. *)
Theorem run_ends tw dryRun excluded pwd w :
  tree_wf (fs_tree (w_fs w)) → Forall valid_name (fs_cwd (w_fs w)) →
  let k := workDir w pwd in
  fs_tree (w_fs w) !! k = Some Folder →
  (∀ n nd, fs_tree (w_fs w) !! (k ++ [n]) = Some nd → go_string n) →
  (∀ c, fs_tree (w_fs w) !! (k ++ [dirName c]) = None ∨
        fs_tree (w_fs w) !! (k ++ [dirName c]) = Some Folder) →
  (∀ n c, is_Some (fs_tree (w_fs w) !! (k ++ [n])) → n ∉ excluded →
          categoryOf n = Ok c →
          fs_tree (w_fs w) !! (k ++ [dirName c; n]) ≠ Some Folder) →
  (dryRun = true → writable tw) →
  is_Done (run (cmd.run tw (sortFlags dryRun excluded) [pwd]) w).
Proof.
  intros Hwf Hcwd k Hk Hgo Hdirs Hdst Htw. rewrite run_sort.
  destruct (build_ends pwd excluded w Hcwd Hk Hgo) as (fh & w1 & Hbuild).
  rewrite Hbuild.
  apply build_plan in Hbuild as (-> & Hplan & <- & Hnodup & Hin); [|done..].
  destruct dryRun.
  - apply DryRun_is_Done; [by apply Htw|].
    intros c file [_ (data & Hdata & _)]%Hin. by eapply Hgo.
  - apply (MoveFiles_is_Done fh k w Hplan); [| |done].
    + split; [done|done|].
      intros c file [Hc (data & Hdata & _)]%Hin Hex. apply Hdst; eauto.
    + intros c file [Hc (data & Hdata & _)]%Hin. eauto.
Qed.
End ends.

(** ** Runs on the file system of [PosixFS]

    The model is executable: the runs of the scenarios of the specification
    are computed on the file system of [PosixFS].  The theorems above and
    those of [Cases] hold for every tree; these are their instances. *)

Section scenarios.
Notation box := ["home"; "u"; "box"].
Notation sort dryRun excluded pwd :=
  (run (cmd.run (buffered plain) (sortFlags dryRun excluded) [pwd])).

Lemma demo_wf : tree_wf (fs_tree (w_fs demo)).
Proof. apply tree_ok_wf. by_compute. Qed.

Lemma demo_cwd : Forall valid_name (fs_cwd (w_fs demo)).
Proof. by_compute. Qed.

Lemma demo_build : run (cmd.build "box" ["b.txt"]) demo = Done demo_plan demo.
Proof. by_compute. Qed.

Lemma demo_plan_ok : plan_ok demo_plan box.
Proof. by destruct (build_plan _ _ _ _ _ demo_wf demo_cwd demo_build) as (_ & ? & _). Qed.

(** The scenario of the specification in move mode.  In a directory
    with [a.png], [b.txt], [c.unknown] and a subdirectory, with [b.txt]
    excluded, the run ends; the seven directories of the categories are
    created, [a.png] is in [images], [c.unknown] in [other], [b.txt] and the
    subdirectory are where they were, and the progress messages are printed
    in the order of the categories. *)
Example scenario_move :
  sort false ["b.txt"] "box" demo =
  Done () (World demo_sorted
    [ "Creating directory: /home/u/box/images" +:+ nl;
      "Moving file: /home/u/box/a.png --> /home/u/box/images/a.png" +:+ nl;
      "Creating directory: /home/u/box/documents" +:+ nl;
      "Creating directory: /home/u/box/pdf" +:+ nl;
      "Creating directory: /home/u/box/media" +:+ nl;
      "Creating directory: /home/u/box/zips" +:+ nl;
      "Creating directory: /home/u/box/programming" +:+ nl;
      "Creating directory: /home/u/box/other" +:+ nl;
      "Moving file: /home/u/box/c.unknown --> /home/u/box/other/c.unknown" +:+ nl ]).
Proof. by_compute. Qed.

(** The scenario of the specification in dry-run mode: the table has
    the rows of [a.png] and [c.unknown] with the directories [images] and
    [other], [b.txt] is listed as excluded, and the file system is as it
    was. *)
Example scenario_dry_run :
  sort true ["b.txt"] "box" demo =
  Done () (World (w_fs demo)
    [ "Dry run mode" +:+ nl; nl;
      plain (tableOf [ demo_row "a.png" "/home/u/box/images";
                       demo_row "c.unknown" "/home/u/box/other" ]
                     [ "b.txt" +:+ nl ]) ]).
Proof. by_compute. Qed.

(** The dry run on a standard output that fails after the two lines of the
    header of the table: the write of the first row returns the error, and
    the run panics with it. *)
Example scenario_dry_run_write_error :
  let err := PathError "write" "/dev/stdout" EIO in
  run (cmd.run (limited 2 err) (sortFlags true ["b.txt"]) ["box"]) demo =
  Crash (PanicError err) (World (w_fs demo)
    [ "Dry run mode" +:+ nl; nl;
      " File Name " +:+ tab +:+ " New Directory " +:+ tab +:+ nl;
      "-----------" +:+ tab +:+ "---------------" +:+ tab +:+ nl ]).
Proof. by_compute. Qed.

(** Move mode on the directory that the first scenario leaves: every
    directory of a category is found, nothing is created or moved, and the
    file system is as it was. *)
Example scenario_rerun :
  sort false ["b.txt"] "box" (World demo_sorted []) =
  Done () (World demo_sorted
    ((λ c, "Directory already exists: /home/u/box/" +:+ dirName c +:+ nl)
       <$> categories)).
Proof. by_compute. Qed.

(** A regular file named [pdf] on the file system of [PosixFS]: [Stat]
    finds the file, the program takes it for the directory, and the rename
    of [pdf] to [pdf/pdf] fails with [ENOTDIR], after the directories of the
    categories before [pdf] have been created. *)
Example scenario_named_like_category :
  sort false [] "/box" named_pdf =
  Crash (PanicError (LinkError "rename" "/box/pdf" "/box/pdf/pdf" ENOTDIR))
    (World (Posix (mkTree ["/"; "/box"; "/box/images"; "/box/documents"]
                     [("/box/pdf", "x")]) [])
       [ "Creating directory: /box/images" +:+ nl;
         "Creating directory: /box/documents" +:+ nl;
         "Directory already exists: /box/pdf" +:+ nl;
         "Moving file: /box/pdf --> /box/pdf/pdf" +:+ nl ]).
Proof. by_compute. Qed.

(** A file of the same name in the directory of the category, on the file
    system of [PosixFS]: the run ends, and the contents that [images/a.png]
    had are lost. *)
Example scenario_collision :
  let w' := final (sort false [] "/box" collision) in
  fs_tree (w_fs collision) !! ["box"; "images"; "a.png"] = Some (File "old") ∧
  is_Done (sort false [] "/box" collision) ∧
  fs_tree (w_fs w') !! ["box"; "images"; "a.png"] = Some (File "new") ∧
  fs_tree (w_fs w') !! ["box"; "a.png"] = None.
Proof. split_and!; by_compute. Qed.
End scenarios.

(** ** Witnesses *)

Section witnesses.
Notation box := ["home"; "u"; "box"].

Lemma FilterDirectories_spec_witness :
  let k := resolve (fs_cwd (w_fs demo)) (WorkingDir demo_init) in
  demo = demo ∧ demo_scanned = set_RawFiles (RawFiles demo_scanned) demo_init ∧
  fs_tree (w_fs demo) !! k = Some Folder ∧
  StronglySorted String.le (Name <$> RawFiles demo_scanned) ∧
  NoDup (Name <$> RawFiles demo_scanned) ∧
  ∀ file, file ∈ RawFiles demo_scanned ↔
    ∃ data, fs_tree (w_fs demo) !! (k ++ [Name file]) = Some (File data) ∧
            file = info_of (Name file) (File data).
Proof. apply (FilterDirectories_spec demo_init demo demo_scanned demo); by_compute. Defined.

Lemma DryRun_total_witness :
  ∃ rows excludedRows,
    Forall2 (λ move row, rowText move = Ok row) (plannedMoves demo_plan) rows ∧
    Forall2 (λ name row, excludedText name = Ok row) (excludedNames demo_plan)
      excludedRows ∧
    run (DryRun (buffered plain) demo_plan) demo =
    Done () (World (w_fs demo)
               (w_out demo ++ ["Dry run mode" +:+ nl; nl;
                               plain (tableOf rows excludedRows)])).
Proof.
  apply DryRun_total, Forall_files. by_compute.
Defined.

Lemma DryRun_writes_witness :
  let tw := limited 2 (PathError "write" "/dev/stdout" EIO) in
  ∃ rows excludedRows,
    Forall2 (λ move row, rowText move = Ok row) (plannedMoves demo_plan) rows ∧
    Forall2 (λ name row, excludedText name = Ok row) (excludedNames demo_plan)
      excludedRows ∧
    let '(writer, out, err) := feed tw (tw_new tw) (linesOf rows excludedRows) in
    let banner := ["Dry run mode" +:+ nl; nl] in
    run (DryRun tw demo_plan) demo =
    match err with
    | Some err =>
        Crash (PanicError err) (World (w_fs demo) (w_out demo ++ banner ++ out))
    | None =>
        Done () (World (w_fs demo)
                   (w_out demo ++ banner ++ out ++ (tw_flush tw writer).1.2))
    end.
Proof. apply DryRun_writes, Forall_files. by_compute. Defined.

Lemma ensureDir_spec_witness :
  let dirInfo := field images (DirectoryMap demo_plan) in
  let k := resolve (fs_cwd (w_fs demo)) (Path dirInfo) in
  let exists_ := "Directory already exists: " +:+ Path dirInfo +:+ nl in
  let creating := "Creating directory: " +:+ Path dirInfo +:+ nl in
  match run (ensureDir dirInfo) demo with
  | Done _ w' =>
      (w' = World (w_fs demo) (w_out demo ++ [exists_]) ∧
       ∀ err, Stat (w_fs demo) (Path dirInfo) = Panic err →
              IsNotExist err = false) ∨
      (w_out w' = w_out demo ++ [creating] ∧ fs_tree (w_fs demo) !! k = None ∧
       fs_tree (w_fs w') = <[k := Folder]> (fs_tree (w_fs demo)) ∧
       fs_cwd (w_fs w') = fs_cwd (w_fs demo))
  | Crash e w' =>
      w' = World (w_fs demo) (w_out demo ++ [creating]) ∧
      fs_tree (w_fs demo) !! k = None ∧
      ∃ err, e = PanicError err ∧ Mkdir (w_fs demo) (Path dirInfo) = Panic err
  end.
Proof. apply ensureDir_spec. by_compute. Defined.

Lemma moveFile_spec_witness :
  let dirInfo := field images (DirectoryMap demo_plan) in
  let file := mkFileInfo "a.png" 3 false in
  let old := WorkingDir demo_plan </> Name file in
  let new := Path dirInfo </> Name file in
  let ko := resolve (fs_cwd (w_fs demo)) old in
  let kn := resolve (fs_cwd (w_fs demo)) new in
  let out := w_out demo ++ ["Moving file: " +:+ old +:+ " --> " +:+ new +:+ nl] in
  match run (moveFile demo_plan dirInfo file) demo with
  | Done _ w' =>
      if decide (Name file ∈ Excluded demo_plan) then w' = demo
      else w_out w' = out ∧ fs_cwd (w_fs w') = fs_cwd (w_fs demo) ∧
           rename_effect ko kn (fs_tree (w_fs demo)) (fs_tree (w_fs w'))
  | Crash e w' =>
      (Name file ∉ Excluded demo_plan) ∧ w' = World (w_fs demo) out ∧
      ∃ err, e = PanicError err ∧ Rename (w_fs demo) old new = Panic err
  end.
Proof. apply moveFile_spec; by_compute. Defined.

Lemma demo_files c file :
  file ∈ Files (field c (DirectoryMap demo_plan)) →
  categoryOf (Name file) = Ok c ∧
  (Name file ∉ Excluded demo_plan →
   ∃ data, fs_tree (w_fs demo) !! srcKey box file = Some (File data)).
Proof.
  destruct (build_plan _ _ _ _ _ demo_wf demo_cwd demo_build) as (_ & _ & _ & _ & Hin).
  intros [? (data & ? & _)]%Hin. eauto.
Qed.

Lemma demo_entries_go n nd :
  fs_tree (w_fs demo) !! (box ++ [n]) = Some nd → go_string n.
Proof.
  intros Hn.
  assert (map_Forall (λ p _, Forall go_string p) (fs_tree (w_fs demo))) as Hgo
    by by_compute.
  apply Hgo in Hn. by apply Forall_app in Hn as [_ [? _]%Forall_cons].
Qed.

Lemma demo_no_dirs (p : path) :
  length p = 5 → fs_tree (w_fs demo) !! p ≠ Some Folder.
Proof.
  intros Hp Hdir.
  assert (map_Forall (λ p nd, length p = 5 → nd ≠ Folder) (fs_tree (w_fs demo)))
    as Hno by by_compute.
  by apply (Hno _ _ Hdir).
Qed.

Lemma demo_dirs c :
  fs_tree (w_fs demo) !! (box ++ [dirName c]) = None ∨
  fs_tree (w_fs demo) !! (box ++ [dirName c]) = Some Folder.
Proof. destruct c; left; by_compute. Qed.

Lemma MoveFiles_ends_witness : is_Done (run (MoveFiles demo_plan) demo).
Proof.
  apply (MoveFiles_ends demo_plan box);
    [apply demo_plan_ok| |apply demo_files|by_compute].
  split; [by_compute|apply demo_dirs|]. intros. by apply demo_no_dirs.
Defined.

Lemma run_ends_witness :
  is_Done (run (cmd.run (buffered plain) (sortFlags false ["b.txt"]) ["box"]) demo).
Proof.
  apply run_ends;
    [apply demo_wf|apply demo_cwd|by_compute|apply demo_entries_go
    |apply demo_dirs| |done].
  intros. by apply demo_no_dirs.
Defined.

Lemma MoveFiles_moves_witness :
  let a := mkFileInfo "a.png" 3 false in
  let w' := final (run (MoveFiles demo_plan) demo) in
  fs_tree (w_fs w') !! dstKey box images a = fs_tree (w_fs demo) !! srcKey box a ∧
  fs_tree (w_fs w') !! srcKey box a = None.
Proof.
  apply (MoveFiles_moves demo_plan box demo);
    [apply demo_plan_ok|apply demo_files|by_compute..].
Defined.

Lemma MoveFiles_leaves_rest_witness :
  fs_tree (w_fs (final (run (MoveFiles demo_plan) demo))) !! (box ++ ["sub"; "d.png"]) =
  fs_tree (w_fs demo) !! (box ++ ["sub"; "d.png"]).
Proof.
  apply (MoveFiles_leaves_rest demo_plan box); [apply demo_plan_ok|..].
  - intros c. destruct c; by_compute.
  - apply (Forall_files (λ file, Name file ∉ Excluded demo_plan →
      ¬ srcKey box file `prefix_of` box ++ ["sub"; "d.png"])). by_compute.
Defined.

Lemma run_moves_witness :
  let w' := final (run (cmd.run (buffered plain) (sortFlags false ["b.txt"]) ["box"]) demo) in
  fs_tree (w_fs w') !! (workDir demo "box" ++ [dirName images; "a.png"]) =
    Some (File "PNG") ∧
  fs_tree (w_fs w') !! (workDir demo "box" ++ ["a.png"]) = None.
Proof.
  apply (run_moves (buffered plain) ["b.txt"] "box" demo);
    [apply demo_wf|apply demo_cwd|by_compute..].
Defined.

Lemma MoveFiles_refines_witness :
  rtc (move_step demo_plan box) (fs_tree (w_fs demo))
    (fs_tree (w_fs (final (run (MoveFiles demo_plan) demo)))).
Proof. apply MoveFiles_refines, demo_plan_ok. Defined.

Lemma MoveFiles_keeps_excluded_witness :
  fs_tree (w_fs (final (run (MoveFiles demo_plan) demo))) !! (box ++ ["b.txt"]) =
  Some (File "text").
Proof.
  apply (MoveFiles_keeps_excluded demo_plan box);
    [apply demo_plan_ok|by_compute|by_compute].
Defined.

Lemma build_spec_witness :
  let k := workDir demo "box" in
  demo = demo ∧ plan_ok demo_plan k ∧ Excluded demo_plan = ["b.txt"] ∧
  NoDup (Name <$> mjoin (Files <$> fields (DirectoryMap demo_plan))) ∧
  ∀ c file, file ∈ Files (field c (DirectoryMap demo_plan)) ↔
    categoryOf (Name file) = Ok c ∧
    ∃ data, fs_tree (w_fs demo) !! (k ++ [Name file]) = Some (File data) ∧
            file = info_of (Name file) (File data).
Proof. apply build_spec; [apply demo_wf|apply demo_cwd|by_compute]. Defined.

Lemma run_confined_witness :
  fs_tree (w_fs (final (run (cmd.run (buffered plain) (sortFlags false ["b.txt"]) ["box"]) demo)))
    !! ["home"; "u"; "e.pdf"] = fs_tree (w_fs demo) !! ["home"; "u"; "e.pdf"].
Proof. apply run_confined; [apply demo_wf|apply demo_cwd|by_compute]. Defined.

Lemma run_keeps_excluded_witness :
  fs_tree (w_fs (final (run (cmd.run (buffered plain) (sortFlags false ["b.txt"]) ["box"]) demo)))
    !! (workDir demo "box" ++ ["b.txt"]) = Some (File "text").
Proof.
  apply run_keeps_excluded; [apply demo_wf|apply demo_cwd|by_compute|by_compute].
Defined.
End witnesses.
