(* ===== verification/Cases.v ===== *)
(** * Runs on particular directories

    Two directories on which the command [sort] in move mode does
    something that is worth a theorem, each for every tree that has the
    shape in question:
    - a directory that is sorted already: nothing is created or moved, on
      every file system ([MoveFiles_sorted], [run_sorted]);
    - a directory with a regular file that has the name of the directory of
      its own category, [pdf] or [other]: the run never ends
      ([MoveFiles_stuck], [run_named_like_category]). *)

From S2P Require Import Prelude GoRuntime Os Tabwriter Classify Handler DryRun.
From S2P Require Import MoveFiles Liveness PosixFS Run.

(** ** Definitions *)

(** A directory in which a run has nothing to do: something has the name of
    the directory of every category, and every regular file is excluded. *)
Record sorted (excluded : list string) (k : path) (t : gmap path node) :
    Prop := {
  sorted_dirs c : is_Some (t !! (k ++ [dirName c]));
  sorted_files n data : t !! (k ++ [n]) = Some (File data) → n ∈ excluded;
}.

(** The messages of a run that finds the directory of every category. *)
Definition found (wd : string) : list string :=
  (λ c, "Directory already exists: " +:+ (wd </> dirName c) +:+ nl) <$>
    categories.

(** ** A sorted directory *)

(** A criterion for [sorted] that can be decided. *)
Lemma sorted_intro (excluded : list string) (k : path) (t : gmap path node) :
  Forall (λ c, is_Some (t !! (k ++ [dirName c]))) categories →
  map_Forall (λ p nd, is_folder nd = false → removelast p = k → last p ≠ None →
                      p ∈ (λ n, k ++ [n]) <$> excluded) t →
  sorted excluded k t.
Proof.
  intros Hdirs Hfiles. split.
  - intros c. eapply Forall_forall in Hdirs; [done|apply elem_of_categories].
  - intros n data Hn. specialize (Hfiles _ _ Hn eq_refl).
    rewrite removelast_last, last_snoc in Hfiles.
    apply list_elem_of_fmap in Hfiles as (n' & Heq & Hn'); [|done..].
    by apply app_inj_1 in Heq as [_ [= ->]].
Qed.

Section sorted.
Context {FS : Type} `{!FileSystem FS}.
Implicit Types (w : world FS) (fh : FileHandler) (k : path).

Lemma run_ensureDir_found dirInfo w :
  clean (Path dirInfo) →
  is_Some (fs_tree (w_fs w) !! resolve (fs_cwd (w_fs w)) (Path dirInfo)) →
  run (ensureDir dirInfo) w =
  Done () (World (w_fs w)
             (w_out w ++ ["Directory already exists: " +:+ Path dirInfo +:+ nl])).
Proof.
  intros Hclean [nd Hnd]. rewrite run_ensureDir. cbn zeta.
  destruct (Stat _ _) as [i|err] eqn:Hstat; [done|].
  destruct (IsNotExist err) eqn:Herr; [|done].
  by rewrite (Stat_not_exist _ _ _ Hclean Hstat Herr) in Hnd.
Qed.

(** [MoveFiles] with a plan whose files are all excluded, when something has
    the name of the directory of every category: the messages are printed
    and the file system is not touched, whatever the file system is. *)
Lemma MoveFiles_sorted fh k w :
  plan_ok fh k →
  (∀ c, is_Some (fs_tree (w_fs w) !! dirKey k c)) →
  (∀ c file, file ∈ Files (field c (DirectoryMap fh)) → Name file ∈ Excluded fh) →
  run (MoveFiles fh) w =
  Done () (World (w_fs w) (w_out w ++ found (WorkingDir fh))).
Proof.
  intros Hplan Hdirs Hfiles. unfold MoveFiles, found.
  rewrite fields_categories, forM_fmap. destruct w as [fs out]. cbn [w_fs w_out] in *.
  revert out. induction categories as [|c cs IH]; intros out.
  { by rewrite app_nil_r. }
  rewrite run_forM_cons. unfold moveDir at 1.
  rewrite run_bind, run_ensureDir_found; cbn [w_fs w_out].
  - rewrite run_forM_skip, IH.
    + rewrite (plan_paths _ _ Hplan). by list_assoc.
    + intros file Hfile. rewrite run_moveFile. cbn zeta.
      by rewrite (proj2 (isExcluded_true _ _) (Hfiles c file Hfile)).
  - by apply clean_dir with k.
  - rewrite (resolve_dir _ _ Hplan). apply Hdirs.
Qed.
End sorted.

(** ** A file with the name of the directory of its category *)

Section stuck.
Context {FS : Type} `{!FileSystem FS}.
Context (fh : FileHandler) (k : path) (t0 : gmap path node).
Context (Hplan : plan_ok fh k).
Context (Hsrc : ∀ c file,
  file ∈ Files (field c (DirectoryMap fh)) → Name file ∉ Excluded fh →
  ∃ data, t0 !! srcKey k file = Some (File data)).
Context (Hcls : ∀ c file,
  file ∈ Files (field c (DirectoryMap fh)) → categoryOf (Name file) = Ok c).
Context (c0 : Category) (file0 : FileInfo).
Context (Hfile0 : file0 ∈ Files (field c0 (DirectoryMap fh))).
Context (Hex0 : Name file0 ∉ Excluded fh) (Hname0 : Name file0 = dirName c0).
Implicit Types (w : world FS) (c : Category) (file : FileInfo).
Implicit Types (pairs : list (Category * FileInfo)) (done : list Category).

Local Notation movedW pairs := (λ w, moved fh k t0 pairs (fs_tree (w_fs w))).
Local Notation any := (λ (_ : panic_value) (_ : world FS), True).
Local Notation never := (λ (_ : ()) (_ : world FS), False).

(** The rename of the file into the directory of its category cannot
    succeed: the directory would have to be what the file is. *)
Lemma moveFile_stuck pairs :
  triple (movedW pairs) (moveFile fh (field c0 (DirectoryMap fh)) file0)
    never any.
Proof.
  intros w Hw. rewrite run_moveFile. cbn zeta.
  rewrite (proj2 (isExcluded_false _ _) Hex0).
  destruct (Rename _ _ _) as [fs'|err] eqn:Hmv; [|done].
  pose proof (plan_names _ _ Hplan _ _ Hfile0) as Hname.
  apply Rename_Ok in Hmv as (_ & _ & nd & Hnd & Hren);
    [|by apply clean_src with k|by apply clean_dst with k].
  rewrite (resolve_src _ _ Hplan) in Hnd by done.
  rewrite (resolve_dst _ _ Hplan) in Hren by done.
  pose proof (moved_fresh _ _ _ _ _ _ _ Hw Hex0 Hnd) as Hfresh.
  destruct (Hsrc c0 file0 Hfile0 Hex0) as [data Hdata].
  rewrite (moved_todo _ _ _ _ _ Hw c0 file0 Hfile0 Hex0 Hfresh), Hdata in Hnd.
  injection Hnd as <-. destruct Hren as (_ & Hdir & _); [done|].
  rewrite removelast_dstKey in Hdir. unfold dirKey in Hdir.
  rewrite <-Hname0 in Hdir. fold (srcKey k file0) in Hdir.
  rewrite (moved_todo _ _ _ _ _ Hw c0 file0 Hfile0 Hex0 Hfresh), Hdata in Hdir.
  done.
Qed.

Lemma moveDir_stuck done rest :
  categories = done ++ c0 :: rest →
  triple (movedW (pairsOf fh done)) (moveDir fh (field c0 (DirectoryMap fh)))
    never any.
Proof.
  intros Hcats. eapply triple_bind.
  { apply (ensureDir_moved fh k t0 Hplan Hsrc).
    intros c file. by apply (done_names fh Hcls done c0 rest). }
  intros []. eapply triple_conseq;
    [apply (triple_forM_stuck _ _ (λ files,
       movedW (pairsOf fh done ++ ((λ file, (c0, file)) <$> files))) any file0)
    |..]; [done| | | |done|done].
  - intros files file Hpre. rewrite fmap_app, app_assoc.
    apply (moveFile_moved fh k t0 Hplan Hsrc).
    eapply elem_of_prefix; [|done]. set_solver.
  - intros files _. apply moveFile_stuck.
  - intros w. by rewrite app_nil_r.
Qed.

Lemma MoveFiles_stuck_triple : triple (movedW []) (MoveFiles fh) never any.
Proof.
  unfold MoveFiles. rewrite fields_categories, forM_fmap.
  apply (triple_forM_stuck _ _ (λ done, movedW (pairsOf fh done)) any c0).
  - apply elem_of_categories.
  - intros done c' [rest Hcats]. rewrite <-app_assoc in Hcats.
    by apply (moveDir_moved fh k t0 Hplan Hsrc Hcls) with rest.
  - intros done [rest Hcats]. rewrite <-app_assoc in Hcats.
    by apply moveDir_stuck with rest.
Qed.
End stuck.

(** [MoveFiles] does not end when a file of the plan that is not excluded
    has the name of the directory of its category. *)
Lemma MoveFiles_stuck {FS} `{!FileSystem FS} fh k (w : world FS) c file :
  plan_ok fh k →
  (∀ c file, file ∈ Files (field c (DirectoryMap fh)) →
     categoryOf (Name file) = Ok c ∧
     (Name file ∉ Excluded fh →
      ∃ data, fs_tree (w_fs w) !! srcKey k file = Some (File data))) →
  file ∈ Files (field c (DirectoryMap fh)) → Name file ∉ Excluded fh →
  Name file = dirName c →
  ¬ is_Done (run (MoveFiles fh) w).
Proof.
  intros Hplan Hfiles Hfile Hex Hname (a & w' & Hrun).
  pose proof (MoveFiles_stuck_triple fh k (fs_tree (w_fs w)) Hplan
    (λ c file Hin, proj2 (Hfiles c file Hin))
    (λ c file Hin, proj1 (Hfiles c file Hin)) c file Hfile Hex Hname w) as Hstuck.
  rewrite Hrun in Hstuck. apply Hstuck, moved_start.
Qed.

(** ** Complete runs on these directories *)

Section runs.
Context {FS : Type} `{!FileSystem FS}.
Implicit Types (w : world FS) (fh : FileHandler) (k : path) (tw : TabWriter).

(** C24: a regular file that has the name of the directory of its own
    category stops every run in move mode, on every file system.  A file
    named [pdf] belongs to the category [pdf] and one named [other] to
    [other]; unless it is excluded, [Stat] finds the file, the program takes
    it for the directory of the category, and no rename into it can
    succeed: the run panics. *)
Theorem run_named_like_category tw excluded pwd w c data :
  tree_wf (fs_tree (w_fs w)) → Forall valid_name (fs_cwd (w_fs w)) →
  let k := workDir w pwd in
  c = pdf ∨ c = other →
  fs_tree (w_fs w) !! (k ++ [dirName c]) = Some (File data) →
  dirName c ∉ excluded →
  ∃ e w', run (cmd.run tw (sortFlags false excluded) [pwd]) w = Crash e w'.
Proof.
  intros Hwf Hcwd k Hc Hdata Hex. rewrite run_sort.
  destruct (run (cmd.build _ _) w) as [fh w1|e w1] eqn:Hbuild; [|by eexists _, _].
  apply build_plan in Hbuild as (-> & Hplan & <- & _ & Hin); [|done..].
  assert (info_of (dirName c) (File data) ∈ Files (field c (DirectoryMap fh)))
    as Hfile.
  { apply Hin. split; [|by exists data].
    cbn [Name info_of]. rewrite categoryOf_dirName. by destruct Hc as [-> | ->]. }
  destruct (run (MoveFiles fh) w) as [[] w1|e w1] eqn:Hrun; [|by eexists _, _].
  exfalso.
  apply (MoveFiles_stuck fh k w c (info_of (dirName c) (File data)) Hplan);
    [|done|done|done|rewrite Hrun; by eexists _, _].
  intros c1 f1 [? (data1 & ? & _)]%Hin. eauto.
Qed.
End runs.

Section reliable.
Context {FS : Type} `{!FileSystem FS, !Reliable FS}.
Implicit Types (w : world FS) (fh : FileHandler) (k : path) (tw : TabWriter).

Lemma run_sorted_found tw excluded pwd w :
  tree_wf (fs_tree (w_fs w)) → Forall valid_name (fs_cwd (w_fs w)) →
  let k := workDir w pwd in
  fs_tree (w_fs w) !! k = Some Folder →
  (∀ n nd, fs_tree (w_fs w) !! (k ++ [n]) = Some nd → go_string n) →
  sorted excluded k (fs_tree (w_fs w)) →
  run (cmd.run tw (sortFlags false excluded) [pwd]) w =
  Done () (World (w_fs w) (w_out w ++ found (render k))).
Proof.
  intros Hwf Hcwd k Hk Hgo [Hdirs Hfiles]. rewrite run_sort.
  destruct (build_ends pwd excluded w Hcwd Hk Hgo) as (fh & w1 & Hbuild).
  rewrite Hbuild.
  apply build_plan in Hbuild as (-> & Hplan & <- & _ & Hin); [|done..].
  rewrite (MoveFiles_sorted fh k w Hplan); [by rewrite (plan_wd _ _ Hplan)|done|].
  intros c file [_ (data & Hdata & _)]%Hin. by eapply Hfiles.
Qed.

(** C33: move mode on a directory that is sorted already.  On a file system
    on which a call succeeds whenever the tree allows it, when something has
    the name of the directory of every category and every regular file of
    the directory is excluded, the run ends, the directory of every category
    is reported as existing, in the order of the categories, nothing is
    created or moved, and the file system is as it was. *)
Theorem run_sorted tw excluded pwd w :
  tree_wf (fs_tree (w_fs w)) → Forall valid_name (fs_cwd (w_fs w)) →
  let k := workDir w pwd in
  fs_tree (w_fs w) !! k = Some Folder →
  (∀ n nd, fs_tree (w_fs w) !! (k ++ [n]) = Some nd → go_string n) →
  sorted excluded k (fs_tree (w_fs w)) →
  run (cmd.run tw (sortFlags false excluded) [pwd]) w =
  Done () (World (w_fs w) (w_out w ++ found (render k))).
Proof. apply run_sorted_found. Qed.

End reliable.

(** ** Witnesses *)

Lemma run_named_like_category_witness :
  ∃ e w',
    run (cmd.run (buffered plain) (sortFlags false []) ["/box"]) named_pdf =
    Crash e w'.
Proof.
  apply (run_named_like_category (buffered plain) [] "/box" named_pdf pdf "x");
    [apply tree_ok_wf; by_compute|by_compute|by left|by_compute|by_compute].
Defined.

Lemma demo_sorted_go n nd :
  fs_tree demo_sorted !! (["home"; "u"; "box"] ++ [n]) = Some nd → go_string n.
Proof.
  intros Hn.
  assert (map_Forall (λ p _, Forall go_string p) (fs_tree demo_sorted)) as Hgo
    by by_compute.
  apply Hgo in Hn. by apply Forall_app in Hn as [_ [? _]%Forall_cons].
Qed.

Lemma demo_sorted_sorted :
  sorted ["b.txt"] ["home"; "u"; "box"] (fs_tree demo_sorted).
Proof. apply sorted_intro; by_compute. Qed.

Lemma run_sorted_witness :
  run (cmd.run (buffered plain) (sortFlags false ["b.txt"]) ["box"])
      (World demo_sorted []) =
  Done () (World demo_sorted ([] ++ found (render (workDir (World demo_sorted []) "box")))).
Proof.
  apply (run_sorted (buffered plain) ["b.txt"] "box" (World demo_sorted []));
    [apply tree_ok_wf; by_compute|by_compute|by_compute|apply demo_sorted_go
    |apply demo_sorted_sorted].
Defined.
