(* ===== verification/Rerun.v ===== *)
(** * Running the command twice

    A run in move mode that has ended leaves a sorted directory, so that a
    second run finds the directory of every category and changes nothing
    ([run_twice]).  The proof follows the first run in program order with
    the invariant [shape]: the tree stays well formed, the working directory
    stays a directory, and its entries are those it had or the directories
    of categories.  It needs that nothing but a directory has the name of
    the directory of a category: a regular file named [images] is taken for
    the directory by the first run, which then moves it into [other], and
    the second run creates [images] ([rerun_not_idempotent]). *)

From S2P Require Import Prelude GoRuntime Os Tabwriter Classify Handler DryRun.
From S2P Require Import MoveFiles Liveness PosixFS Run Cases.

(** ** Definitions *)

(** The tree [t] of a run that started from [t0], as far as the entries of
    the working directory [k] go. *)
Record shape (k : path) (t0 t : gmap path node) : Prop := {
  shape_wf : tree_wf t;
  shape_wd : t !! k = Some Folder;
  shape_entries n nd :
    t !! (k ++ [n]) = Some nd →
    t0 !! (k ++ [n]) = Some nd ∨ (nd = Folder ∧ ∃ c, n = dirName c);
}.

(** The invariant of a run from the tree [t0] with the working directory
    [cwd0] of the process, when the categories of [done] are done: the shape
    of the tree, the working directory of the process, the directories of
    the categories that are done, which exist, and those of the other
    categories, which are as they were. *)
Record shaped {FS : Type} `{!FileSystem FS} (k : path) (t0 : gmap path node)
    (cwd0 : path) (done : list Category) (w : world FS) : Prop := {
  shaped_shape : shape k t0 (fs_tree (w_fs w));
  shaped_cwd : fs_cwd (w_fs w) = cwd0;
  shaped_done c : c ∈ done → is_Some (fs_tree (w_fs w) !! dirKey k c);
  shaped_todo c :
    c ∉ done → fs_tree (w_fs w) !! dirKey k c = t0 !! dirKey k c;
}.

(** A directory with a regular file that has the name of the directory of
    another category than its own. *)
Definition named_images : world posix :=
  World (Posix (mkTree ["/"; "/box"] [("/box/images", "x")]) []) [].

(** ** The shape of the tree and the changes of a run *)

Section trees.
Context (k : path) (t0 : gmap path node).
Implicit Types (t : gmap path node) (c : Category) (file : FileInfo).

Lemma shape_start : tree_wf t0 → t0 !! k = Some Folder → shape k t0 t0.
Proof. intros. split; auto. Qed.

Lemma shape_mkdir t c :
  shape k t0 t → t !! dirKey k c = None →
  shape k t0 (<[dirKey k c := Folder]> t).
Proof.
  intros [[Hroot Hwf] Hwd Hent] Hnone.
  assert (∀ p, t !! p = Some Folder →
    <[dirKey k c := Folder]> t !! p = Some Folder) as Hfolder.
  { intros p Hp. rewrite lookup_insert_ne; [done|]. congruence. }
  split; [split|..]; [by apply Hfolder| |by apply Hfolder|].
  - intros p n nd. destruct (decide (dirKey k c = p ++ [n])) as [Heq|Hne].
    + rewrite <-Heq, lookup_insert_eq. intros _.
      apply app_inj_tail in Heq as [<- <-].
      split; [apply valid_name_dirName|by apply Hfolder].
    + rewrite lookup_insert_ne by done. intros [? ?]%Hwf. auto.
  - intros n nd. destruct (decide (dirKey k c = k ++ [n])) as [Heq|Hne].
    + rewrite <-Heq, lookup_insert_eq. intros [= <-]. right.
      split; [done|]. exists c. by apply app_inv_head in Heq as [= ->].
    + rewrite lookup_insert_ne by done. apply Hent.
Qed.

Lemma shape_rename t c file data :
  valid_name (Name file) → shape k t0 t →
  t !! srcKey k file = Some (File data) →
  t !! dstKey k c file ≠ Some Folder → t !! dirKey k c = Some Folder →
  shape k t0 (<[dstKey k c file := File data]> (delete (srcKey k file) t)).
Proof.
  intros Hname [[Hroot Hwf] Hwd Hent] Hsrc Hdst Hdir.
  assert (∀ p, t !! p = Some Folder →
    <[dstKey k c file := File data]> (delete (srcKey k file) t) !! p =
    Some Folder) as Hfolder.
  { intros p Hp. rewrite lookup_renamed; [done|..]; intros ->; congruence. }
  split; [split|..]; [by apply Hfolder| |by apply Hfolder|].
  - intros p n nd. destruct (decide (p ++ [n] = dstKey k c file)) as [Heq|Hne].
    + rewrite Heq, lookup_renamed_new. intros _. unfold dstKey in Heq.
      change [dirName c; Name file] with ([dirName c] ++ [Name file]) in Heq.
      rewrite app_assoc in Heq. apply app_inj_tail in Heq as [-> ->].
      split; [done|]. by apply Hfolder.
    + rewrite lookup_insert_ne by done. intros [_ Hnd]%lookup_delete_Some.
      apply Hwf in Hnd as [? ?]. auto.
  - intros n nd. rewrite lookup_insert_ne.
    + intros [_ Hnd]%lookup_delete_Some. by apply Hent.
    + unfold dstKey. intros Heq%app_inv_head. done.
Qed.
End trees.

(** ** The first run *)

Section first.
Context {FS : Type} `{!FileSystem FS, !Reliable FS}.
Context (fh : FileHandler) (k : path) (t0 : gmap path node) (cwd0 : path).
Context (Hplan : plan_ok fh k).
Context (Hsrc : ∀ c file,
  file ∈ Files (field c (DirectoryMap fh)) → Name file ∉ Excluded fh →
  ∃ data, t0 !! srcKey k file = Some (File data)).
Context (Hcls : ∀ c file,
  file ∈ Files (field c (DirectoryMap fh)) → categoryOf (Name file) = Ok c).
Context (Hdirs : ∀ c,
  t0 !! dirKey k c = None ∨ t0 !! dirKey k c = Some Folder).
Implicit Types (w : world FS) (c : Category) (file : FileInfo).
Implicit Types (pairs : list (Category * FileInfo)) (done : list Category).

Local Notation movedW pairs := (λ w, moved fh k t0 pairs (fs_tree (w_fs w))).
Local Notation any := (λ (_ : panic_value) (_ : world FS), True).

Local Notation inv done pairs := (λ w,
  movedW pairs w ∧ shaped k t0 cwd0 done w).

(** No file that is moved has the name of the directory of a category. *)
Lemma not_dir_name c file c' :
  file ∈ Files (field c (DirectoryMap fh)) → Name file ∉ Excluded fh →
  srcKey k file ≠ dirKey k c'.
Proof.
  intros Hfile Hex Heq. destruct (Hsrc c file Hfile Hex) as [data Hdata].
  rewrite Heq in Hdata. destruct (Hdirs c'); congruence.
Qed.

Lemma shaped_start w :
  tree_wf t0 → t0 !! k = Some Folder → fs_tree (w_fs w) = t0 →
  fs_cwd (w_fs w) = cwd0 → shaped k t0 cwd0 [] w.
Proof.
  intros ?? Ht ?. split; rewrite ?Ht; [by apply shape_start|done| |done].
  by intros c ?%elem_of_nil.
Qed.

(** The directory of [c'] is found: the world is as it was, and [c'] is
    done. *)
Lemma shaped_found done c' w out :
  shaped k t0 cwd0 done w → is_Some (fs_tree (w_fs w) !! dirKey k c') →
  shaped k t0 cwd0 (done ++ [c']) (World (w_fs w) out).
Proof.
  intros [Hshape Hcwd Hdone Htodo] Hdir. split; cbn [w_fs]; [done..| |].
  - intros c [?| ->%list_elem_of_singleton]%elem_of_app; auto.
  - intros c [? _]%not_elem_of_app. auto.
Qed.

(** The directory of [c'] is created. *)
Lemma shaped_created done c' w fs' out :
  shaped k t0 cwd0 done w → fs_cwd fs' = fs_cwd (w_fs w) →
  fs_tree (w_fs w) !! dirKey k c' = None →
  fs_tree fs' = <[dirKey k c' := Folder]> (fs_tree (w_fs w)) →
  shaped k t0 cwd0 (done ++ [c']) (World fs' out).
Proof.
  intros [Hshape Hcwd Hdone Htodo] Hcwd' Hnone Htree.
  split; cbn [w_fs]; rewrite ?Htree; [by apply shape_mkdir|congruence| |].
  - intros c [Hc| ->%list_elem_of_singleton]%elem_of_app;
      [|by rewrite lookup_insert_eq].
    destruct (decide (dirKey k c' = dirKey k c)) as [->|];
      [by rewrite lookup_insert_eq|rewrite lookup_insert_ne by done; auto].
  - intros c [? Hc%not_elem_of_cons]%not_elem_of_app.
    rewrite lookup_insert_ne; [auto|].
    intros [= ?%dirName_inj]%app_inv_head. naive_solver.
Qed.

(** On a reliable file system [Stat] finds what is there. *)
Lemma Stat_found c' w err :
  fs_tree (w_fs w) !! k = Some Folder →
  Stat (w_fs w) (Path (field c' (DirectoryMap fh))) = Panic err →
  IsNotExist err = false → False.
Proof.
  intros Hk Hstat Herr.
  pose proof (clean_dir _ _ Hplan c') as Hclean.
  pose proof (resolve_dir _ _ Hplan (fs_cwd (w_fs w)) c') as Hk'.
  destruct (fs_tree (w_fs w) !! dirKey k c') as [nd|] eqn:Hnd.
  - destruct (Stat_exists (w_fs w) _ Hclean) as [i Hi]; [|congruence].
    rewrite Hk'. eauto.
  - destruct (Stat_absent (w_fs w) _ Hclean) as (err' & Hstat' & Herr');
      [by rewrite Hk'| |congruence].
    by rewrite Hk', removelast_dirKey.
Qed.

Lemma ensureDir_shaped pairs done c' :
  triple (inv done pairs) (ensureDir (field c' (DirectoryMap fh)))
    (λ _, shaped k t0 cwd0 (done ++ [c'])) any.
Proof.
  intros w [_ Hshaped]. rewrite run_ensureDir. cbn zeta.
  pose proof (clean_dir _ _ Hplan c') as Hclean.
  pose proof (resolve_dir _ _ Hplan (fs_cwd (w_fs w)) c') as Hk.
  destruct (Stat _ _) as [i|err] eqn:Hstat.
  { apply Stat_Ok in Hstat as (nd & Hnd & _); [|done]. rewrite Hk in Hnd.
    apply shaped_found; eauto. }
  destruct (IsNotExist err) eqn:Herr.
  - destruct (Mkdir _ _) as [fs'|err'] eqn:Hmk; [|done].
    apply Mkdir_Ok in Hmk as (Hnone & _ & Htree & Hcwd'); [|done].
    rewrite Hk in Hnone, Htree. by apply shaped_created with w.
  - destruct (Stat_found c' w err); [apply Hshaped|done..].
Qed.

Lemma moveFile_shaped pairs done c file :
  file ∈ Files (field c (DirectoryMap fh)) →
  triple (inv done pairs) (moveFile fh (field c (DirectoryMap fh)) file)
    (λ _, shaped k t0 cwd0 done) any.
Proof.
  intros Hfile w (Hmoved & Hshaped). rewrite run_moveFile.
  cbn zeta. destruct (isExcluded _ _) eqn:Hex; [done|].
  apply isExcluded_false in Hex.
  destruct (Rename _ _ _) as [fs'|err] eqn:Hmv; [|done].
  pose proof (plan_names _ _ Hplan _ _ Hfile) as Hname.
  apply Rename_Ok in Hmv as (Hcwd' & _ & nd & Hnd & Hren);
    [|by apply clean_src with k|by apply clean_dst with k].
  rewrite (resolve_src _ _ Hplan) in Hnd, Hren by done.
  rewrite (resolve_dst _ _ Hplan) in Hren by done.
  pose proof (moved_fresh _ _ _ _ _ _ _ Hmoved Hex Hnd) as Hfresh.
  destruct (Hsrc c file Hfile Hex) as [data Hdata].
  rewrite <-(moved_todo _ _ _ _ _ Hmoved c file Hfile Hex Hfresh) in Hdata.
  rewrite Hdata in Hnd. injection Hnd as <-.
  destruct Hren as (Hdst & Hdir & Htree); [done|].
  rewrite removelast_dstKey in Hdir. destruct Hshaped as [Hshape Hcwd Hdone Htodo].
  assert (∀ c1, fs_tree fs' !! dirKey k c1 = fs_tree (w_fs w) !! dirKey k c1)
    as Hdirs'.
  { intros c1. rewrite Htree, lookup_renamed; [done|..].
    - intros Heq. by apply (not_dir_name c file c1).
    - apply dirKey_ne_dstKey. }
  split; cbn [w_fs]; [|congruence|intros c1; rewrite Hdirs'; auto..].
  rewrite Htree. by apply shape_rename.
Qed.

Lemma moveDir_shaped done c' rest :
  categories = done ++ c' :: rest →
  triple (inv done (pairsOf fh done)) (moveDir fh (field c' (DirectoryMap fh)))
    (λ _, inv (done ++ [c']) (pairsOf fh (done ++ [c']))) any.
Proof.
  intros Hcats.
  assert (∀ c file, (c, file) ∈ pairsOf fh done → Name file ≠ dirName c')
    as Hnames by (intros c file; by apply (done_names fh Hcls done c' rest)).
  eapply triple_bind.
  { eapply triple_conseq;
      [apply (triple_conj _ _ _ _ _ _ _
         (ensureDir_moved fh k t0 Hplan Hsrc (pairsOf fh done) c' Hnames)
         (ensureDir_shaped (pairsOf fh done) done c'))|..]; [|done..].
    by intros w [? ?]. }
  intros []. rewrite pairsOf_snoc.
  eapply triple_conseq;
    [apply (triple_forM_prefix _ _ (λ files,
       inv (done ++ [c'])
           (pairsOf fh done ++ ((λ file, (c', file)) <$> files))))|..].
  - intros files file Hpre. rewrite fmap_app, app_assoc.
    assert (file ∈ Files (field c' (DirectoryMap fh))) as Hfile
      by (eapply elem_of_prefix; [|done]; set_solver).
    set (pairs := pairsOf fh done ++ ((λ file, (c', file)) <$> files)).
    eapply triple_conseq;
      [apply (triple_conj _ _ _ _ _ _ _
         (moveFile_moved fh k t0 Hplan Hsrc pairs c' file Hfile)
         (moveFile_shaped pairs (done ++ [c']) c' file Hfile))|..]; [|done..].
    by intros w [? ?].
  - intros w. by rewrite app_nil_r.
  - done.
  - done.
Qed.

Lemma MoveFiles_shaped :
  triple (inv [] []) (MoveFiles fh)
    (λ _, inv categories (pairsOf fh categories)) any.
Proof.
  unfold MoveFiles. rewrite fields_categories, forM_fmap.
  apply (triple_forM_prefix _ _ (λ done, inv done (pairsOf fh done))).
  intros done c' [rest Hcats]. rewrite <-app_assoc in Hcats.
  by apply moveDir_shaped with rest.
Qed.
End first.

(** ** The second run *)

Section twice.
Context {FS : Type} `{!FileSystem FS, !Reliable FS}.
Implicit Types (w : world FS) (fh : FileHandler) (k : path) (tw : TabWriter).

Lemma go_string_dirName c : go_string (dirName c).
Proof. destruct c; by vm_compute. Qed.

(** [build] has listed the working directory. *)
Lemma build_wd pwd excluded w fh w' :
  Forall valid_name (fs_cwd (w_fs w)) →
  run (cmd.build pwd excluded) w = Done fh w' →
  fs_tree (w_fs w) !! workDir w pwd = Some Folder.
Proof.
  intros Hcwd Hrun. pose proof (workDir_valid w pwd Hcwd) as Hk.
  rewrite run_build in Hrun.
  destruct (Abs _ _) as [wd|] eqn:Hwd; [|done]. apply Abs_Ok in Hwd as ->.
  destruct (ReadDir _ _) as [es|] eqn:Hes; [|done].
  apply ReadDir_Ok in Hes as [Hdir _]; [|by apply clean_render].
  by rewrite resolve_render in Hdir.
Qed.

(** A run in move mode that has ended leaves a sorted directory in a well
    formed tree. *)
Lemma run_leaves_sorted tw excluded pwd w w1 :
  tree_wf (fs_tree (w_fs w)) → Forall valid_name (fs_cwd (w_fs w)) →
  let k := workDir w pwd in
  (∀ n nd, fs_tree (w_fs w) !! (k ++ [n]) = Some nd → go_string n) →
  (∀ c, fs_tree (w_fs w) !! (k ++ [dirName c]) = None ∨
        fs_tree (w_fs w) !! (k ++ [dirName c]) = Some Folder) →
  run (cmd.run tw (sortFlags false excluded) [pwd]) w = Done () w1 →
  shape k (fs_tree (w_fs w)) (fs_tree (w_fs w1)) ∧
  fs_cwd (w_fs w1) = fs_cwd (w_fs w) ∧
  sorted excluded k (fs_tree (w_fs w1)).
Proof.
  intros Hwf Hcwd k Hgo Hdirs Hrun. rewrite run_sort in Hrun.
  destruct (run (cmd.build _ _) w) as [fh w'|] eqn:Hbuild; [|done].
  pose proof (build_wd _ _ _ _ _ Hcwd Hbuild) as Hk.
  apply build_plan in Hbuild as (-> & Hplan & <- & _ & Hin); [|done..].
  assert (∀ c file, file ∈ Files (field c (DirectoryMap fh)) →
    categoryOf (Name file) = Ok c ∧
    (Name file ∉ Excluded fh →
     ∃ data, fs_tree (w_fs w) !! srcKey k file = Some (File data))) as Hfiles.
  { intros c1 f1 [? (data1 & ? & _)]%Hin. eauto. }
  pose proof (MoveFiles_shaped fh k (fs_tree (w_fs w)) (fs_cwd (w_fs w)) Hplan
    (λ c file Hin, proj2 (Hfiles c file Hin))
    (λ c file Hin, proj1 (Hfiles c file Hin)) Hdirs w) as Hinv.
  rewrite Hrun in Hinv.
  destruct Hinv as (_ & [Hshape Hcwd1 Hdone _]).
  { split; [apply moved_start|by apply shaped_start]. }
  split_and!; [done..|]. split.
  - intros c. apply Hdone, elem_of_categories.
  - intros n data Hn. destruct (decide (n ∈ Excluded fh)) as [|Hex]; [done|].
    destruct (shape_entries _ _ _ Hshape n _ Hn) as [Hn0|[[=] _]].
    pose proof (categoryOf_after_last n (Hgo _ _ Hn0)) as Hc.
    assert (info_of n (File data) ∈ Files (field _ (DirectoryMap fh))) as Hfile
      by (apply Hin; split; [exact Hc|by exists data]).
    destruct (MoveFiles_done fh k w w1 Hplan Hfiles Hrun _ _ Hfile Hex)
      as [_ Hnone].
    unfold srcKey in Hnone. cbn [Name info_of] in Hnone. congruence.
Qed.

Lemma run_twice_found tw excluded pwd w w1 :
  tree_wf (fs_tree (w_fs w)) → Forall valid_name (fs_cwd (w_fs w)) →
  let k := workDir w pwd in
  (∀ n nd, fs_tree (w_fs w) !! (k ++ [n]) = Some nd → go_string n) →
  (∀ c, fs_tree (w_fs w) !! (k ++ [dirName c]) = None ∨
        fs_tree (w_fs w) !! (k ++ [dirName c]) = Some Folder) →
  run (cmd.run tw (sortFlags false excluded) [pwd]) w = Done () w1 →
  run (cmd.run tw (sortFlags false excluded) [pwd]) w1 =
  Done () (World (w_fs w1) (w_out w1 ++ found (render k))).
Proof.
  intros Hwf Hcwd k Hgo Hdirs Hrun.
  destruct (run_leaves_sorted tw excluded pwd w w1)
    as (Hshape & Hcwd1 & Hsorted); [done..|].
  assert (workDir w1 pwd = k) as Hk by (unfold workDir; by rewrite Hcwd1).
  rewrite (run_sorted_found tw excluded pwd w1); rewrite ?Hk, ?Hcwd1;
    [done|apply Hshape|done|apply Hshape| |done].
  intros n nd Hn. destruct (shape_entries _ _ _ Hshape n _ Hn)
    as [Hn0|(_ & c & ->)]; [by eapply Hgo|apply go_string_dirName].
Qed.

(** C23: move mode is idempotent.  On a file system on which a call succeeds
    whenever the tree allows it, when nothing but a directory has the name of
    the directory of a category and a run in move mode has ended, a second
    run with the same arguments ends as well, finds the directory of every
    category, creates and moves nothing, and leaves the file system as the
    first run left it. *)
Theorem run_twice tw excluded pwd w w1 :
  tree_wf (fs_tree (w_fs w)) → Forall valid_name (fs_cwd (w_fs w)) →
  let k := workDir w pwd in
  (∀ n nd, fs_tree (w_fs w) !! (k ++ [n]) = Some nd → go_string n) →
  (∀ c, fs_tree (w_fs w) !! (k ++ [dirName c]) = None ∨
        fs_tree (w_fs w) !! (k ++ [dirName c]) = Some Folder) →
  run (cmd.run tw (sortFlags false excluded) [pwd]) w = Done () w1 →
  run (cmd.run tw (sortFlags false excluded) [pwd]) w1 =
  Done () (World (w_fs w1) (w_out w1 ++ found (render k))).
Proof. apply run_twice_found. Qed.
End twice.

(** ** On the file system of [PosixFS] *)

(** Without the condition on the names the second run is not idle.  The
    first run takes the regular file [images] for the directory of the
    images and moves it into [other], as a file without a known extension;
    the second run creates the directory [images]. *)
Example rerun_not_idempotent :
  let sort := run (cmd.run (buffered plain) (sortFlags false []) ["/box"]) in
  let w1 := final (sort named_images) in
  let w2 := final (sort w1) in
  is_Done (sort named_images) ∧ is_Done (sort w1) ∧
  fs_tree (w_fs w1) !! ["box"; "images"] = None ∧
  fs_tree (w_fs w1) !! ["box"; "other"; "images"] = Some (File "x") ∧
  fs_tree (w_fs w2) !! ["box"; "images"] = Some Folder.
Proof. split_and!; by_compute. Qed.

(** ** Witnesses *)

Lemma run_twice_witness :
  let sort := run (cmd.run (buffered plain) (sortFlags false ["b.txt"]) ["box"]) in
  sort (final (sort demo)) =
  Done () (World (w_fs (final (sort demo)))
             (w_out (final (sort demo)) ++ found (render (workDir demo "box")))).
Proof.
  apply (run_twice (buffered plain) ["b.txt"] "box" demo);
    [apply demo_wf|apply demo_cwd|apply demo_entries_go|apply demo_dirs
    |by_compute].
Defined.
