(* ===== verification/Messages.v ===== *)
(** * The messages of a run in move mode

    [MoveFiles] prints one line for the directory of every category, in the
    order of the categories, and after it one line for every file of the
    category that it moves, in the order of the plan
    ([src/tools/helpers/sort.go:282], [sort.go:288], [sort.go:299]).
    [messages] is the reference for this output; [run_messages] shows that a
    run that ends on a reliable file system has printed exactly these lines,
    the directory of a category being reported as created exactly if nothing
    had its name when the run started.  [run_replaces_existing] is the case
    of a file whose name is taken in the directory of its category: the
    file that is there is replaced, and the output is the same. *)

From S2P Require Import Prelude GoRuntime Os Tabwriter Classify Handler DryRun.
From S2P Require Import MoveFiles Liveness PosixFS Run Cases Rerun.

(** ** Reference definitions *)

(** The line for the directory of a category. *)
Definition dirMessage (absent : bool) (dir : string) : string :=
  (if absent then "Creating directory: " else "Directory already exists: ")
  +:+ dir +:+ nl.

(** The line for the move of a file. *)
Definition moveMessage (wd dir : string) (file : FileInfo) : string :=
  "Moving file: " +:+ (wd </> Name file) +:+ " --> " +:+ (dir </> Name file)
  +:+ nl.

(** The lines for the files of [files] that are moved into the directory of
    the category [c]. *)
Definition moveMessages (fh : FileHandler) (c : Category)
    (files : list FileInfo) : list string :=
  moveMessage (WorkingDir fh) (Path (field c (DirectoryMap fh))) <$>
    filter (λ file, Name file ∉ Excluded fh) files.

(** The lines of a run from the tree [t0] for the categories [cs]. *)
Definition messages (fh : FileHandler) (k : path) (t0 : gmap path node)
    (cs : list Category) : list string :=
  c ← cs;
  dirMessage (bool_decide (t0 !! dirKey k c = None))
             (Path (field c (DirectoryMap fh))) ::
  moveMessages fh c (Files (field c (DirectoryMap fh))).

(** ** The output of the steps *)

Section says.
Context {FS : Type} `{!FileSystem FS, !Reliable FS}.
Context (fh : FileHandler) (k : path) (t0 : gmap path node) (cwd0 : path).
Context (Hplan : plan_ok fh k).
Context (Hsrc : ∀ c file,
  file ∈ Files (field c (DirectoryMap fh)) → Name file ∉ Excluded fh →
  ∃ data, t0 !! srcKey k file = Some (File data)).
Context (Hcls : ∀ c file,
  file ∈ Files (field c (DirectoryMap fh)) → categoryOf (Name file) = Ok c).
Context (Hdirs : ∀ c,
  t0 !! dirKey k c = None ∨ t0 !! dirKey k c = Some Folder).
Implicit Types (w : world FS) (c : Category) (file : FileInfo).
Implicit Types (done : list Category) (out : list string).

Local Notation any := (λ (_ : panic_value) (_ : world FS), True).
Local Notation inv done := (λ w,
  moved fh k t0 (pairsOf fh done) (fs_tree (w_fs w)) ∧ shaped k t0 cwd0 done w).

Lemma moveMessages_snoc c files file :
  moveMessages fh c (files ++ [file]) =
  moveMessages fh c files ++ moveMessages fh c [file].
Proof. unfold moveMessages. by rewrite filter_app, fmap_app. Qed.

Lemma messages_snoc done c :
  messages fh k t0 (done ++ [c]) =
  messages fh k t0 done ++ messages fh k t0 [c].
Proof. unfold messages. by rewrite bind_app. Qed.

Lemma ensureDir_says done c' out :
  c' ∉ done →
  triple (λ w, shaped k t0 cwd0 done w ∧ w_out w = out)
    (ensureDir (field c' (DirectoryMap fh)))
    (λ _ w, w_out w =
       out ++ [dirMessage (bool_decide (t0 !! dirKey k c' = None))
                          (Path (field c' (DirectoryMap fh)))]) any.
Proof.
  intros Hc' w [Hshaped <-]. rewrite run_ensureDir. cbn zeta.
  rewrite <-(shaped_todo _ _ _ _ _ Hshaped c' Hc').
  pose proof (clean_dir _ _ Hplan c') as Hclean.
  pose proof (resolve_dir _ _ Hplan (fs_cwd (w_fs w)) c') as Hk.
  destruct (Stat _ _) as [i|err] eqn:Hstat.
  { apply Stat_Ok in Hstat as (nd & Hnd & _); [|done]. rewrite Hk in Hnd.
    by rewrite Hnd, bool_decide_eq_false_2. }
  destruct (IsNotExist err) eqn:Herr.
  - apply Stat_not_exist in Hstat; [|done..]. rewrite Hk in Hstat.
    rewrite Hstat, bool_decide_eq_true_2 by done. by destruct (Mkdir _ _).
  - destruct (Stat_found fh k Hplan c' w err); [apply Hshaped|done..].
Qed.

Lemma moveFile_says c file out :
  triple (λ w, w_out w = out) (moveFile fh (field c (DirectoryMap fh)) file)
    (λ _ w, w_out w = out ++ moveMessages fh c [file]) any.
Proof.
  intros w <-. rewrite run_moveFile. cbn zeta. unfold moveMessages.
  rewrite filter_cons, filter_nil. destruct (isExcluded _ _) eqn:Hex.
  - apply isExcluded_true in Hex. rewrite decide_False by auto.
    by rewrite app_nil_r.
  - apply isExcluded_false in Hex. rewrite decide_True by done.
    by destruct (Rename _ _ _).
Qed.

Lemma moveDir_says done c' rest out :
  categories = done ++ c' :: rest →
  triple (λ w, shaped k t0 cwd0 done w ∧ w_out w = out)
    (moveDir fh (field c' (DirectoryMap fh)))
    (λ _ w, w_out w = out ++ messages fh k t0 [c']) any.
Proof.
  intros [Hc' _]%categories_other_last. eapply triple_bind.
  { by apply ensureDir_says. }
  intros []. unfold messages. rewrite bind_singleton.
  set (line := dirMessage _ _).
  eapply triple_conseq;
    [apply (triple_forM_prefix _ _ (λ files w,
       w_out w = (out ++ [line]) ++ moveMessages fh c' files))|..].
  - intros files file _. rewrite moveMessages_snoc, app_assoc.
    apply moveFile_says.
  - intros w Hw. cbn beta. by rewrite Hw, app_nil_r.
  - intros ? w Hw. cbn beta in Hw. rewrite Hw. by list_assoc.
  - done.
Qed.

Lemma MoveFiles_says out :
  triple (λ w, inv [] w ∧ w_out w = out) (MoveFiles fh)
    (λ _ w, w_out w = out ++ messages fh k t0 categories) any.
Proof.
  unfold MoveFiles. rewrite fields_categories, forM_fmap.
  eapply triple_conseq;
    [apply (triple_forM_prefix _ _ (λ done w,
       inv done w ∧ w_out w = out ++ messages fh k t0 done))|..].
  - intros done c' [rest Hcats]. rewrite <-app_assoc in Hcats.
    rewrite messages_snoc, app_assoc.
    eapply triple_conseq;
      [apply (triple_conj _ _ _ _ _ _ _
         (moveDir_shaped fh k t0 cwd0 Hplan Hsrc Hcls Hdirs done c' rest Hcats)
         (moveDir_says done c' rest (out ++ messages fh k t0 done) Hcats))|..].
    + intros w [[??] ?]. by split_and!.
    + by intros ? w [[??] ?].
    + done.
  - intros w [? Hw]. cbn beta. by rewrite Hw, app_nil_r.
  - by intros ? w [_ ?].
  - done.
Qed.
End says.

(** ** Complete runs *)

Section runs.
Context {FS : Type} `{!FileSystem FS, !Reliable FS}.
Implicit Types (w : world FS) (fh : FileHandler) (k : path) (tw : TabWriter).

Lemma run_says tw excluded pwd w w1 :
  tree_wf (fs_tree (w_fs w)) → Forall valid_name (fs_cwd (w_fs w)) →
  let k := workDir w pwd in
  (∀ c, fs_tree (w_fs w) !! (k ++ [dirName c]) = None ∨
        fs_tree (w_fs w) !! (k ++ [dirName c]) = Some Folder) →
  run (cmd.run tw (sortFlags false excluded) [pwd]) w = Done () w1 →
  ∃ fh, run (cmd.build pwd excluded) w = Done fh w ∧
    w_out w1 = w_out w ++ messages fh k (fs_tree (w_fs w)) categories.
Proof.
  intros Hwf Hcwd k Hdirs Hrun. rewrite run_sort in Hrun.
  destruct (run (cmd.build _ _) w) as [fh w'|] eqn:Hbuild; [|done].
  pose proof (build_wd _ _ _ _ _ Hcwd Hbuild) as Hk.
  pose proof Hbuild as Hplan.
  apply build_plan in Hplan as (-> & Hplan & <- & _ & Hin); [|done..].
  exists fh. split; [done|].
  assert (∀ c file, file ∈ Files (field c (DirectoryMap fh)) →
    categoryOf (Name file) = Ok c ∧
    (Name file ∉ Excluded fh →
     ∃ data, fs_tree (w_fs w) !! srcKey k file = Some (File data))) as Hfiles.
  { intros c1 f1 [? (data1 & ? & _)]%Hin. eauto. }
  pose proof (MoveFiles_says fh k (fs_tree (w_fs w)) (fs_cwd (w_fs w)) Hplan
    (λ c file Hin, proj2 (Hfiles c file Hin))
    (λ c file Hin, proj1 (Hfiles c file Hin)) Hdirs (w_out w) w) as Hsays.
  rewrite Hrun in Hsays. apply Hsays. split_and!; [apply moved_start| |done].
  by apply shaped_start.
Qed.

(** C32: the messages of a run in move mode.  On a file system on which a
    call succeeds whenever the tree allows it, when nothing but a directory
    has the name of the directory of a category and the run ends, it has
    printed, for every category in the order of the categories, the line of
    its directory, which says that the directory is created exactly if
    nothing had its name when the run started, and then one line for every
    file of the plan in that category that is not excluded, in the order of
    the plan; and nothing else. *)
Theorem run_messages tw excluded pwd w w1 :
  tree_wf (fs_tree (w_fs w)) → Forall valid_name (fs_cwd (w_fs w)) →
  let k := workDir w pwd in
  (∀ c, fs_tree (w_fs w) !! (k ++ [dirName c]) = None ∨
        fs_tree (w_fs w) !! (k ++ [dirName c]) = Some Folder) →
  run (cmd.run tw (sortFlags false excluded) [pwd]) w = Done () w1 →
  ∃ fh, run (cmd.build pwd excluded) w = Done fh w ∧
    w_out w1 = w_out w ++ messages fh k (fs_tree (w_fs w)) categories.
Proof. apply run_says. Qed.

(** C35: a file whose name is taken in the directory of its category
    replaces the file that is there, and nothing is said about it.  Under
    the conditions under which a run in move mode ends, when a regular file
    of the directory that is not excluded has the name of a regular file in
    the directory of its category, the run ends, the file is in the
    directory of the category with its own contents, the contents of the
    file that was there are no longer at that path, and the output is that
    of every run: the lines of the directories and of the moves. *)
Theorem run_replaces_existing tw excluded pwd w n c data old :
  tree_wf (fs_tree (w_fs w)) → Forall valid_name (fs_cwd (w_fs w)) →
  let k := workDir w pwd in
  (∀ n nd, fs_tree (w_fs w) !! (k ++ [n]) = Some nd → go_string n) →
  (∀ c, fs_tree (w_fs w) !! (k ++ [dirName c]) = None ∨
        fs_tree (w_fs w) !! (k ++ [dirName c]) = Some Folder) →
  (∀ n c, is_Some (fs_tree (w_fs w) !! (k ++ [n])) → n ∉ excluded →
          categoryOf n = Ok c →
          fs_tree (w_fs w) !! (k ++ [dirName c; n]) ≠ Some Folder) →
  fs_tree (w_fs w) !! (k ++ [n]) = Some (File data) →
  n ∉ excluded → categoryOf n = Ok c →
  fs_tree (w_fs w) !! (k ++ [dirName c; n]) = Some (File old) →
  ∃ fh w',
    run (cmd.build pwd excluded) w = Done fh w ∧
    run (cmd.run tw (sortFlags false excluded) [pwd]) w = Done () w' ∧
    fs_tree (w_fs w') !! (k ++ [dirName c; n]) = Some (File data) ∧
    fs_tree (w_fs w') !! (k ++ [n]) = None ∧
    w_out w' = w_out w ++ messages fh k (fs_tree (w_fs w)) categories.
Proof.
  intros Hwf Hcwd k Hgo Hdirs Hdst Hn Hex Hc _.
  assert (fs_tree (w_fs w) !! k = Some Folder) as Hk
    by (destruct Hwf as [_ Hwf]; by apply Hwf in Hn as [_ ?]).
  destruct (build_ends pwd excluded w Hcwd Hk Hgo) as (fh & w0 & Hbuild).
  pose proof Hbuild as Hplan.
  apply build_plan in Hplan as (-> & Hplan & <- & Hnodup & Hin); [|done..].
  assert (∀ c file, file ∈ Files (field c (DirectoryMap fh)) →
    categoryOf (Name file) = Ok c ∧
    (Name file ∉ Excluded fh →
     ∃ data, fs_tree (w_fs w) !! srcKey k file = Some (File data))) as Hfiles.
  { intros c1 f1 [? (data1 & ? & _)]%Hin. eauto. }
  destruct (MoveFiles_is_Done fh k w Hplan) as ([] & w' & Hrun); [|done..|].
  { split; [done..|].
    intros c1 f1 [? (data1 & Hdata1 & _)]%Hin ?. apply Hdst; eauto. }
  assert (run (cmd.run tw (sortFlags false (Excluded fh)) [pwd]) w = Done () w')
    as Hsort by by rewrite run_sort, Hbuild.
  exists fh, w'. split_and!; [done..| | |].
  - rewrite <-Hn. apply (MoveFiles_done fh k w w' Hplan Hfiles Hrun c
      (info_of n (File data))); [|done]. apply Hin. split; [done|]. by exists data.
  - apply (MoveFiles_done fh k w w' Hplan Hfiles Hrun c
      (info_of n (File data))); [|done]. apply Hin. split; [done|]. by exists data.
  - destruct (run_says tw (Excluded fh) pwd w w') as (fh' & Hbuild' & Hout);
      [done..|]. rewrite Hbuild in Hbuild'. by injection Hbuild' as <-.
Qed.
End runs.

(** ** On the file system of [PosixFS] *)

(** The messages of the scenario of the specification. *)
Example messages_demo :
  messages demo_plan ["home"; "u"; "box"] (fs_tree (w_fs demo)) categories =
  [ "Creating directory: /home/u/box/images" +:+ nl;
    "Moving file: /home/u/box/a.png --> /home/u/box/images/a.png" +:+ nl;
    "Creating directory: /home/u/box/documents" +:+ nl;
    "Creating directory: /home/u/box/pdf" +:+ nl;
    "Creating directory: /home/u/box/media" +:+ nl;
    "Creating directory: /home/u/box/zips" +:+ nl;
    "Creating directory: /home/u/box/programming" +:+ nl;
    "Creating directory: /home/u/box/other" +:+ nl;
    "Moving file: /home/u/box/c.unknown --> /home/u/box/other/c.unknown" +:+ nl ].
Proof. by_compute. Qed.

(** ** Witnesses *)

Lemma run_messages_witness :
  let sort := run (cmd.run (buffered plain) (sortFlags false ["b.txt"]) ["box"]) in
  ∃ fh, run (cmd.build "box" ["b.txt"]) demo = Done fh demo ∧
    w_out (final (sort demo)) =
    w_out demo ++ messages fh (workDir demo "box") (fs_tree (w_fs demo)) categories.
Proof.
  apply (run_messages (buffered plain) ["b.txt"] "box" demo);
    [apply demo_wf|apply demo_cwd|apply demo_dirs|by_compute].
Defined.

Lemma collision_go n nd :
  fs_tree (w_fs collision) !! (workDir collision "/box" ++ [n]) = Some nd →
  go_string n.
Proof.
  intros Hn.
  assert (map_Forall (λ p _, Forall go_string p) (fs_tree (w_fs collision)))
    as Hgo by by_compute.
  apply Hgo in Hn. by apply Forall_app in Hn as [_ [? _]%Forall_cons].
Qed.

Lemma collision_no_dirs (p : path) :
  length p = 3 → fs_tree (w_fs collision) !! p ≠ Some Folder.
Proof.
  intros Hp Hdir.
  assert (map_Forall (λ p nd, length p = 3 → nd ≠ Folder)
            (fs_tree (w_fs collision))) as Hno by by_compute.
  by apply (Hno _ _ Hdir).
Qed.

Lemma run_replaces_existing_witness :
  let k := workDir collision "/box" in
  ∃ fh w',
    run (cmd.build "/box" []) collision = Done fh collision ∧
    run (cmd.run (buffered plain) (sortFlags false []) ["/box"]) collision =
    Done () w' ∧
    fs_tree (w_fs w') !! (k ++ [dirName images; "a.png"]) = Some (File "new") ∧
    fs_tree (w_fs w') !! (k ++ ["a.png"]) = None ∧
    w_out w' = w_out collision ++
      messages fh k (fs_tree (w_fs collision)) categories.
Proof.
  apply (run_replaces_existing (buffered plain) [] "/box" collision "a.png"
           images "new" "old");
    [apply tree_ok_wf; by_compute|by_compute|apply collision_go| |
    |by_compute|by_compute|by_compute|by_compute].
  - intros c. destruct c; (left; by_compute) || (right; by_compute).
  - intros. by apply collision_no_dirs.
Defined.
