(* ===== verification/Root.v ===== *)
(** * The root command, its configuration, and the command [version]

    [src/cmd/root.go] declares the root command, registers [initConfig] with
    [cobra.OnInitialize], defines the persistent flag [viper] and binds two
    configuration keys to flags; [src/cmd/version.go] prints the version.
    What the sources call of [cobra], [pflag] and [viper] is modelled from
    the documentation of these libraries, as far as the calls of the sources
    go: a flag set is a finite map from names to values, [Lookup] returns
    the flag or nothing, [BindPFlag] fails on a flag that is nothing.  The
    parsing of the command line is not modelled: [Execute] takes the
    invocation that the parsing has found, runs the initializers, checks
    the number of arguments as [cobra.ExactArgs(1)] ([src/cmd/sort.go:13])
    does, runs the command and returns the error of [cobra], if any. *)

From S2P Require Import Prelude GoRuntime Os Tabwriter Classify Handler DryRun.
From S2P Require Import MoveFiles.
From S2P Require Import Run.
From stdpp Require Import pretty.

(** ** Flags and configuration *)

(** The value of a flag of [pflag]. *)
Inductive FlagValue : Set :=
| BoolValue (b : bool)
| StringArrayValue (l : list string).

#[export] Instance FlagValue_eq_dec : EqDecision FlagValue.
Proof. solve_decision. Defined.

(** A [*pflag.FlagSet]: the flags that are defined, by name. *)
Notation FlagSet := (gmap string FlagValue).

(** [flags.Lookup(name)]: the flag, or [nil]. *)
Definition Lookup (flags : FlagSet) (name : string) :
    option (string * FlagValue) :=
  value ← flags !! name; Some (name, value).

(** [flags.Bool(name, value, usage)]: defines a flag. *)
Definition Bool (flags : FlagSet) (name : string) (value : bool) : FlagSet :=
  <[name := BoolValue value]> flags.

(** The registry of [viper], as far as the sources use it: the keys bound
    to flags, the defaults, and where a configuration file is looked for. *)
Record Viper : Type := mkViper {
  bound : gmap string string;
  defaults : gmap string string;
  configFile : string;
  configPaths : list string;
  configType : string;
  configName : string;
  automaticEnv : bool;
}.

#[export] Instance Viper_eq_dec : EqDecision Viper.
Proof. solve_decision. Defined.

Definition emptyViper : Viper := mkViper ∅ ∅ "" [] "" "" false.

Definition quote : string := String "034" "".

(** [viper.BindPFlag(key, flag)]: an error if the flag is [nil]. *)
Definition BindPFlag (v : Viper) (key : string)
    (flag : option (string * FlagValue)) : result error Viper :=
  match flag with
  | None => Panic (ErrorString ("flag for " +:+ quote +:+ key +:+ quote +:+ " is nil"))
  | Some (name, _) =>
      Ok (mkViper (<[key := name]> (bound v)) (defaults v) (configFile v)
            (configPaths v) (configType v) (configName v) (automaticEnv v))
  end.

(** [viper.SetDefault(key, value)]. *)
Definition SetDefault (v : Viper) (key value : string) : Viper :=
  mkViper (bound v) (<[key := value]> (defaults v)) (configFile v)
    (configPaths v) (configType v) (configName v) (automaticEnv v).

(** [err.Error()]. *)
Definition Error (err : error) : string :=
  match err with
  | ErrorString msg => msg
  | PathError op p _ => op +:+ " " +:+ p
  | LinkError op old new _ => op +:+ " " +:+ old +:+ " " +:+ new
  end.

(** ** The package [cmd] *)

(** The functions registered with [cobra.OnInitialize]. *)
Inductive Initializer : Set := InitConfig.

(** The variables of the package: [cfgFile], [userLicense], the version of
    [rootCmd], its persistent flags, the registry of [viper] and the
    initializers. *)
Record Package : Type := mkPackage {
  cfgFile : string;
  userLicense : string;
  Version : string;
  PersistentFlags : FlagSet;
  viper : Viper;
  initializers : list Initializer;
}.

(** The package when its variables are initialized and no [init] has run. *)
Definition package0 : Package := mkPackage "" "" "0.0.1" ∅ emptyViper [].

(** [init] of [root.go]: the lines that it prints, and the package after
    it. *)
Definition init (p : Package) : Package * list string :=
  let p := mkPackage (cfgFile p) (userLicense p) (Version p) (PersistentFlags p) (viper p)
                     (initializers p ++ [InitConfig]) in
  let p := mkPackage (cfgFile p) (userLicense p) (Version p)
                     (Bool (PersistentFlags p) "viper" true) (viper p)
                     (initializers p) in
  match BindPFlag (viper p) "author" (Lookup (PersistentFlags p) "author") with
  | Panic err => (p, [Error err +:+ nl])
  | Ok v =>
      let p := mkPackage (cfgFile p) (userLicense p) (Version p) (PersistentFlags p) v
                         (initializers p) in
      match BindPFlag (viper p) "useViper" (Lookup (PersistentFlags p) "viper") with
      | Panic err => (p, [Error err +:+ nl])
      | Ok v =>
          let v := SetDefault v "author" "Richard Sigl" in
          let v := SetDefault v "license" "apache" in
          (mkPackage (cfgFile p) (userLicense p) (Version p) (PersistentFlags p) v
                     (initializers p), [])
      end
  end.

(** What [initConfig] asks of the environment: the home directory, and the
    configuration file that [viper.ReadInConfig] finds and reads with the
    registry as it is set up. *)
Record Env : Type := mkEnv {
  UserHomeDir : result error string;
  ReadInConfig : Viper → result error string;
}.

Section with_fs.
Context {FS : Type} `{!FileSystem FS}.

(** [initConfig].  [cobra.CheckErr] ends the process with status 1 (its
    message goes to standard error, which the world does not hold);
    [viper.SetConfigName] also forgets the configuration file that was
    set. *)
Definition initConfig (env : Env) (p : Package) : io FS Package :=
  v ← (if decide (cfgFile p ≠ "") then
         mret (mkViper (bound (viper p)) (defaults (viper p)) (cfgFile p)
                 (configPaths (viper p)) (configType (viper p))
                 (configName (viper p)) (automaticEnv (viper p)))
       else
         match UserHomeDir env with
         | Panic err => panic (Exit 1)
         | Ok home =>
             mret (mkViper (bound (viper p)) (defaults (viper p)) ""
                     (configPaths (viper p) ++ [home]) "yaml" ".cobra"
                     (automaticEnv (viper p)))
         end);
  let v := mkViper (bound v) (defaults v) (configFile v) (configPaths v)
                   (configType v) (configName v) true in
  match ReadInConfig env v with
  | Ok used => print ("Using config file: " +:+ used +:+ nl)
  | Panic _ => mret ()
  end;;
  mret (mkPackage (cfgFile p) (userLicense p) (Version p) (PersistentFlags p) v (initializers p)).

(** [Run] of the command [version]. *)
Definition versionRun (p : Package) : io FS () :=
  print ("v" +:+ Version p +:+ nl).

(** What the parsing of the command line finds: the command and its
    flags and arguments. *)
Inductive Invocation : Type :=
| SortCmd (flags : Flags) (args : list string)
| VersionCmd.

(** The error of [cobra.ExactArgs(n)] for the arguments [args]. *)
Definition ExactArgs (n : nat) (args : list string) : option error :=
  if decide (length args = n) then None
  else Some (ErrorString ("accepts " +:+ pretty n +:+ " arg(s), received " +:+
                          pretty (length args))).

(** [Execute]: [rootCmd.Execute()] runs the initializers, validates the
    arguments of the command and calls its [Run]; it returns the error of
    the validation, which ends the execution before [Run]. *)
Definition Execute (tw : TabWriter) (env : Env) (p : Package)
    (inv : Invocation) : io FS (option error) :=
  p ← foldP (λ p i, match i with InitConfig => initConfig env p end) p
            (initializers p);
  match inv with
  | SortCmd flags args =>
      match ExactArgs 1 args with
      | Some err => mret (Some err)
      | None => cmd.run tw flags args;; mret None
      end
  | VersionCmd => versionRun p;; mret None
  end.

(** The program: the [init] of [root.go] runs when the package is
    initialized, then [Execute]. *)
Definition program (tw : TabWriter) (env : Env)
    (inv : Invocation) : io FS (option error) :=
  let '(p, out) := init package0 in
  forM_ out print;;
  Execute tw env p inv.
End with_fs.

(** The package after [init], and the line that [init] prints. *)
Definition author_error : string :=
  "flag for " +:+ quote +:+ "author" +:+ quote +:+ " is nil" +:+ nl.

Definition initialized (p : Package) : Package :=
  mkPackage (cfgFile p) (userLicense p) (Version p) (Bool (PersistentFlags p) "viper" true)
    (viper p) (initializers p ++ [InitConfig]).

(** The registry after [initConfig] when no configuration file was given. *)
Definition configured (v : Viper) (home : string) : Viper :=
  mkViper (bound v) (defaults v) "" (configPaths v ++ [home]) "yaml" ".cobra"
    true.

(** ** [init] *)

Lemma Lookup_None flags name : flags !! name = None → Lookup flags name = None.
Proof. unfold Lookup. by intros ->. Qed.

(** C26: [init] stops at its first binding.  No flag [author] is defined,
    so [Lookup] returns nothing, [BindPFlag] fails, and [init] prints the
    error and returns: the key [useViper] is never bound and the defaults of
    [author] and [license] are never set.  All that [init] has done is to
    register [initConfig] and to define the flag [viper]. *)
Theorem init_author_not_defined p :
  PersistentFlags p !! "author" = None →
  init p = (initialized p, [author_error]) ∧
  viper (init p).1 = viper p.
Proof.
  intros Hauthor. unfold init. cbn [PersistentFlags viper].
  rewrite Lookup_None; [done|].
  unfold Bool. by rewrite lookup_insert_ne.
Qed.

(** ** [initConfig], [version] and [Execute] *)

Section run.
Context {FS : Type} `{!FileSystem FS}.
Implicit Types (w : world FS) (p : Package) (env : Env).

Lemma run_initConfig env p w :
  cfgFile p = "" →
  run (initConfig env p) w =
  match UserHomeDir env with
  | Panic _ => Crash (Exit 1) w
  | Ok home =>
      let v := configured (viper p) home in
      let p' := mkPackage (cfgFile p) (userLicense p) (Version p) (PersistentFlags p) v
                  (initializers p) in
      match ReadInConfig env v with
      | Ok used =>
          Done p' (World (w_fs w)
                     (w_out w ++ ["Using config file: " +:+ used +:+ nl]))
      | Panic _ => Done p' w
      end
  end.
Proof.
  intros Hcfg. unfold initConfig. rewrite Hcfg, decide_False by naive_solver.
  rewrite run_bind. destruct (UserHomeDir env) as [home|err]; [|done].
  cbn [run mret prog_ret]. rewrite run_bind. unfold configured.
  cbn [bound defaults configFile configPaths configType configName].
  by destruct (ReadInConfig env _).
Qed.

Lemma run_versionRun p w :
  run (versionRun p) w =
  Done () (World (w_fs w) (w_out w ++ ["v" +:+ Version p +:+ nl])).
Proof. done. Qed.

(** [Execute] on the package that [init] leaves: [initConfig] runs, then
    the command. *)
Lemma run_Execute tw env inv w :
  run (Execute tw env (initialized package0) inv) w =
  match UserHomeDir env with
  | Panic _ => Crash (Exit 1) w
  | Ok home =>
      let w1 := World (w_fs w)
        (w_out w ++ match ReadInConfig env (configured emptyViper home) with
                    | Ok used => ["Using config file: " +:+ used +:+ nl]
                    | Panic _ => []
                    end) in
      let p := mkPackage "" "" "0.0.1" (Bool ∅ "viper" true)
                 (configured emptyViper home) [InitConfig] in
      match inv with
      | SortCmd flags args =>
          match ExactArgs 1 args with
          | Some err => Done (Some err) w1
          | None => run (cmd.run tw flags args;; mret None) w1
          end
      | VersionCmd => run (versionRun p;; mret None) w1
      end
  end.
Proof.
  unfold Execute. rewrite run_bind.
  cbn [initializers initialized package0 app].
  rewrite run_foldP_cons, run_initConfig by done.
  destruct (UserHomeDir env) as [home|]; [|done]. cbn zeta.
  cbn [viper initialized package0 cfgFile userLicense Version PersistentFlags
       initializers app].
  destruct (ReadInConfig env _); rewrite run_foldP_nil;
    rewrite ?app_nil_r; destruct w; by repeat case_match.
Qed.

Lemma run_program tw env inv w :
  run (program tw env inv) w =
  run (Execute tw env (initialized package0) inv)
      (World (w_fs w) (w_out w ++ [author_error])).
Proof. done. Qed.

(** C27: the command [version] as the program runs it.  The line of [init]
    comes first; if the home directory is not known the process ends with
    status 1; otherwise [initConfig] reports the configuration file, if it
    has read one, and the version [v0.0.1] is printed.  The file system is
    not touched. *)
Theorem program_version tw env w :
  run (program tw env VersionCmd) w =
  match UserHomeDir env with
  | Panic _ => Crash (Exit 1) (World (w_fs w) (w_out w ++ [author_error]))
  | Ok home =>
      Done None (World (w_fs w)
        (w_out w ++ [author_error] ++
         match ReadInConfig env (configured emptyViper home) with
         | Ok used => ["Using config file: " +:+ used +:+ nl]
         | Panic _ => []
         end ++ ["v0.0.1" +:+ nl]))
  end.
Proof.
  rewrite run_program, run_Execute. cbn [w_fs w_out].
  destruct (UserHomeDir env) as [home|]; [|done].
  rewrite run_bind, run_versionRun. cbn [w_fs w_out Version initialized package0].
  destruct (ReadInConfig env _); cbn [run mret prog_ret]; by list_assoc.
Qed.

(** C34: the command [sort] as the program runs it.  The line of [init]
    comes first and [initConfig] runs as for every command.  Then the
    arguments are counted: with one argument [run] of the command is called
    with it, and the program returns no error if [run] returns; with another
    number of arguments [run] is not called, nothing more is printed, the
    file system is not touched, and the program returns the error of
    [cobra.ExactArgs(1)].  So the expression [args[0]] of [run] is never
    evaluated on an empty slice. *)
Theorem program_sort tw env flags args w :
  run (program tw env (SortCmd flags args)) w =
  match UserHomeDir env with
  | Panic _ => Crash (Exit 1) (World (w_fs w) (w_out w ++ [author_error]))
  | Ok home =>
      let w1 := World (w_fs w)
        (w_out w ++ [author_error] ++
         match ReadInConfig env (configured emptyViper home) with
         | Ok used => ["Using config file: " +:+ used +:+ nl]
         | Panic _ => []
         end) in
      match args with
      | [pwd] =>
          match run (cmd.run tw flags [pwd]) w1 with
          | Done _ w' => Done None w'
          | Crash e w' => Crash e w'
          end
      | _ =>
          Done (Some (ErrorString ("accepts 1 arg(s), received " +:+
                                   pretty (length args)))) w1
      end
  end.
Proof.
  rewrite run_program, run_Execute. cbn [w_fs w_out].
  destruct (UserHomeDir env) as [home|]; [|done]. cbn zeta.
  assert (∀ out, w_out w ++ author_error :: out = w_out w ++ [author_error] ++ out)
    as Hout by done.
  destruct args as [|pwd [|arg args]]; unfold ExactArgs; cbn [length].
  - rewrite decide_False by done. destruct (ReadInConfig env _); by list_assoc.
  - rewrite decide_True by done. rewrite run_bind.
    destruct (ReadInConfig env _); list_assoc;
      by destruct (run (cmd.run _ _ _) _).
  - rewrite decide_False by done. destruct (ReadInConfig env _); by list_assoc.
Qed.
End run.

(** ** Witnesses *)

Lemma init_author_not_defined_witness :
  init package0 = (initialized package0, [author_error]) ∧
  viper (init package0).1 = viper package0.
Proof. apply init_author_not_defined. reflexivity. Defined.
